(** * libheartbeats: the heartbeat engine and the polling energy backend

    A shallow embedding of
    - [src/src/heartbeat-accuracy-power-shared.c]: [heartbeat_acc_pow_init],
      [hb_flush_buffer], [heartbeat_finish], [hb_window_average_accuracy],
      [heartbeat_acc], [heartbeat];
    - [src/src/hb-energy-odroid-smart-power.c] built with
      [HB_ENERGY_ODROID_SMART_POWER_USE_POLLING]: the locked body of
      [osp_poll_device] and [hb_energy_read_total_osp]; the three request
      helpers, [hb_energy_init_osp] and [hb_energy_finish_osp] as the
      library calls they make.

    [heartbeat_acc_pow_init] and [heartbeat_finish] are embedded twice: as
    functions on the engine, on the path where every call succeeds, and as
    the sequence of library calls they make on every path.

    The C code computes on [double].  Every definition below is written once,
    over an interface [Arith] of the operations the code applies to doubles,
    and is then read at these instances:
    - [binary64]: IEEE 754 binary64 with round-to-nearest-even, the kernel's
      primitive floats.  This is what the compiled C code computes, and it
      evaluates inside Rocq;
    - [exact]: the real numbers, where no operation rounds, the narrowing
      to [float] included;
    - [narrowing rnd]: the real numbers for [double], with the narrowing
      to [float] an arbitrary function [rnd].

    Statements about control flow (indices, flags, which slot is written,
    what is flushed) are proved for every instance.  Statements that need
    algebra (an incremental sum equals a recomputed one) are proved at
    [exact] when the values they are about never pass through [float], and
    at [narrowing rnd] for every [rnd] when they do (the window rate);
    where rounding makes them fail, the failing run is evaluated at
    [binary64]. *)

From Stdlib Require Import ZArith List Bool Lia.
From Stdlib Require String.
Import String.StringSyntax.
From Stdlib Require Import Reals Lra.
From Stdlib Require Import Floats.PrimFloat Floats.SpecFloat Floats.FloatOps.
Import ListNotations.

Local Open Scope Z_scope.

(** ** The arithmetic of [double] *)

Class Arith : Type := {
  double : Type;
  (** [(double) z] for an integer [z]; also the integer and decimal literals
      of the source ([0], [1.0], [1000000000.0], ...), all of which are
      integers below 2^53 and so convert without rounding. *)
  of_int : Z -> double;
  dadd : double -> double -> double;
  dsub : double -> double -> double;
  dmul : double -> double -> double;
  ddiv : double -> double -> double;
  (** [x > 0] as C evaluates it (false on a NaN). *)
  dpositive : double -> bool;
  (** [(float) x]: rounding to single precision, the result again held in a
      [double]. *)
  to_float : double -> double;
  (** The one law the proofs below take from the arithmetic: [0 > 0] is
      false. *)
  zero_not_positive : dpositive (of_int 0) = false
}.

Declare Scope dbl_scope.
Delimit Scope dbl_scope with dbl.
Infix "+" := dadd : dbl_scope.
Infix "-" := dsub : dbl_scope.
Infix "*" := dmul : dbl_scope.
Infix "/" := ddiv : dbl_scope.

(** *** IEEE 754 binary64 *)

Module Binary64.

(** [(double) z]: the nearest binary64 value, ties to even. *)
Definition of_int (z : Z) : float :=
  SF2Prim (binary_normalize prec emax z 0 false).

(** [(float) x]: the nearest binary32 value (24-bit significand, exponents
    up to 128), ties to even; every binary32 value is a binary64 value. *)
Definition to_float (x : float) : float :=
  match Prim2SF x with
  | S754_finite s m e =>
      SF2Prim (binary_normalize 24 128 (cond_Zopp s (Zpos m)) e s)
  | _ => x
  end.

Definition positive (x : float) : bool := PrimFloat.ltb PrimFloat.zero x.

(** [|x - y| <= 1e-9 * |y|]: the relative tolerance of the spec,
    evaluated in binary64. *)
Definition within_tolerance (x y : float) : bool :=
  PrimFloat.leb (PrimFloat.abs (PrimFloat.sub x y))
    (PrimFloat.mul (PrimFloat.div 1 1000000000) (PrimFloat.abs y)).

End Binary64.

#[export] Instance binary64 : Arith := {|
  double := float;
  of_int := Binary64.of_int;
  dadd := PrimFloat.add;
  dsub := PrimFloat.sub;
  dmul := PrimFloat.mul;
  ddiv := PrimFloat.div;
  dpositive := Binary64.positive;
  to_float := Binary64.to_float;
  zero_not_positive := eq_refl
|}.

(** *** Exact arithmetic *)

Module Exact.

Definition positive (x : R) : bool := if Rlt_dec 0 x then true else false.

Definition zero_not_positive : positive (IZR 0) = false :=
  match Rlt_dec 0 0 as d return (if d then true else false) = false with
  | left h => False_ind _ (Rlt_irrefl 0 h)
  | right _ => eq_refl
  end.

End Exact.

#[export] Instance exact : Arith := {|
  double := R;
  of_int := IZR;
  dadd := Rplus;
  dsub := Rminus;
  dmul := Rmult;
  ddiv := Rdiv;
  dpositive := Exact.positive;
  to_float := fun x => x;
  zero_not_positive := Exact.zero_not_positive
|}.

(** ** Data model

    [heartbeat-accuracy-power.h] and [heartbeat-util-shared.h] are not part of
    the sources at hand; the records below hold the fields the two C files
    read and write, under their C names.  Integer fields ([int64_t], [int])
    are integers: the code never relies on wrap-around (signed overflow is
    undefined in C).  The process id, the file names, the mutex and the
    energymon handle are left out: every function below is the body of one
    critical section, and the value returned by the energy backend is an
    argument of the call.

    An array is the memory it points to, addressed by element index: C keeps
    no length with a pointer, and a store past the allocated length is a
    store all the same.  Whether an index stays below the allocated length is
    stated separately ([hb_window_index_ok], [hb_log_index_ok]). *)

Definition array (V : Type) : Type := Z -> V.

Definition store {V : Type} (a : array V) (i : Z) (v : V) : array V :=
  fun j => if j =? i then v else a j.

(** [a[0], ..., a[n-1]], in this order. *)
Definition slots {V : Type} (a : array V) (n : Z) : list V :=
  map (fun i => a (Z.of_nat i)) (seq 0 (Z.to_nat n)).

Record timespec : Type := {
  tv_sec : Z;
  tv_nsec : Z
}.

Section Engine.

Context {A : Arith}.

Record heartbeat_record_t : Type := {
  beat : Z;
  tag : Z;
  timestamp : Z;
  global_rate : double;
  window_rate : double;
  instant_rate : double;
  global_accuracy : double;
  window_accuracy : double;
  instant_accuracy : double;
  global_power : double;
  window_power : double;
  instant_power : double
}.

Record HB_global_state_t : Type := {
  min_heartrate : double;
  max_heartrate : double;
  min_accuracy : double;
  max_accuracy : double;
  min_power : double;
  max_power : double;
  window_size : Z;
  counter : Z;
  buffer_depth : Z;
  buffer_index : Z;
  read_index : Z;
  valid : bool
}.

(** The text log is the list of the chunks written so far, one chunk per
    call of [hb_flush_buffer]; a chunk is the list of the records printed,
    one per line.  The header line and the layout of a line are left out.
    [None] is [text_file == NULL].

    [hb_global_accuracy] and [hb_global_power] are the C fields
    [hb->global_accuracy] and [hb->global_power]; the prefix keeps them
    apart from the columns of a log record. *)
Record heartbeat_t : Type := {
  state : HB_global_state_t;
  window : array Z;
  accuracy_window : array double;
  power_window : array double;
  log : array heartbeat_record_t;
  text_file : option (list (list heartbeat_record_t));
  first_timestamp : Z;
  last_timestamp : Z;
  last_energy : double;
  current_index : Z;
  steady_state : bool;
  hb_global_accuracy : double;
  hb_global_power : double;
  total_energy : double;
  last_window_time : double;
  last_window_energy : double;
  last_average_time : double;
  last_average_accuracy : double
}.

(** The counters of the shared state, the only fields of it written after
    [heartbeat_acc_pow_init]. *)
Definition with_counters (s : HB_global_state_t)
    (c bi ri : Z) (v : bool) : HB_global_state_t :=
  {| min_heartrate := min_heartrate s; max_heartrate := max_heartrate s;
     min_accuracy := min_accuracy s; max_accuracy := max_accuracy s;
     min_power := min_power s; max_power := max_power s;
     window_size := window_size s; counter := c;
     buffer_depth := buffer_depth s; buffer_index := bi;
     read_index := ri; valid := v |}.

(** *** [heartbeat_acc_pow_init]

    The path on which every allocation and [fopen] succeeds.  [m] is the
    memory [malloc] and [HB_alloc_state]/[HB_alloc_log] returned: what the
    function does not write keeps the indeterminate content of [m]
    (the arrays, [last_energy], the running window aggregates). *)
Definition heartbeat_acc_pow_init (m : heartbeat_t)
    (window_size buffer_depth : Z) (log_name : option String.string)
    (min_perf max_perf min_acc max_acc min_pow max_pow : double)
    : heartbeat_t :=
  {| state :=
       {| min_heartrate := min_perf; max_heartrate := max_perf;
          min_accuracy := min_acc; max_accuracy := max_acc;
          min_power := min_pow; max_power := max_pow;
          window_size := window_size; counter := 0;
          buffer_depth := buffer_depth; buffer_index := 0;
          read_index := 0; valid := false |};
     window := window m;
     accuracy_window := accuracy_window m;
     power_window := power_window m;
     log := log m;
     text_file := match log_name with Some _ => Some [] | None => None end;
     first_timestamp := -1;
     last_timestamp := -1;
     last_energy := last_energy m;
     current_index := 0;
     steady_state := false;
     hb_global_accuracy := of_int 0;
     hb_global_power := of_int 0;
     total_energy := of_int 0;
     last_window_time := last_window_time m;
     last_window_energy := last_window_energy m;
     last_average_time := last_average_time m;
     last_average_accuracy := last_average_accuracy m |}.

Definition heartbeat_init (m : heartbeat_t)
    (window_size buffer_depth : Z) (log_name : option String.string)
    (min_target max_target : double) : heartbeat_t :=
  heartbeat_acc_pow_init m window_size buffer_depth log_name
    min_target max_target (of_int 0) (of_int 0) (of_int 0) (of_int 0).

(** *** [hb_flush_buffer] *)
Definition hb_flush_buffer (hb : heartbeat_t) : heartbeat_t :=
  let nrecords := buffer_index (state hb) in
  match text_file hb with
  | Some chunks =>
      {| state := state hb; window := window hb;
         accuracy_window := accuracy_window hb;
         power_window := power_window hb; log := log hb;
         text_file := Some (chunks ++ [slots (log hb) nrecords]);
         first_timestamp := first_timestamp hb;
         last_timestamp := last_timestamp hb;
         last_energy := last_energy hb;
         current_index := current_index hb;
         steady_state := steady_state hb;
         hb_global_accuracy := hb_global_accuracy hb;
         hb_global_power := hb_global_power hb;
         total_energy := total_energy hb;
         last_window_time := last_window_time hb;
         last_window_energy := last_window_energy hb;
         last_average_time := last_average_time hb;
         last_average_accuracy := last_average_accuracy hb |}
  | None => hb
  end.

(** *** [heartbeat_finish]

    What is left of the engine after it is freed is the text log: the
    buffered records are flushed into it before it is closed. *)
Definition heartbeat_finish (hb : heartbeat_t)
    : option (list (list heartbeat_record_t)) :=
  match text_file hb with
  | Some _ => text_file (hb_flush_buffer hb)
  | None => None
  end.

(** The value of an accumulator that starts at [0] and adds [f 0], ...,
    [f (n-1)] in this order: the [for] loop of the warm-up phase. *)
Fixpoint loop_sum (f : array double) (n : nat) : double :=
  match n with
  | O => of_int 0
  | S k => (loop_sum f k + f (Z.of_nat k))%dbl
  end.

(** *** [hb_window_average_accuracy]

    Returns the engine, the value returned by the C function (the window
    rate [fps], a [float]) and the two values stored through
    [accuracy_rate] and [power_rate].  In the warm-up branch the C code
    also assigns [average_power / hb->last_window_time] to the local
    [average_power], which is not read again. *)
Definition hb_window_average_accuracy (hb : heartbeat_t)
    (time : Z) (accuracy energy : double)
    : heartbeat_t * double * double * double :=
  let ws := window_size (state hb) in
  let ci := current_index hb in
  if negb (steady_state hb) then
    let window' := store (window hb) ci time in
    let accuracy_window' := store (accuracy_window hb) ci accuracy in
    let power_window' := store (power_window hb) ci energy in
    let n := Z.to_nat (ci + 1) in
    let sum_time := loop_sum (fun i => of_int (window' i)) n in
    let sum_accuracy := loop_sum accuracy_window' n in
    let sum_power := loop_sum power_window' n in
    let window_time := sum_time in
    let average_time := (sum_time / (of_int ci + of_int 1))%dbl in
    let average_accuracy := (sum_accuracy / (of_int ci + of_int 1))%dbl in
    let window_energy := sum_power in
    let full := ci + 1 =? ws in
    let hb' :=
      {| state := state hb; window := window';
         accuracy_window := accuracy_window';
         power_window := power_window'; log := log hb;
         text_file := text_file hb;
         first_timestamp := first_timestamp hb;
         last_timestamp := last_timestamp hb;
         last_energy := last_energy hb;
         current_index := if full then 0 else ci + 1;
         steady_state := if full then true else steady_state hb;
         hb_global_accuracy := hb_global_accuracy hb;
         hb_global_power := hb_global_power hb;
         total_energy := total_energy hb;
         last_window_time := window_time;
         last_window_energy := window_energy;
         last_average_time := average_time;
         last_average_accuracy := average_accuracy |} in
    (hb',
     to_float ((of_int 1 / to_float average_time) * of_int 1000000000)%dbl,
     average_accuracy,
     (window_energy / (window_time / of_int 1000000000))%dbl)
  else
    let average_time :=
      (last_average_time hb - of_int (window hb ci) / of_int ws)%dbl in
    let average_accuracy :=
      (last_average_accuracy hb - accuracy_window hb ci / of_int ws)%dbl in
    let window_time := (last_window_time hb - of_int (window hb ci))%dbl in
    let window_energy := (last_window_energy hb - power_window hb ci)%dbl in
    let average_time := (average_time + of_int time / of_int ws)%dbl in
    let average_accuracy := (average_accuracy + accuracy / of_int ws)%dbl in
    let window_time := (window_time + of_int time)%dbl in
    let window_energy := (window_energy + energy)%dbl in
    let hb' :=
      {| state := state hb; window := store (window hb) ci time;
         accuracy_window := store (accuracy_window hb) ci accuracy;
         power_window := store (power_window hb) ci energy;
         log := log hb;
         text_file := text_file hb;
         first_timestamp := first_timestamp hb;
         last_timestamp := last_timestamp hb;
         last_energy := last_energy hb;
         current_index := if ci + 1 =? ws then 0 else ci + 1;
         steady_state := steady_state hb;
         hb_global_accuracy := hb_global_accuracy hb;
         hb_global_power := hb_global_power hb;
         total_energy := total_energy hb;
         last_window_time := window_time;
         last_window_energy := window_energy;
         last_average_time := average_time;
         last_average_accuracy := average_accuracy |} in
    (hb',
     to_float ((of_int 1 / to_float average_time) * of_int 1000000000)%dbl,
     average_accuracy,
     (window_energy / (window_time / of_int 1000000000))%dbl).

(** [time_info.tv_sec * 1000000000 + time_info.tv_nsec], the timestamp
    [heartbeat_acc] builds from what [clock_gettime] stored. *)
Definition timestamp_ns (time_info : timespec) : Z :=
  tv_sec time_info * 1000000000 + tv_nsec time_info.

(** The log slot [heartbeat_acc] stores its record in: [hb->log[0]] on the
    first call, [hb->log[index]] with [index = hb->state->buffer_index]
    on the others. *)
Definition log_write_index (hb : heartbeat_t) : Z :=
  if first_timestamp hb =? -1 then 0 else buffer_index (state hb).

(** *** [heartbeat_acc]

    [time_info] is what [clock_gettime] stored and [reading] is the value
    of [hb->em.fread(&hb->em)] converted to [double], whatever it is: a
    cumulative energy or the value a backend returns on failure. *)
Definition heartbeat_acc (hb : heartbeat_t) (tag : Z) (accuracy : double)
    (time_info : timespec) (reading : double) : heartbeat_t * Z :=
  let old_last_time := last_timestamp hb in
  let old_last_energy := last_energy hb in
  let time := timestamp_ns time_info in
  let energy := (reading / of_int 1000000)%dbl in
  let s := state hb in
  if first_timestamp hb =? -1 then
    let r :=
      {| beat := counter s; tag := tag; timestamp := time;
         global_rate := of_int 0; window_rate := of_int 0;
         instant_rate := of_int 0;
         global_accuracy := accuracy; window_accuracy := accuracy;
         instant_accuracy := accuracy;
         global_power := of_int 0; window_power := of_int 0;
         instant_power := of_int 0 |} in
    ({| state :=
          with_counters s (counter s + 1) (buffer_index s + 1)
            (read_index s) true;
        window := store (window hb) 0 0;
        accuracy_window := store (accuracy_window hb) 0 accuracy;
        power_window := store (power_window hb) 0 (of_int 0);
        log := store (log hb) 0 r;
        text_file := text_file hb;
        first_timestamp := time;
        last_timestamp := time;
        last_energy := energy;
        current_index := current_index hb;
        steady_state := steady_state hb;
        hb_global_accuracy := (hb_global_accuracy hb + accuracy)%dbl;
        hb_global_power := hb_global_power hb;
        total_energy := of_int 0;
        last_window_time := last_window_time hb;
        last_window_energy := last_window_energy hb;
        last_average_time := last_average_time hb;
        last_average_accuracy := last_average_accuracy hb |},
     time)
  else
    let index := buffer_index s in
    let '(hbw, window_heartrate, window_accuracy, window_power) :=
      hb_window_average_accuracy hb (time - old_last_time) accuracy
        (energy - old_last_energy)%dbl in
    let global_heartrate :=
      ((of_int (counter s) + of_int 1)
       / of_int (time - first_timestamp hb) * of_int 1000000000)%dbl in
    let instant_heartrate :=
      (of_int 1 / of_int (time - old_last_time) * of_int 1000000000)%dbl in
    let global_accuracy_sum := (hb_global_accuracy hb + accuracy)%dbl in
    let global_accuracy :=
      (global_accuracy_sum / of_int (counter s + 1))%dbl in
    let instant_accuracy := accuracy in
    let total := (total_energy hb + (energy - old_last_energy))%dbl in
    let global_power :=
      (total / of_int (time - first_timestamp hb)
       * of_int 1000000000)%dbl in
    let instant_power :=
      ((energy - old_last_energy) / of_int (time - old_last_time)
       * of_int 1000000000)%dbl in
    let r :=
      {| beat := counter s; tag := tag; timestamp := time;
         global_rate := global_heartrate; window_rate := window_heartrate;
         instant_rate := instant_heartrate;
         global_accuracy := global_accuracy;
         window_accuracy := window_accuracy;
         instant_accuracy := instant_accuracy;
         global_power := global_power; window_power := window_power;
         instant_power := instant_power |} in
    let hb1 :=
      {| state :=
           with_counters s (counter s + 1) (buffer_index s + 1)
             (read_index s + 1) (valid s);
         window := window hbw;
         accuracy_window := accuracy_window hbw;
         power_window := power_window hbw;
         log := store (log hb) index r;
         text_file := text_file hb;
         first_timestamp := first_timestamp hb;
         last_timestamp := time;
         last_energy := energy;
         current_index := current_index hbw;
         steady_state := steady_state hbw;
         hb_global_accuracy := global_accuracy_sum;
         hb_global_power := hb_global_power hb;
         total_energy := total;
         last_window_time := last_window_time hbw;
         last_window_energy := last_window_energy hbw;
         last_average_time := last_average_time hbw;
         last_average_accuracy := last_average_accuracy hbw |} in
    let wrap := Z.rem (buffer_index (state hb1)) (buffer_depth s) =? 0 in
    let hb2 := if wrap then hb_flush_buffer hb1 else hb1 in
    let s2 := state hb2 in
    let bi := if wrap then 0 else buffer_index s2 in
    let ri :=
      if Z.rem (read_index s2) (buffer_depth s) =? 0 then 0
      else read_index s2 in
    ({| state := with_counters s2 (counter s2) bi ri (valid s2);
        window := window hb2;
        accuracy_window := accuracy_window hb2;
        power_window := power_window hb2;
        log := log hb2;
        text_file := text_file hb2;
        first_timestamp := first_timestamp hb2;
        last_timestamp := last_timestamp hb2;
        last_energy := last_energy hb2;
        current_index := current_index hb2;
        steady_state := steady_state hb2;
        hb_global_accuracy := hb_global_accuracy hb2;
        hb_global_power := hb_global_power hb2;
        total_energy := total_energy hb2;
        last_window_time := last_window_time hb2;
        last_window_energy := last_window_energy hb2;
        last_average_time := last_average_time hb2;
        last_average_accuracy := last_average_accuracy hb2 |},
     time).

(** *** [heartbeat] *)
Definition heartbeat (hb : heartbeat_t) (tag : Z)
    (time_info : timespec) (reading : double) : heartbeat_t * Z :=
  heartbeat_acc hb tag (of_int 0) time_info reading.

(** ** Runs of the engine *)

(** One call of [heartbeat_acc]: its arguments, and what the clock and the
    energy backend return during it. *)
Record call : Type := {
  c_tag : Z;
  c_accuracy : double;
  c_time_info : timespec;
  c_reading : double
}.

Definition beat_once (hb : heartbeat_t) (c : call) : heartbeat_t :=
  fst (heartbeat_acc hb (c_tag c) (c_accuracy c) (c_time_info c)
         (c_reading c)).

(** The engine after the calls [cs], made in this order. *)
Definition run (hb : heartbeat_t) (cs : list call) : heartbeat_t :=
  fold_left beat_once cs hb.

(** The record a call stores in the log. *)
Definition logged (hb : heartbeat_t) (c : call) : heartbeat_record_t :=
  log (beat_once hb c) (log_write_index hb).

(** The records of the calls [cs], in call order. *)
Fixpoint records (hb : heartbeat_t) (cs : list call)
    : list heartbeat_record_t :=
  match cs with
  | [] => []
  | c :: cs' => logged hb c :: records (beat_once hb c) cs'
  end.

(** The number of times the text log has been flushed. *)
Definition flush_count (hb : heartbeat_t) : nat :=
  match text_file hb with
  | Some chunks => length chunks
  | None => O
  end.

(** Everything written to the text log, chunk after chunk. *)
Definition flushed (hb : heartbeat_t) : list heartbeat_record_t :=
  match text_file hb with
  | Some chunks => concat chunks
  | None => []
  end.

(** The index [heartbeat_acc] is about to use is inside the log that
    [HB_alloc_log] sized to [buffer_depth] records. *)
Definition hb_log_index_ok (hb : heartbeat_t) : bool :=
  (0 <=? log_write_index hb)
  && (log_write_index hb <? buffer_depth (state hb)).

(** The index [hb_window_average_accuracy] is about to use is inside the
    three windows of [window_size] elements. *)
Definition hb_window_index_ok (hb : heartbeat_t) : bool :=
  (0 <=? current_index hb)
  && (current_index hb <? window_size (state hb)).

(** ** The window helper on its own *)

(** One sample handed to [hb_window_average_accuracy]: the time since the
    previous heartbeat, the accuracy, the energy since the previous
    heartbeat. *)
Record sample : Type := {
  s_time : Z;
  s_accuracy : double;
  s_energy : double
}.

Definition window_step (hb : heartbeat_t) (x : sample) : heartbeat_t :=
  let '(hb', _, _, _) :=
    hb_window_average_accuracy hb (s_time x) (s_accuracy x) (s_energy x) in
  hb'.

Definition window_run (hb : heartbeat_t) (xs : list sample) : heartbeat_t :=
  fold_left window_step xs hb.

(** The brute-force recomputation the spec compares the helper with: the
    samples added up from the oldest to the newest, divided by their
    number. *)
Definition brute_force_average (xs : list double) : double :=
  (fold_left dadd xs (of_int 0) / of_int (Z.of_nat (length xs)))%dbl.

(** Memory that holds nothing but zeros: one possible content of what
    [malloc] returns. *)
Definition zero_record : heartbeat_record_t :=
  {| beat := 0; tag := 0; timestamp := 0;
     global_rate := of_int 0; window_rate := of_int 0;
     instant_rate := of_int 0;
     global_accuracy := of_int 0; window_accuracy := of_int 0;
     instant_accuracy := of_int 0;
     global_power := of_int 0; window_power := of_int 0;
     instant_power := of_int 0 |}.

Definition zero_memory : heartbeat_t :=
  {| state :=
       {| min_heartrate := of_int 0; max_heartrate := of_int 0;
          min_accuracy := of_int 0; max_accuracy := of_int 0;
          min_power := of_int 0; max_power := of_int 0;
          window_size := 0; counter := 0; buffer_depth := 0;
          buffer_index := 0; read_index := 0; valid := false |};
     window := fun _ => 0;
     accuracy_window := fun _ => of_int 0;
     power_window := fun _ => of_int 0;
     log := fun _ => zero_record;
     text_file := None;
     first_timestamp := 0; last_timestamp := 0;
     last_energy := of_int 0;
     current_index := 0; steady_state := false;
     hb_global_accuracy := of_int 0; hb_global_power := of_int 0;
     total_energy := of_int 0;
     last_window_time := of_int 0; last_window_energy := of_int 0;
     last_average_time := of_int 0; last_average_accuracy := of_int 0 |}.

End Engine.

(** The last [n] elements of [l] (all of [l] when it has fewer): the
    trailing window of the spec. *)
Definition trailing {V : Type} (n : Z) (l : list V) : list V :=
  skipn (length l - Z.to_nat n) l.

(** ** The polling energy backend

    [hb-energy-odroid-smart-power.c] with
    [HB_ENERGY_ODROID_SMART_POWER_USE_POLLING] defined.  The polling thread and
    the reader share [osp_hb_pwr_avg], [osp_hb_pwr_avg_count] and touch them
    under [osp_polling_mutex] only, so a run of the backend is a sequence of
    two kinds of atomic steps: one sample taken by [osp_poll_device], one call
    of [hb_energy_read_total_osp].  The HID traffic is left out: the power a
    sample read from the device is an argument of the step. *)

Section Polling.

Context {A : Arith}.

(** The file's static variables; [device] is [device != NULL]. *)
Record osp_state : Type := {
  device : bool;
  osp_start_time : Z;
  osp_total_energy : double;
  osp_hb_pwr_avg : double;
  osp_hb_pwr_avg_last : double;
  osp_hb_pwr_avg_count : Z
}.

(** Modelled from the spec: [diff_sec] is declared in [hb-energy.h], which
    is not among the sources; the spec has the backend accumulate
    [last_known_power * (curr_ts - last_ts)] "in seconds", the timestamps
    being nanoseconds. *)
Definition diff_sec (last_hb_time curr_hb_time : Z) : double :=
  (of_int (curr_hb_time - last_hb_time) / of_int 1000000000)%dbl.

(** [hb_energy_init_osp] on the path where the device opens and answers;
    [now] is the clock reading stored in [osp_start_time]. *)
Definition hb_energy_init_osp (now : Z) : osp_state :=
  {| device := true;
     osp_start_time := now;
     osp_total_energy := of_int 0;
     osp_hb_pwr_avg := of_int 0;
     osp_hb_pwr_avg_last := of_int 0;
     osp_hb_pwr_avg_count := 0 |}.

(** The critical section of [osp_poll_device] for one sample of [watts]. *)
Definition osp_poll_sample (st : osp_state) (watts : double) : osp_state :=
  {| device := device st;
     osp_start_time := osp_start_time st;
     osp_total_energy := osp_total_energy st;
     osp_hb_pwr_avg :=
       ((watts + of_int (osp_hb_pwr_avg_count st) * osp_hb_pwr_avg st)
        / of_int (osp_hb_pwr_avg_count st + 1))%dbl;
     osp_hb_pwr_avg_last := osp_hb_pwr_avg_last st;
     osp_hb_pwr_avg_count := osp_hb_pwr_avg_count st + 1 |}.

(** The power [hb_energy_read_total_osp] converts to energy: the running
    average when it is positive, the last one used otherwise. *)
Definition osp_power_used (st : osp_state) : double :=
  if dpositive (osp_hb_pwr_avg st) then osp_hb_pwr_avg st
  else osp_hb_pwr_avg_last st.

(** *** [hb_energy_read_total_osp] *)
Definition hb_energy_read_total_osp (st : osp_state)
    (last_hb_time curr_hb_time : Z) : osp_state * double :=
  if negb (device st) then (st, of_int (-1))
  else
    let last_hb_time :=
      if last_hb_time <? 0 then osp_start_time st else last_hb_time in
    let pwr_avg_last := osp_power_used st in
    let total :=
      (osp_total_energy st
       + pwr_avg_last * diff_sec last_hb_time curr_hb_time)%dbl in
    ({| device := device st;
        osp_start_time := osp_start_time st;
        osp_total_energy := total;
        osp_hb_pwr_avg := of_int 0;
        osp_hb_pwr_avg_last := pwr_avg_last;
        osp_hb_pwr_avg_count := 0 |},
     total).

(** One atomic step of the backend. *)
Inductive osp_event : Type :=
| Sample (watts : double)
| Read (last_hb_time curr_hb_time : Z).

Definition osp_step (st : osp_state) (e : osp_event) : osp_state :=
  match e with
  | Sample watts => osp_poll_sample st watts
  | Read l c => fst (hb_energy_read_total_osp st l c)
  end.

Definition osp_run (st : osp_state) (es : list osp_event) : osp_state :=
  fold_left osp_step es st.

End Polling.

(** ** Vocabulary of the statements *)

Section Statements.

Context {A : Arith}.

(** The sample [heartbeat_acc] hands to the window helper on a call that
    is not the first. *)
Definition call_sample (hb : heartbeat_t) (c : call) : sample :=
  {| s_time := timestamp_ns (c_time_info c) - last_timestamp hb;
     s_accuracy := c_accuracy c;
     s_energy := (c_reading c / of_int 1000000 - last_energy hb)%dbl |}.

(** The call used where a concrete one is needed: tag [0], accuracy [1],
    the clock at [sec] seconds, a backend that reports [0]. *)
Definition call_at (sec : Z) : call :=
  {| c_tag := 0; c_accuracy := of_int 1;
     c_time_info := {| tv_sec := sec; tv_nsec := 0 |};
     c_reading := of_int 0 |}.

(** The first call of a run reads a clock that does not show [-1], the
    value [heartbeat_acc_pow_init] marks an engine without heartbeat
    with. *)
Definition clock_starts_ok (cs : list call) : Prop :=
  forall c, hd_error cs = Some c -> timestamp_ns (c_time_info c) <> -1.

(** The cursor of the window after [k >= 1] calls: the helper ran [k - 1]
    times. *)
Definition window_cursor (ws k : Z) (hb : heartbeat_t) : Prop :=
  window_size (state hb) = ws
  /\ first_timestamp hb <> -1
  /\ steady_state hb = (ws <? k)
  /\ current_index hb = (k - 1) mod ws.

(** The cursors of the log after [k >= 1] calls. *)
Definition log_cursor (bd k : Z) (hb : heartbeat_t) : Prop :=
  buffer_depth (state hb) = bd
  /\ first_timestamp hb <> -1
  /\ counter (state hb) = k
  /\ buffer_index (state hb) = k mod bd
  /\ read_index (state hb) = (k - 1) mod bd.

(** What the text log and the log buffer hold after [k >= 1] calls whose
    records are [rs]: the chunks are full, and what was not flushed yet is
    in the slots below [buffer_index]. *)
Definition log_content (bd k : Z) (rs : list heartbeat_record_t)
    (hb : heartbeat_t) : Prop :=
  exists chunks,
    text_file hb = Some chunks
    /\ concat chunks ++ slots (log hb) (buffer_index (state hb)) = rs
    /\ Z.of_nat (length chunks) = k / bd
    /\ Forall (fun ch => Z.of_nat (length ch) = bd) chunks.

(** Two engines that report the same window accuracy from now on,
    whatever calls follow: they may differ in slot [0] of the accuracy
    window as long as the next call of the helper overwrites it before it
    reads it. *)
Definition same_window_accuracy (hb hb' : heartbeat_t) : Prop :=
  window_size (state hb) = window_size (state hb')
  /\ first_timestamp hb = first_timestamp hb'
  /\ steady_state hb = steady_state hb'
  /\ current_index hb = current_index hb'
  /\ last_average_accuracy hb = last_average_accuracy hb'
  /\ forall i,
       accuracy_window hb i = accuracy_window hb' i
       \/ (i = 0 /\ current_index hb = 0 /\ steady_state hb = false).

(** The samples the calls [cs] hand to the window helper when none of them
    is the first call of the engine. *)
Fixpoint run_samples (hb : heartbeat_t) (cs : list call) : list sample :=
  match cs with
  | [] => []
  | c :: cs' => call_sample hb c :: run_samples (beat_once hb c) cs'
  end.

(** What [hb_window_average_accuracy] reads and writes of an engine. *)
Definition window_part (hb : heartbeat_t) :=
  (window_size (state hb), current_index hb, steady_state hb,
   window hb, accuracy_window hb, power_window hb,
   (last_average_time hb, last_average_accuracy hb,
    last_window_time hb, last_window_energy hb)).

(** The three columns of a list of samples. *)
Definition times (xs : list sample) : list double :=
  map (fun x => of_int (s_time x)) xs.

Definition accuracies (xs : list sample) : list double := map s_accuracy xs.

Definition energies (xs : list sample) : list double := map s_energy xs.

End Statements.

(** After the values [vs] were stored one after the other at a cursor that
    starts at [0] and wraps at [ws], slot [j] holds the last value stored
    there. *)
Definition ring_holds {V : Type} (ws : Z) (vs : list V) (a : array V) : Prop :=
  let n := Z.of_nat (length vs) in
  forall j, 0 <= j < Z.min n ws ->
            nth_error vs (Z.to_nat (n - 1 - (n - 1 - j) mod ws)) = Some (a j).

(** The window after the helper took the samples [xs], starting with an
    empty window. *)
Definition window_holds {A : Arith} (ws : Z) (xs : list sample)
    (hb : heartbeat_t) : Prop :=
  let n := Z.of_nat (length xs) in
  window_size (state hb) = ws
  /\ steady_state hb = (ws <=? n)
  /\ current_index hb = n mod ws
  /\ ring_holds ws (map s_time xs) (window hb)
  /\ ring_holds ws (accuracies xs) (accuracy_window hb)
  /\ ring_holds ws (energies xs) (power_window hb).

(** In exact arithmetic the statistics the helper keeps are those of the
    trailing window, recomputed from scratch. *)
Definition window_statistics (ws : Z) (xs : list (@sample exact))
    (hb : @heartbeat_t exact) : Prop :=
  last_average_time hb = brute_force_average (trailing ws (times xs))
  /\ last_average_accuracy hb
     = brute_force_average (trailing ws (accuracies xs))
  /\ last_window_time hb = fold_left Rplus (trailing ws (times xs)) 0%R
  /\ last_window_energy hb = fold_left Rplus (trailing ws (energies xs)) 0%R.

(** Every sample of the run reads a power that is not negative. *)
Definition samples_nonnegative (es : list (@osp_event exact)) : Prop :=
  forall w, In (Sample w) es -> (0 <= w)%R.

(** *** Concrete runs *)

Module Demo.

Local Open Scope string_scope.

(** A binary64 engine on zeroed memory, with a text log. *)
Definition engine (ws bd : Z) : @heartbeat_t binary64 :=
  heartbeat_init zero_memory ws bd (Some "heartbeat.log")
    (of_int 0) (of_int 0).

(** The same engine in exact arithmetic. *)
Definition exact_engine (ws bd : Z) : @heartbeat_t exact :=
  heartbeat_init zero_memory ws bd (Some "heartbeat.log")
    (of_int 0) (of_int 0).

(** A call of [heartbeat_acc hb tag accuracy] while the clock shows [ns]
    nanoseconds and the backend reports [microjoules]. *)
Definition beat_at (tag : Z) (accuracy : float) (ns : Z)
    (microjoules : float) : @call binary64 :=
  @Build_call binary64 tag accuracy
    {| tv_sec := ns / 1000000000; tv_nsec := ns mod 1000000000 |}
    microjoules.

(** A sample of the given accuracy, one second after the previous one,
    no energy used. *)
Definition accuracy_sample (a : float) : @sample binary64 :=
  @Build_sample binary64 1000000000 a (of_int 0).

(** Accuracies [2^60, 1, 1]: the first is large enough to absorb the
    second when they are added in binary64. *)
Definition drifting : list (@sample binary64) :=
  map accuracy_sample [Binary64.of_int (2 ^ 60); 1%float; 1%float].

(** Accuracies [1e8, 0.1, 0.1]. *)
Definition drifting_small : list (@sample binary64) :=
  map accuracy_sample
    [100000000%float; PrimFloat.div 1 10; PrimFloat.div 1 10].

(** The end-to-end example of the spec: [window_size = 1],
    [buffer_depth = 2]; beat 1 at [t = 0], 0 J, accuracy 1.0, tag 0;
    beat 2 at [t = 1 s], 10 J, accuracy 0.8, tag 1. *)
Definition example_calls : list (@call binary64) :=
  [beat_at 0 1%float 0 0%float;
   beat_at 1 (PrimFloat.div 8 10) 1000000000 10000000%float].

Definition exact_sample (t : Z) (a e : R) : @sample exact :=
  @Build_sample exact t a e.

(** Accuracies [1, 3, 5] at time steps of [5], [7] and [9] ns. *)
Definition exact_samples : list (@sample exact) :=
  [exact_sample 5 1 0; exact_sample 7 3 0; exact_sample 9 5 0].

Definition exact_call (sec : Z) : @call exact := call_at sec.

(** [n] heartbeats, one per second from the epoch. *)
Definition calls (n : nat) : list (@call binary64) :=
  map (fun i => call_at (Z.of_nat i)) (seq 0 n).

(** A log record as the twelve columns of its line in the text log. *)
Definition columns (r : @heartbeat_record_t binary64)
    : Z * Z * Z * list float :=
  (beat r, tag r, timestamp r,
   [global_rate r; window_rate r; instant_rate r;
    global_accuracy r; window_accuracy r; instant_accuracy r;
    global_power r; window_power r; instant_power r]).

Definition exact_events : list (@osp_event exact) :=
  [@Sample exact 2%R; @Sample exact 4%R].

Definition polling_events : list (@osp_event binary64) :=
  [@Sample binary64 2%float; @Sample binary64 4%float].

End Demo.

(** ** More vocabulary: calls, records and the text log *)

Section Calls.

Context {A : Arith}.

(** The time a call captures and the energy it computes from the reading
    of the backend. *)
Definition time_of (c : call) : Z := timestamp_ns (c_time_info c).

Definition energy_of (c : call) : double :=
  (c_reading c / of_int 1000000)%dbl.

(** The samples of the calls [cs] that follow the call [prev]: each call
    hands the window helper the time and the energy since the call before
    it. *)
Fixpoint steps (prev : call) (cs : list call) : list sample :=
  match cs with
  | [] => []
  | c :: cs' =>
      {| s_time := time_of c - time_of prev;
         s_accuracy := c_accuracy c;
         s_energy := (energy_of c - energy_of prev)%dbl |}
      :: steps c cs'
  end.

(** The engine with [hb->text_file] replaced. *)
Definition with_text_file (hb : heartbeat_t)
    (tf : option (list (list heartbeat_record_t))) : heartbeat_t :=
  {| state := state hb; window := window hb;
     accuracy_window := accuracy_window hb;
     power_window := power_window hb; log := log hb;
     text_file := tf;
     first_timestamp := first_timestamp hb;
     last_timestamp := last_timestamp hb;
     last_energy := last_energy hb;
     current_index := current_index hb;
     steady_state := steady_state hb;
     hb_global_accuracy := hb_global_accuracy hb;
     hb_global_power := hb_global_power hb;
     total_energy := total_energy hb;
     last_window_time := last_window_time hb;
     last_window_energy := last_window_energy hb;
     last_average_time := last_average_time hb;
     last_average_accuracy := last_average_accuracy hb |}.

(** The columns of a record that no arithmetic goes into. *)
Definition identity_columns (r : heartbeat_record_t) : Z * Z * Z * double :=
  (beat r, tag r, timestamp r, instant_accuracy r).

(** Every read of the run is given a current time that is not before the
    last one, the assumption [hb_energy_read_total_osp] states in a
    comment; a negative last time stands for [start], the time
    [hb_energy_init_osp] stored. *)
Definition reads_forward (start : Z) (es : list osp_event) : Prop :=
  forall l c, In (Read l c) es -> (if l <? 0 then start else l) <= c.

End Calls.

(** *** Exact arithmetic that keeps the narrowing to [float]

    The arithmetic of [exact] on [double], with [(float) x] an arbitrary
    function [rnd] instead of the identity: [hb_window_average_accuracy]
    narrows the average time to [float] before it divides and returns a
    [float], and neither narrowing is exact. *)
Definition narrowing (rnd : R -> R) : Arith :=
  {| double := R;
     of_int := IZR;
     dadd := Rplus;
     dsub := Rminus;
     dmul := Rmult;
     ddiv := Rdiv;
     dpositive := Exact.positive;
     to_float := rnd;
     zero_not_positive := Exact.zero_not_positive |}.

(** The window of an engine that narrows, as an engine of [exact]: the
    fields [hb_window_average_accuracy] reads and writes hold values of
    type [double], on which the two arithmetics agree. *)
Definition exact_window (rnd : R -> R) (hb : @heartbeat_t (narrowing rnd))
    : @heartbeat_t exact :=
  @Build_heartbeat_t exact
    (@Build_HB_global_state_t exact
       (min_heartrate (state hb)) (max_heartrate (state hb))
       (min_accuracy (state hb)) (max_accuracy (state hb))
       (min_power (state hb)) (max_power (state hb))
       (window_size (state hb)) (counter (state hb))
       (buffer_depth (state hb)) (buffer_index (state hb))
       (read_index (state hb)) (valid (state hb)))
    (window hb) (accuracy_window hb) (power_window hb)
    (fun _ => zero_record) None
    (first_timestamp hb) (last_timestamp hb) (last_energy hb)
    (current_index hb) (steady_state hb)
    (hb_global_accuracy hb) (hb_global_power hb) (total_energy hb)
    (last_window_time hb) (last_window_energy hb)
    (last_average_time hb) (last_average_accuracy hb).

Definition exact_sample_of (rnd : R -> R) (x : @sample (narrowing rnd))
    : @sample exact :=
  @Build_sample exact (s_time x) (s_accuracy x) (s_energy x).

(** The differences of [f] between each call of [cs] and the call before
    it, [prev] being the call before the first. *)
Fixpoint differences {C : Type} (f : C -> R) (prev : C) (cs : list C)
    : list R :=
  match cs with
  | [] => []
  | c :: cs' => (f c - f prev)%R :: differences f c cs'
  end.

(** One heartbeat interval as the polling backend sees it: the samples
    the polling thread takes, then the read with its two times. *)
Record osp_interval : Type := {
  i_samples : list R;
  i_last : Z;
  i_curr : Z
}.

Definition interval_events (i : osp_interval) : list (@osp_event exact) :=
  map (@Sample exact) (i_samples i) ++ [Read (i_last i) (i_curr i)].

(** The energy of an interval: the mean of its samples times its length
    in seconds, [start] standing for a negative last time. *)
Definition interval_energy (start : Z) (i : osp_interval) : R :=
  (@brute_force_average exact (i_samples i)
   * (IZR (i_curr i - (if i_last i <? 0 then start else i_last i))
      / 1000000000))%R.

(** ** Set-up and teardown as sequences of library calls

    [heartbeat_acc_pow_init], [heartbeat_finish], [hb_energy_init_osp] and
    [hb_energy_finish_osp] acquire and release memory, files, the energy
    monitor, the HID device, a mutex and a thread.  Here they are the list
    of the library calls they make, in program order; a call that can fail
    carries its result ([true]: it succeeded), which the environment
    chooses.  [getpid], [perror], [printf], [usleep] and what [fprintf]
    writes to [stderr] are left out. *)

Inductive hb_block : Type := Hb | Window | Accuracy_window | Power_window.

Inductive hb_file : Type := Text_file | Binary_file.

Inductive hb_mutex : Type := Hb_mutex | Osp_polling_mutex.

Inductive lib_call : Type :=
| Malloc (b : hb_block) (ok : bool)
| Free (b : hb_block)
| Energymon_get_default (ok : bool)
| Em_finit (ok : bool)
| Em_fsource
| Em_ffinish
| HB_alloc_state (ok : bool)
| HB_alloc_log (ok : bool)
| Fopen (f : hb_file) (ok : bool)
| Fprintf_header
| Fprintf_records (nrecords : Z)
| Fflush
| Fclose (f : hb_file)
| Getenv (ok : bool)
| Sprintf_filename
| Remove
| Pthread_mutex_init (mx : hb_mutex) (ok : bool)
| Pthread_mutex_destroy (mx : hb_mutex)
| Pthread_create (ok : bool)
| Pthread_join
| Clock_gettime
| Hid_init (ok : bool)
| Hid_open (ok : bool)
| Hid_set_nonblocking
| Hid_write (request : Z) (ok : bool)
| Hid_read (ok : bool)
| Hid_close
| Hid_exit.

Definition lib_call_eq_dec (a b : lib_call) : {a = b} + {a <> b}.
Proof.
  decide equality;
    solve [apply Bool.bool_dec | apply Z.eq_dec | decide equality].
Defined.

(** How many times the call [c] occurs in [t]. *)
Definition calls_of (c : lib_call) (t : list lib_call) : nat :=
  count_occ lib_call_eq_dec t c.

(** The call failed. *)
Definition failed (c : lib_call) : bool :=
  match c with
  | Malloc _ ok | Energymon_get_default ok | Em_finit ok
  | HB_alloc_state ok | HB_alloc_log ok | Fopen _ ok | Getenv ok
  | Pthread_mutex_init _ ok | Pthread_create ok
  | Hid_init ok | Hid_open ok | Hid_write _ ok | Hid_read ok => negb ok
  | _ => false
  end.

(** The call failed and the caller looks at its result:
    [heartbeat_acc_pow_init] does not look at what [pthread_mutex_init]
    returns. *)
Definition checked_failure (c : lib_call) : bool :=
  match c with
  | Pthread_mutex_init Hb_mutex _ => false
  | _ => failed c
  end.

(** *** The engine *)

(** What the fallible calls of [heartbeat_acc_pow_init] return. *)
Record hb_outcomes : Type := {
  malloc_hb : bool;
  get_default : bool;
  finit : bool;
  alloc_state : bool;
  fopen_text : bool;
  enabled_dir : bool;
  alloc_log : bool;
  malloc_window : bool;
  malloc_accuracy_window : bool;
  malloc_power_window : bool;
  mutex_init : bool;
  fopen_binary : bool
}.

Section SetUp.

Context {A : Arith}.

(** [heartbeat_finish], for [hb != NULL].  [free] is called on the three
    windows whether they were allocated or are still [NULL];
    [hb_flush_buffer] prints [hb->state->buffer_index] records. *)
Definition heartbeat_finish_calls (hb : heartbeat_t) : list lib_call :=
  [Pthread_mutex_destroy Hb_mutex;
   Free Window; Free Accuracy_window; Free Power_window]
  ++ match text_file hb with
     | Some _ =>
         [Fprintf_records (buffer_index (state hb)); Fflush;
          Fclose Text_file]
     | None => []
     end
  ++ [Remove; Em_ffinish; Free Hb].

(** [heartbeat_acc_pow_init], every path.  [None] is [NULL].  [m] is the
    memory [malloc] and [HB_alloc_state] return; on the paths that give up
    through [heartbeat_finish] the engine is [m] with the fields written
    so far that [heartbeat_finish] reads.  The second [getenv] of the
    source is part of [Sprintf_filename]. *)
Definition heartbeat_acc_pow_init_calls (o : hb_outcomes) (m : heartbeat_t)
    (window_size buffer_depth : Z) (log_name : option String.string)
    (min_perf max_perf min_acc max_acc min_pow max_pow : double)
    : option heartbeat_t * list lib_call :=
  let abandon (t : list lib_call) (hb : heartbeat_t) :=
    (@None heartbeat_t, t ++ heartbeat_finish_calls hb) in
  let t := [Malloc Hb (malloc_hb o)] in
  if negb (malloc_hb o) then (None, t) else
  let hb := with_text_file m None in
  let t := t ++ [Energymon_get_default (get_default o)] in
  if negb (get_default o) then (None, t ++ [Free Hb]) else
  let t := t ++ [Em_finit (finit o)] in
  if negb (finit o) then (None, t ++ [Free Hb]) else
  let t := t ++ [Em_fsource; HB_alloc_state (alloc_state o)] in
  if negb (alloc_state o) then abandon t hb else
  let t :=
    match log_name with
    | Some _ => t ++ [Fopen Text_file (fopen_text o)]
    | None => t
    end in
  if match log_name with Some _ => negb (fopen_text o) | None => false end
  then abandon t hb else
  let t :=
    match log_name with Some _ => t ++ [Fprintf_header] | None => t end in
  let hb :=
    with_text_file m
      (match log_name with Some _ => Some [] | None => None end) in
  let t := t ++ [Getenv (enabled_dir o)] in
  if negb (enabled_dir o) then abandon t hb else
  let t := t ++ [Sprintf_filename; HB_alloc_log (alloc_log o)] in
  if negb (alloc_log o) then abandon t hb else
  let t := t ++ [Malloc Window (malloc_window o)] in
  if negb (malloc_window o) then abandon t hb else
  let t := t ++ [Malloc Accuracy_window (malloc_accuracy_window o)] in
  if negb (malloc_accuracy_window o) then abandon t hb else
  let t := t ++ [Malloc Power_window (malloc_power_window o)] in
  if negb (malloc_power_window o) then abandon t hb else
  let hb :=
    heartbeat_acc_pow_init m window_size buffer_depth log_name
      min_perf max_perf min_acc max_acc min_pow max_pow in
  let t :=
    t ++ [Pthread_mutex_init Hb_mutex (mutex_init o);
          Fopen Binary_file (fopen_binary o)] in
  if negb (fopen_binary o) then abandon t hb else
  (Some hb, t ++ [Fclose Binary_file]).

(** The calls of a whole life of an engine: set-up, the heartbeats [cs]
    if set-up returned an engine, [heartbeat_finish]. *)
Definition engine_life_calls (o : hb_outcomes) (m : heartbeat_t)
    (window_size buffer_depth : Z) (log_name : option String.string)
    (b1 b2 b3 b4 b5 b6 : double) (cs : list call) : list lib_call :=
  let r :=
    heartbeat_acc_pow_init_calls o m window_size buffer_depth log_name
      b1 b2 b3 b4 b5 b6 in
  match fst r with
  | Some hb => snd r ++ heartbeat_finish_calls (run hb cs)
  | None => snd r
  end.

End SetUp.

(** *** The polling backend *)

Definition OSP_REQUEST_DATA : Z := 55.

Definition OSP_REQUEST_STARTSTOP : Z := 128.

Definition OSP_REQUEST_STATUS : Z := 129.

(** What the HID library, the clock and the thread library return to
    [hb_energy_init_osp]: [hid_io n] is the result of the [n]-th call of
    [hid_write] or [hid_read], counted from [0]; [started] is
    [buf[1] == 0x01] in the reply to the status request. *)
Record osp_outcomes : Type := {
  hid_init_ok : bool;
  hid_open_ok : bool;
  hid_io : nat -> bool;
  started : bool;
  clock_now : Z;
  osp_mutex_init : bool;
  thread_create : bool
}.

(** [hb_energy_osp_request_status] and [hb_energy_osp_request_data]: a
    write of the request and, if it succeeds, a read of the reply.  [n] is
    the number of HID transfers made before; the result is the value the C
    function returns, the number of transfers made so far and the
    calls. *)
Definition hb_energy_osp_request (request : Z) (io : nat -> bool) (n : nat)
    : Z * nat * list lib_call :=
  if negb (io n) then (-1, S n, [Hid_write request false])
  else if negb (io (S n)) then
    (-1, S (S n), [Hid_write request true; Hid_read false])
  else (0, S (S n), [Hid_write request true; Hid_read true]).

Definition hb_energy_osp_request_status :=
  hb_energy_osp_request OSP_REQUEST_STATUS.

Definition hb_energy_osp_request_data :=
  hb_energy_osp_request OSP_REQUEST_DATA.

(** [hb_energy_osp_request_start_stop]: the request is written twice when
    [started == 0], once otherwise. *)
Definition hb_energy_osp_request_start_stop (started : bool)
    (io : nat -> bool) (n : nat) : Z * nat * list lib_call :=
  if negb started then
    if negb (io n) then (-1, S n, [Hid_write OSP_REQUEST_STARTSTOP false])
    else if negb (io (S n)) then
      (-1, S (S n),
       [Hid_write OSP_REQUEST_STARTSTOP true;
        Hid_write OSP_REQUEST_STARTSTOP false])
    else
      (0, S (S n),
       [Hid_write OSP_REQUEST_STARTSTOP true;
        Hid_write OSP_REQUEST_STARTSTOP true])
  else
    if negb (io n) then (-1, S n, [Hid_write OSP_REQUEST_STARTSTOP false])
    else (0, S n, [Hid_write OSP_REQUEST_STARTSTOP true]).

Section MeterSetUp.

Context {A : Arith}.

(** The static variables of the file: those of [osp_state] and
    [osp_do_polling]. *)
Record osp_process : Type := {
  osp_vars : osp_state;
  osp_do_polling : Z
}.

(** The static variables when the program starts: C sets them to zero. *)
Definition osp_static : osp_process :=
  {| osp_vars :=
       {| device := false;
          osp_start_time := 0;
          osp_total_energy := of_int 0;
          osp_hb_pwr_avg := of_int 0;
          osp_hb_pwr_avg_last := of_int 0;
          osp_hb_pwr_avg_count := 0 |};
     osp_do_polling := 0 |}.

Definition with_device (st : osp_state) (d : bool) : osp_state :=
  {| device := d;
     osp_start_time := osp_start_time st;
     osp_total_energy := osp_total_energy st;
     osp_hb_pwr_avg := osp_hb_pwr_avg st;
     osp_hb_pwr_avg_last := osp_hb_pwr_avg_last st;
     osp_hb_pwr_avg_count := osp_hb_pwr_avg_count st |}.

(** [hb_energy_finish_osp], built without
    [HB_ENERGY_ODROID_SMART_POWER_STOP_ON_FINISH]: the new static
    variables, the value returned and the calls. *)
Definition hb_energy_finish_osp (p : osp_process)
    : osp_process * Z * list lib_call :=
  if negb (device (osp_vars p)) then (p, 0, [])
  else
    ({| osp_vars := with_device (osp_vars p) false; osp_do_polling := 0 |},
     0,
     [Pthread_join; Pthread_mutex_destroy Osp_polling_mutex;
      Hid_close; Hid_exit]).

(** [hb_energy_init_osp], every path: the new static variables, the value
    returned and the calls. *)
Definition hb_energy_init_osp_calls (o : osp_outcomes) (p : osp_process)
    : osp_process * Z * list lib_call :=
  let abandon (t : list lib_call) (p : osp_process) :=
    let '(p', _, tf) := hb_energy_finish_osp p in (p', -1, t ++ tf) in
  let t := [Hid_init (hid_init_ok o)] in
  if negb (hid_init_ok o) then (p, -1, t) else
  let t := t ++ [Hid_open (hid_open_ok o)] in
  let p :=
    {| osp_vars := with_device (osp_vars p) (hid_open_ok o);
       osp_do_polling := osp_do_polling p |} in
  if negb (hid_open_ok o) then (p, -1, t) else
  let t := t ++ [Hid_set_nonblocking] in
  let '(r, n, tr) := hb_energy_osp_request_status (hid_io o) 0 in
  let t := t ++ tr in
  if negb (r =? 0) then abandon t p else
  let '(r, n, tr) :=
    hb_energy_osp_request_start_stop (started o) (hid_io o) n in
  let t := t ++ tr in
  if negb (r =? 0) then abandon t p else
  let '(r, n, tr) := hb_energy_osp_request_data (hid_io o) n in
  let t := t ++ tr in
  if negb (r =? 0) then abandon t p else
  let '(r, n, tr) := hb_energy_osp_request_data (hid_io o) n in
  let t := t ++ tr in
  if negb (r =? 0) then abandon t p else
  let t := t ++ [Clock_gettime] in
  let p :=
    {| osp_vars := hb_energy_init_osp (clock_now o); osp_do_polling := 1 |} in
  let t := t ++ [Pthread_mutex_init Osp_polling_mutex (osp_mutex_init o)] in
  if negb (osp_mutex_init o) then abandon t p else
  let t := t ++ [Pthread_create (thread_create o)] in
  if negb (thread_create o) then abandon t p else
  (p, 0, t).

End MeterSetUp.

(** *** Concrete outcomes and calls *)

Module Scenario.

Local Open Scope string_scope.

(** Everything succeeds. *)
Definition all_well : hb_outcomes :=
  {| malloc_hb := true; get_default := true; finit := true;
     alloc_state := true; fopen_text := true; enabled_dir := true;
     alloc_log := true; malloc_window := true;
     malloc_accuracy_window := true; malloc_power_window := true;
     mutex_init := true; fopen_binary := true |}.

(** [HB_alloc_log] returns [NULL]. *)
Definition no_log : hb_outcomes :=
  {| malloc_hb := true; get_default := true; finit := true;
     alloc_state := true; fopen_text := true; enabled_dir := true;
     alloc_log := false; malloc_window := true;
     malloc_accuracy_window := true; malloc_power_window := true;
     mutex_init := true; fopen_binary := true |}.

(** The meter answers every request; it was not started. *)
Definition meter_well : osp_outcomes :=
  {| hid_init_ok := true; hid_open_ok := true; hid_io := fun _ => true;
     started := false; clock_now := 0;
     osp_mutex_init := true; thread_create := true |}.

(** [pthread_mutex_init] fails. *)
Definition no_mutex : osp_outcomes :=
  {| hid_init_ok := true; hid_open_ok := true; hid_io := fun _ => true;
     started := false; clock_now := 0;
     osp_mutex_init := false; thread_create := true |}.

(** A call of [heartbeat_acc] in exact arithmetic: accuracy [accuracy],
    the clock at [sec] seconds, the backend at [microjoules]. *)
Definition exact_beat (sec : Z) (accuracy microjoules : R) : @call exact :=
  @Build_call exact 0 accuracy {| tv_sec := sec; tv_nsec := 0 |} microjoules.

(** Four heartbeats one second apart that use two joules each. *)
Definition exact_beats : list (@call exact) :=
  [exact_beat 0 1 0; exact_beat 1 3 2000000; exact_beat 2 5 4000000;
   exact_beat 3 7 6000000].

(** Two heartbeat intervals: the samples [2 W] and [4 W] in the first
    second, the sample [5 W] in the two seconds after it. *)
Definition intervals : list osp_interval :=
  [ {| i_samples := [2%R; 4%R]; i_last := -1; i_curr := 1000000000 |};
    {| i_samples := [5%R]; i_last := 1000000000; i_curr := 3000000000 |} ].

(** The one sample [-2 W]. *)
Definition negative_events : list (@osp_event binary64) :=
  [@Sample binary64 (PrimFloat.opp 2)].

(** A narrowing that is not the identity: to the next integer. *)
Definition round_up (x : R) : R := IZR (up x).

(** A call of [heartbeat_acc] in the arithmetic that narrows with
    [round_up]: accuracy [accuracy], the clock at [sec] seconds, the
    backend at [microjoules]. *)
Definition narrow_beat (sec : Z) (accuracy microjoules : R)
    : @call (narrowing round_up) :=
  @Build_call (narrowing round_up) 0 accuracy
    {| tv_sec := sec; tv_nsec := 0 |} microjoules.

(** Four heartbeats one second apart that use two joules each. *)
Definition narrow_beats : list (@call (narrowing round_up)) :=
  [narrow_beat 0 1 0; narrow_beat 1 3 2000000; narrow_beat 2 5 4000000;
   narrow_beat 3 7 6000000].

(** An engine on zeroed memory in that arithmetic, with a text log. *)
Definition narrow_engine (ws bd : Z) : @heartbeat_t (narrowing round_up) :=
  @heartbeat_init (narrowing round_up) (@zero_memory (narrowing round_up))
    ws bd (Some "heartbeat.log") 0%R 0%R.

End Scenario.

(** * Proofs *)

(** ** Arrays *)

Lemma store_same {V : Type} (a : array V) (i : Z) (v : V) : store a i v i = v.
Proof. unfold store. now rewrite Z.eqb_refl. Qed.

Lemma store_other {V : Type} (a : array V) (i j : Z) (v : V) :
  j <> i -> store a i v j = a j.
Proof. unfold store. intros H. apply Z.eqb_neq in H. now rewrite H. Qed.

Lemma slots_length {V : Type} (a : array V) (n : Z) :
  length (slots a n) = Z.to_nat n.
Proof. unfold slots. now rewrite length_map, length_seq. Qed.

Lemma slots_store_next {V : Type} (a : array V) (n : Z) (v : V) :
  0 <= n -> slots (store a n v) (n + 1) = slots a n ++ [v].
Proof.
  intros Hn. unfold slots.
  replace (Z.to_nat (n + 1)) with (S (Z.to_nat n)) by lia.
  rewrite seq_S, map_app. simpl. f_equal.
  - apply map_ext_in. intros i Hi. apply in_seq in Hi.
    apply store_other. lia.
  - now rewrite Z2Nat.id, store_same by lia.
Qed.

(** ** Remainders *)

Lemma succ_mod (a d : Z) :
  0 < d -> (a + 1) mod d = if a mod d + 1 =? d then 0 else a mod d + 1.
Proof.
  intros Hd. pose proof (Z.mod_pos_bound a d Hd) as Hb.
  pose proof (Z.div_mod a d ltac:(lia)) as He.
  destruct (Z.eqb_spec (a mod d + 1) d) as [E | E]; symmetry.
  - apply (Z.mod_unique _ _ (a / d + 1)); lia.
  - apply (Z.mod_unique _ _ (a / d)); lia.
Qed.

Lemma succ_div (n d : Z) :
  0 <= n -> 0 < d ->
  (n + 1) / d = if n mod d + 1 =? d then n / d + 1 else n / d.
Proof.
  intros Hn Hd. pose proof (Z.mod_pos_bound n d Hd) as Hb.
  pose proof (Z.div_mod n d ltac:(lia)) as He.
  destruct (Z.eqb_spec (n mod d + 1) d) as [E | E].
  - symmetry. apply (Z.div_unique_pos _ _ _ 0); lia.
  - symmetry. apply (Z.div_unique_pos _ _ _ (n mod d + 1)); lia.
Qed.

(** The wrap test of [heartbeat_acc], [(i + 1) % depth == 0], on a cursor
    [i] below [depth]. *)
Lemma wrap_test (i d : Z) :
  0 <= i < d -> (Z.rem (i + 1) d =? 0) = (i + 1 =? d).
Proof.
  intros H. rewrite Z.rem_mod_nonneg by lia.
  destruct (Z.eqb_spec (i + 1) d) as [E | E].
  - rewrite E, Z.mod_same by lia. reflexivity.
  - rewrite Z.mod_small by lia. apply Z.eqb_neq. lia.
Qed.

Section EngineFacts.

Context {A : Arith}.

Lemma window_step_eq (hb : heartbeat_t) (t : Z) (a e : double) :
  fst (fst (fst (hb_window_average_accuracy hb t a e)))
  = window_step hb {| s_time := t; s_accuracy := a; s_energy := e |}.
Proof.
  unfold window_step. simpl.
  now destruct (hb_window_average_accuracy hb t a e) as [[[? ?] ?] ?].
Qed.

Ltac first_call H :=
  unfold logged, log_write_index, beat_once, heartbeat_acc;
  rewrite H; cbn.

Ltac next_call H :=
  unfold logged, log_write_index, beat_once, heartbeat_acc;
  rewrite <- ?window_step_eq;
  apply Z.eqb_neq in H; rewrite H;
  match goal with
  | |- context [hb_window_average_accuracy ?h ?t ?a ?e] =>
      destruct (hb_window_average_accuracy h t a e) as [[[? ?] ?] ?]
  end;
  unfold hb_flush_buffer; cbn;
  repeat match goal with
         | |- context [if ?b then _ else _] => destruct b; cbn
         | |- context [match text_file ?h with _ => _ end] =>
             destruct (text_file h); cbn
         end.

(** *** What one call of the window helper does to the cursor *)

Lemma window_step_state (hb : heartbeat_t) (x : sample) :
  state (window_step hb x) = state hb.
Proof.
  unfold window_step, hb_window_average_accuracy.
  now destruct (negb (steady_state hb)).
Qed.

Lemma window_step_current_index (hb : heartbeat_t) (x : sample) :
  current_index (window_step hb x)
  = if current_index hb + 1 =? window_size (state hb) then 0
    else current_index hb + 1.
Proof.
  unfold window_step, hb_window_average_accuracy.
  now destruct (negb (steady_state hb)).
Qed.

Lemma window_step_steady_state (hb : heartbeat_t) (x : sample) :
  steady_state (window_step hb x)
  = steady_state hb || (current_index hb + 1 =? window_size (state hb)).
Proof.
  unfold window_step, hb_window_average_accuracy.
  destruct (steady_state hb) eqn:E; cbn; [reflexivity |].
  now destruct (_ =? _).
Qed.

Lemma window_step_window (hb : heartbeat_t) (x : sample) :
  window (window_step hb x) = store (window hb) (current_index hb) (s_time x).
Proof.
  unfold window_step, hb_window_average_accuracy.
  now destruct (negb (steady_state hb)).
Qed.

Lemma window_step_accuracy_window (hb : heartbeat_t) (x : sample) :
  accuracy_window (window_step hb x)
  = store (accuracy_window hb) (current_index hb) (s_accuracy x).
Proof.
  unfold window_step, hb_window_average_accuracy.
  now destruct (negb (steady_state hb)).
Qed.

Lemma window_step_power_window (hb : heartbeat_t) (x : sample) :
  power_window (window_step hb x)
  = store (power_window hb) (current_index hb) (s_energy x).
Proof.
  unfold window_step, hb_window_average_accuracy.
  now destruct (negb (steady_state hb)).
Qed.

Lemma window_step_last_average_accuracy (hb : heartbeat_t) (x : sample) :
  last_average_accuracy (window_step hb x)
  = if steady_state hb then
      (last_average_accuracy hb
       - accuracy_window hb (current_index hb)
         / of_int (window_size (state hb))
       + s_accuracy x / of_int (window_size (state hb)))%dbl
    else
      (loop_sum (store (accuracy_window hb) (current_index hb) (s_accuracy x))
         (Z.to_nat (current_index hb + 1))
       / (of_int (current_index hb) + of_int 1))%dbl.
Proof.
  unfold window_step, hb_window_average_accuracy.
  now destruct (steady_state hb).
Qed.

Lemma loop_sum_ext (f g : array double) (n : nat) :
  (forall i, 0 <= i < Z.of_nat n -> f i = g i) ->
  loop_sum f n = loop_sum g n.
Proof.
  induction n as [| n IH]; intros H; cbn [loop_sum]; [reflexivity |].
  rewrite IH, H by (intros; try apply H; lia). reflexivity.
Qed.

Section Next.
Variables (hb : heartbeat_t) (c : call).
Hypothesis Hnext : first_timestamp hb <> -1.


Lemma next_first_timestamp :
  first_timestamp (beat_once hb c) = first_timestamp hb.
Proof. next_call Hnext; reflexivity. Qed.

Lemma next_window_size :
  window_size (state (beat_once hb c)) = window_size (state hb).
Proof. next_call Hnext; reflexivity. Qed.

Lemma next_buffer_depth :
  buffer_depth (state (beat_once hb c)) = buffer_depth (state hb).
Proof. next_call Hnext; reflexivity. Qed.

Lemma next_counter :
  counter (state (beat_once hb c)) = counter (state hb) + 1.
Proof. next_call Hnext; reflexivity. Qed.

Lemma next_buffer_index :
  buffer_index (state (beat_once hb c))
  = if Z.rem (buffer_index (state hb) + 1) (buffer_depth (state hb)) =? 0 then 0
    else buffer_index (state hb) + 1.
Proof.
  unfold beat_once, heartbeat_acc.
  apply Z.eqb_neq in Hnext. rewrite Hnext.
  destruct (hb_window_average_accuracy _ _ _ _) as [[[? ?] ?] ?]. cbn.
  destruct (Z.rem _ _ =? 0);
    [unfold hb_flush_buffer; destruct (text_file hb) |];
    reflexivity.
Qed.

Lemma next_read_index :
  read_index (state (beat_once hb c))
  = if Z.rem (read_index (state hb) + 1) (buffer_depth (state hb)) =? 0 then 0
    else read_index (state hb) + 1.
Proof.
  unfold beat_once, heartbeat_acc.
  apply Z.eqb_neq in Hnext. rewrite Hnext.
  destruct (hb_window_average_accuracy _ _ _ _) as [[[? ?] ?] ?]. cbn.
  destruct (Z.rem (buffer_index _ + 1) _ =? 0);
    [unfold hb_flush_buffer; destruct (text_file hb) |]; reflexivity.
Qed.

Lemma next_steady_state :
  steady_state (beat_once hb c)
  = steady_state (window_step hb (call_sample hb c)).
Proof. unfold call_sample. next_call Hnext; reflexivity. Qed.

Lemma next_current_index :
  current_index (beat_once hb c)
  = current_index (window_step hb (call_sample hb c)).
Proof. unfold call_sample. next_call Hnext; reflexivity. Qed.

Lemma next_window :
  window (beat_once hb c)
  = window (window_step hb (call_sample hb c)).
Proof. unfold call_sample. next_call Hnext; reflexivity. Qed.

Lemma next_accuracy_window :
  accuracy_window (beat_once hb c)
  = accuracy_window (window_step hb (call_sample hb c)).
Proof. unfold call_sample. next_call Hnext; reflexivity. Qed.

Lemma next_power_window :
  power_window (beat_once hb c)
  = power_window (window_step hb (call_sample hb c)).
Proof. unfold call_sample. next_call Hnext; reflexivity. Qed.

Lemma next_last_average_accuracy :
  last_average_accuracy (beat_once hb c)
  = last_average_accuracy (window_step hb (call_sample hb c)).
Proof. unfold call_sample. next_call Hnext; reflexivity. Qed.

Lemma next_last_timestamp :
  last_timestamp (beat_once hb c)
  = timestamp_ns (c_time_info c).
Proof. next_call Hnext; reflexivity. Qed.

Lemma next_last_energy :
  last_energy (beat_once hb c) = (c_reading c / of_int 1000000)%dbl.
Proof. next_call Hnext; reflexivity. Qed.

Lemma next_total_energy :
  total_energy (beat_once hb c)
  = (total_energy hb
     + (c_reading c / of_int 1000000 - last_energy hb))%dbl.
Proof. next_call Hnext; reflexivity. Qed.

Lemma next_logged_instant_power :
  instant_power (logged hb c)
  = ((c_reading c / of_int 1000000 - last_energy hb)
     / of_int (timestamp_ns (c_time_info c) - last_timestamp hb)
     * of_int 1000000000)%dbl.
Proof. next_call Hnext; now rewrite store_same. Qed.

Lemma next_logged_global_rate :
  global_rate (logged hb c)
  = ((of_int (counter (state hb)) + of_int 1)
     / of_int (timestamp_ns (c_time_info c) - first_timestamp hb)
     * of_int 1000000000)%dbl.
Proof.
  next_call Hnext; now rewrite store_same.
Qed.

Lemma next_logged_window_accuracy :
  window_accuracy (logged hb c)
  = last_average_accuracy (window_step hb (call_sample hb c)).
Proof.
  unfold call_sample, logged, log_write_index, beat_once, heartbeat_acc,
    window_step.
  apply Z.eqb_neq in Hnext. rewrite Hnext. cbn.
  unfold hb_window_average_accuracy.
  destruct (negb (steady_state hb)); cbn;
  unfold hb_flush_buffer; cbn;
  repeat match goal with
       | |- context [if ?b then _ else _] => destruct b; cbn
       | |- context [match text_file ?h with _ => _ end] =>
           destruct (text_file h); cbn
       end; now rewrite store_same.
Qed.

Lemma next_text_file :
  text_file (beat_once hb c)
  = if Z.rem (buffer_index (state hb) + 1) (buffer_depth (state hb)) =? 0 then
      match text_file hb with
      | Some chunks =>
          Some (chunks
                ++ [slots
                      (store (log hb) (buffer_index (state hb)) (logged hb c))
                      (buffer_index (state hb) + 1)])
      | None => None
      end
    else text_file hb.
Proof.
  unfold logged, log_write_index, beat_once, heartbeat_acc.
  apply Z.eqb_neq in Hnext. rewrite Hnext.
  destruct (hb_window_average_accuracy _ _ _ _) as [[[? ?] ?] ?]. cbn.
  destruct (Z.rem (buffer_index _ + 1) _ =? 0); cbn.
  - unfold hb_flush_buffer; cbn. destruct (text_file hb); cbn;
      now rewrite ?store_same.
  - reflexivity.
Qed.
End Next.

Lemma beat_once_log (hb : heartbeat_t) (c : call) :
  log (beat_once hb c) = store (log hb) (log_write_index hb) (logged hb c).
Proof.
  unfold logged, log_write_index, beat_once, heartbeat_acc.
  destruct (first_timestamp hb =? -1); cbn.
  - reflexivity.
  - destruct (hb_window_average_accuracy _ _ _ _) as [[[? ?] ?] ?]. cbn.
    destruct (Z.rem (buffer_index _ + 1) _ =? 0); cbn;
      [unfold hb_flush_buffer; destruct (text_file hb); cbn |];
      now rewrite store_same.
Qed.


(** *** First call *)

Section First.
Variables (hb : heartbeat_t) (c : call).
Hypothesis Hfirst : first_timestamp hb = -1.

Lemma first_first_timestamp :
  first_timestamp (beat_once hb c) = timestamp_ns (c_time_info c).
Proof. first_call Hfirst. reflexivity. Qed.

Lemma first_state :
  state (beat_once hb c)
  = with_counters (state hb) (counter (state hb) + 1)
      (buffer_index (state hb) + 1) (read_index (state hb)) true.
Proof. first_call Hfirst. reflexivity. Qed.

Lemma first_current_index :
  current_index (beat_once hb c) = current_index hb.
Proof. first_call Hfirst. reflexivity. Qed.

Lemma first_steady_state :
  steady_state (beat_once hb c) = steady_state hb.
Proof. first_call Hfirst. reflexivity. Qed.

Lemma first_text_file : text_file (beat_once hb c) = text_file hb.
Proof. first_call Hfirst. reflexivity. Qed.

Lemma first_window : window (beat_once hb c) = store (window hb) 0 0.
Proof. first_call Hfirst. reflexivity. Qed.

Lemma first_accuracy_window :
  accuracy_window (beat_once hb c)
  = store (accuracy_window hb) 0 (c_accuracy c).
Proof. first_call Hfirst. reflexivity. Qed.

Lemma first_power_window :
  power_window (beat_once hb c) = store (power_window hb) 0 (of_int 0).
Proof. first_call Hfirst. reflexivity. Qed.

Lemma first_last_timestamp :
  last_timestamp (beat_once hb c) = timestamp_ns (c_time_info c).
Proof. first_call Hfirst. reflexivity. Qed.

Lemma first_last_energy :
  last_energy (beat_once hb c) = (c_reading c / of_int 1000000)%dbl.
Proof. first_call Hfirst. reflexivity. Qed.

Lemma first_last_average_accuracy :
  last_average_accuracy (beat_once hb c) = last_average_accuracy hb.
Proof. first_call Hfirst. reflexivity. Qed.

Lemma first_logged_window_accuracy :
  window_accuracy (logged hb c) = c_accuracy c.
Proof. first_call Hfirst. reflexivity. Qed.
End First.

(** *** Runs *)

Lemma run_app (hb : heartbeat_t) (cs : list call) (c : call) :
  run hb (cs ++ [c]) = beat_once (run hb cs) c.
Proof. unfold run. now rewrite fold_left_app. Qed.

Lemma records_app (cs : list call) :
  forall (hb : heartbeat_t) (c : call),
    records hb (cs ++ [c]) = records hb cs ++ [logged (run hb cs) c].
Proof.
  induction cs as [| c0 cs IH]; intros hb c; cbn; [reflexivity |].
  now rewrite IH.
Qed.

Lemma records_length (cs : list call) :
  forall hb : heartbeat_t, length (records hb cs) = length cs.
Proof. induction cs as [| c0 cs IH]; intros hb; cbn; now rewrite ?IH. Qed.

Lemma window_cursor_next (ws k : Z) (hb : heartbeat_t) (c : call) :
  1 <= ws -> 1 <= k ->
  window_cursor ws k hb -> window_cursor ws (k + 1) (beat_once hb c).
Proof.
  intros Hws Hk (Hsz & Hft & Hst & Hci).
  unfold window_cursor.
  rewrite next_window_size, next_first_timestamp, next_steady_state,
    next_current_index by assumption.
  rewrite window_step_steady_state, window_step_current_index, Hsz, Hst, Hci.
  replace (k + 1 - 1) with (k - 1 + 1) by lia.
  rewrite (succ_mod (k - 1) ws) by lia.
  repeat split; try assumption.
  pose proof (Z.mod_pos_bound (k - 1) ws ltac:(lia)) as Hb.
  destruct (Z.ltb_spec ws k) as [L | L]; cbn.
  - symmetry. apply Z.ltb_lt. lia.
  - rewrite Z.mod_small in * by lia.
    destruct (Z.eqb_spec (k - 1 + 1) ws) as [E | E]; symmetry;
      [apply Z.ltb_lt | apply Z.ltb_ge]; lia.
Qed.

Lemma window_cursor_run (m : heartbeat_t) (ws bd : Z)
    (ln : option String.string) (b1 b2 b3 b4 b5 b6 : double)
    (cs : list call) :
  1 <= ws -> clock_starts_ok cs -> cs <> [] ->
  window_cursor ws (Z.of_nat (length cs))
    (run (heartbeat_acc_pow_init m ws bd ln b1 b2 b3 b4 b5 b6) cs).
Proof.
  intros Hws. set (hb0 := heartbeat_acc_pow_init _ _ _ _ _ _ _ _ _ _).
  induction cs as [| c cs IH] using rev_ind; intros Hclk Hne;
    [congruence |].
  rewrite run_app, length_app. cbn [length].
  destruct cs as [| c0 cs].
  - change (run hb0 []) with hb0. unfold window_cursor.
    rewrite first_first_timestamp, first_state, first_steady_state,
      first_current_index by reflexivity.
    cbn.
    split; [reflexivity | split; [now apply Hclk | split; [| reflexivity]]].
    symmetry. apply Z.ltb_ge. lia.
  - replace (Z.of_nat (length (c0 :: cs) + 1))
      with (Z.of_nat (length (c0 :: cs)) + 1) by lia.
    apply window_cursor_next; [assumption | cbn [length]; lia |].
    apply IH; [| discriminate].
    intros c' H. apply Hclk. exact H.
Qed.

(** C3.  With [window_size >= 1], the [steady_state] flag after a run of
    [k] heartbeats is true exactly when [k > window_size]: it is false after
    each of the beats [1 .. window_size], true after beat [window_size + 1],
    and true after every later beat. *)
Theorem steady_state_transition (m : heartbeat_t) (ws bd : Z)
    (ln : option String.string) (b1 b2 b3 b4 b5 b6 : double)
    (cs : list call) :
  1 <= ws -> clock_starts_ok cs ->
  steady_state (run (heartbeat_acc_pow_init m ws bd ln b1 b2 b3 b4 b5 b6) cs)
  = (ws <? Z.of_nat (length cs)).
Proof.
  intros Hws Hclk. destruct cs as [| c cs].
  - cbn. symmetry. apply Z.ltb_ge. lia.
  - now destruct (window_cursor_run m ws bd ln b1 b2 b3 b4 b5 b6 (c :: cs))
      as (_ & _ & H & _).
Qed.

(** With [window_size >= 1], the slot the window helper is about to use is
    inside the three windows, after any number of heartbeats. *)
Lemma window_index_in_bounds (m : heartbeat_t) (ws bd : Z)
    (ln : option String.string) (b1 b2 b3 b4 b5 b6 : double)
    (cs : list call) :
  1 <= ws -> clock_starts_ok cs ->
  hb_window_index_ok
    (run (heartbeat_acc_pow_init m ws bd ln b1 b2 b3 b4 b5 b6) cs) = true.
Proof.
  intros Hws Hclk. unfold hb_window_index_ok. destruct cs as [| c cs].
  - cbn. apply Z.ltb_lt. lia.
  - destruct (window_cursor_run m ws bd ln b1 b2 b3 b4 b5 b6 (c :: cs))
      as (Hsz & _ & _ & Hci); [assumption .. | discriminate |].
    rewrite Hsz, Hci.
    pose proof (Z.mod_pos_bound (Z.of_nat (length (c :: cs)) - 1) ws
                  ltac:(lia)) as Hb.
    apply andb_true_intro. split; [apply Z.leb_le | apply Z.ltb_lt]; lia.
Qed.


Lemma log_cursor_next (bd k : Z) (hb : heartbeat_t) (c : call) :
  2 <= bd -> 1 <= k ->
  log_cursor bd k hb -> log_cursor bd (k + 1) (beat_once hb c).
Proof.
  intros Hbd Hk (Hd & Hft & Hc & Hbi & Hri). unfold log_cursor.
  rewrite next_buffer_depth, next_first_timestamp, next_counter,
    next_buffer_index, next_read_index by assumption.
  rewrite Hd, Hc, Hbi, Hri.
  rewrite !wrap_test by (apply Z.mod_pos_bound; lia).
  rewrite <- !succ_mod by lia.
  replace (k - 1 + 1) with (k + 1 - 1) by lia.
  repeat split; assumption.
Qed.

Lemma log_cursor_run (m : heartbeat_t) (ws bd : Z)
    (ln : option String.string) (b1 b2 b3 b4 b5 b6 : double)
    (cs : list call) :
  2 <= bd -> clock_starts_ok cs -> cs <> [] ->
  log_cursor bd (Z.of_nat (length cs))
    (run (heartbeat_acc_pow_init m ws bd ln b1 b2 b3 b4 b5 b6) cs).
Proof.
  intros Hbd. set (hb0 := heartbeat_acc_pow_init _ _ _ _ _ _ _ _ _ _).
  induction cs as [| c cs IH] using rev_ind; intros Hclk Hne;
    [congruence |].
  rewrite run_app, length_app. cbn [length].
  destruct cs as [| c0 cs].
  - change (run hb0 []) with hb0. unfold log_cursor.
    rewrite first_first_timestamp, first_state by reflexivity.
    cbn.
    split; [reflexivity | split; [now apply Hclk | split; [reflexivity |]]].
    rewrite Z.mod_small by lia. split; reflexivity.
  - replace (Z.of_nat (length (c0 :: cs) + 1))
      with (Z.of_nat (length (c0 :: cs)) + 1) by lia.
    apply log_cursor_next; [assumption | cbn [length]; lia |].
    apply IH; [| discriminate].
    intros c' H. apply Hclk. exact H.
Qed.

(** The slot the next call stores its record in, after any number of
    calls. *)
Lemma log_write_index_run (m : heartbeat_t) (ws bd : Z)
    (ln : option String.string) (b1 b2 b3 b4 b5 b6 : double)
    (cs : list call) :
  2 <= bd -> clock_starts_ok cs ->
  log_write_index
    (run (heartbeat_acc_pow_init m ws bd ln b1 b2 b3 b4 b5 b6) cs)
  = Z.of_nat (length cs) mod bd.
Proof.
  intros Hbd Hclk. destruct cs as [| c cs].
  - reflexivity.
  - destruct (log_cursor_run m ws bd ln b1 b2 b3 b4 b5 b6 (c :: cs))
      as (_ & Hft & _ & Hbi & _); [assumption .. | discriminate |].
    unfold log_write_index. apply Z.eqb_neq in Hft. now rewrite Hft.
Qed.

(** With [buffer_depth >= 2], the slot every call of [heartbeat_acc] stores
    its record in is inside the log. *)
Theorem log_index_in_bounds (m : heartbeat_t) (ws bd : Z)
    (ln : option String.string) (b1 b2 b3 b4 b5 b6 : double)
    (cs : list call) :
  2 <= bd -> clock_starts_ok cs ->
  let hb := run (heartbeat_acc_pow_init m ws bd ln b1 b2 b3 b4 b5 b6) cs in
  buffer_depth (state hb) = bd /\ 0 <= log_write_index hb < bd.
Proof.
  intros Hbd Hclk hb. subst hb. rewrite log_write_index_run by assumption.
  split; [| apply Z.mod_pos_bound; lia].
  destruct cs as [| c cs]; [reflexivity |].
  now destruct (log_cursor_run m ws bd ln b1 b2 b3 b4 b5 b6 (c :: cs))
    as (H & _).
Qed.

(** C5, as amended.  With [buffer_depth >= 2], after [k >= 1] calls
    [buffer_index] is [k mod buffer_depth] and [read_index] is
    [(k - 1) mod buffer_depth]: the write cursor advances on every call, the
    read cursor on every call but the first, both wrap at [buffer_depth],
    and [read_index] is the slot that holds the record of the last call. *)
Theorem cursors_after_calls (m : heartbeat_t) (ws bd : Z)
    (ln : option String.string) (b1 b2 b3 b4 b5 b6 : double)
    (cs : list call) (c : call) :
  2 <= bd -> clock_starts_ok (cs ++ [c]) ->
  let hb0 := heartbeat_acc_pow_init m ws bd ln b1 b2 b3 b4 b5 b6 in
  let hb := run hb0 (cs ++ [c]) in
  buffer_index (state hb) = (Z.of_nat (length cs) + 1) mod bd
  /\ read_index (state hb) = Z.of_nat (length cs) mod bd
  /\ log hb (read_index (state hb)) = logged (run hb0 cs) c.
Proof.
  intros Hbd Hclk hb0 hb.
  destruct (log_cursor_run m ws bd ln b1 b2 b3 b4 b5 b6 (cs ++ [c]))
    as (_ & _ & _ & Hbi & Hri);
    [assumption .. | now destruct cs |].
  fold hb0 in Hbi, Hri. fold hb in Hbi, Hri.
  rewrite length_app in Hbi, Hri. cbn [length] in Hbi, Hri.
  replace (Z.of_nat (length cs + 1)) with (Z.of_nat (length cs) + 1)
    in Hbi, Hri by lia.
  replace (Z.of_nat (length cs) + 1 - 1) with (Z.of_nat (length cs))
    in Hri by lia.
  split; [assumption | split; [assumption |]].
  subst hb. rewrite run_app, beat_once_log, <- run_app, Hri.
  subst hb0. rewrite log_write_index_run.
  - apply store_same.
  - assumption.
  - intros c' H. apply Hclk. destruct cs; [discriminate | exact H].
Qed.


Lemma log_content_next (bd k : Z) (rs : list heartbeat_record_t)
    (hb : heartbeat_t) (c : call) :
  2 <= bd -> 1 <= k ->
  log_cursor bd k hb -> log_content bd k rs hb ->
  log_content bd (k + 1) (rs ++ [logged hb c]) (beat_once hb c).
Proof.
  intros Hbd Hk (Hd & Hft & Hc & Hbi & Hri) (chunks & Htf & Hrs & Hn & Hall).
  pose proof (Z.mod_pos_bound k bd ltac:(lia)) as Hb.
  unfold log_content.
  rewrite next_text_file, next_buffer_index, beat_once_log by assumption.
  unfold log_write_index. pose proof Hft as Hft'.
  apply Z.eqb_neq in Hft'. rewrite Hft', Htf, Hd.
  rewrite wrap_test by lia. rewrite succ_div by lia.
  rewrite slots_store_next by lia. rewrite <- Hbi.
  destruct (Z.eqb_spec (buffer_index (state hb) + 1) bd) as [E | E].
  - exists (chunks ++ [slots (log hb) (buffer_index (state hb))
                       ++ [logged hb c]]).
    split; [reflexivity |]. split; [| split].
    + rewrite concat_app. cbn. rewrite !app_nil_r, app_assoc. now rewrite Hrs.
    + rewrite length_app. cbn [length]. lia.
    + apply Forall_app. split; [assumption |]. constructor; [| constructor].
      rewrite length_app, slots_length. cbn [length]. lia.
  - exists chunks. split; [reflexivity |]. split; [| split].
    + rewrite slots_store_next by lia. now rewrite app_assoc, Hrs.
    + assumption.
    + assumption.
Qed.

Lemma log_content_run (m : heartbeat_t) (ws bd : Z)
    (ln : String.string) (b1 b2 b3 b4 b5 b6 : double)
    (cs : list call) :
  2 <= bd -> clock_starts_ok cs -> cs <> [] ->
  let hb0 := heartbeat_acc_pow_init m ws bd (Some ln) b1 b2 b3 b4 b5 b6 in
  log_content bd (Z.of_nat (length cs)) (records hb0 cs) (run hb0 cs).
Proof.
  intros Hbd Hclk Hne hb0. revert Hclk Hne.
  induction cs as [| c cs IH] using rev_ind; intros Hclk Hne;
    [congruence |].
  rewrite run_app, records_app, length_app. cbn [length].
  destruct cs as [| c0 cs].
  - change (run hb0 []) with hb0. cbn [records app length Nat.add].
    exists []. rewrite first_text_file, first_state, beat_once_log
      by reflexivity.
    cbn. split; [reflexivity | split; [reflexivity | split; [| constructor]]].
    rewrite Z.div_small; lia.
  - replace (Z.of_nat (length (c0 :: cs) + 1))
      with (Z.of_nat (length (c0 :: cs)) + 1) by lia.
    assert (Hclk' : clock_starts_ok (c0 :: cs))
      by (intros c' H; apply Hclk; exact H).
    apply log_content_next; [assumption | cbn [length]; lia | |].
    + apply log_cursor_run; [assumption .. | discriminate].
    + apply IH; [assumption | discriminate].
Qed.

(** With [buffer_depth >= 2] and a text log, after [k] calls the log was
    flushed [k / buffer_depth] times, what was flushed is the records of the
    first [buffer_depth * (k / buffer_depth)] calls in call order, and
    [heartbeat_finish] completes it to the records of all calls, each once. *)
Theorem flush_cadence (m : heartbeat_t) (ws bd : Z)
    (ln : String.string) (b1 b2 b3 b4 b5 b6 : double)
    (cs : list call) :
  2 <= bd -> clock_starts_ok cs ->
  let hb0 := heartbeat_acc_pow_init m ws bd (Some ln) b1 b2 b3 b4 b5 b6 in
  let k := Z.of_nat (length cs) in
  Z.of_nat (flush_count (run hb0 cs)) = k / bd
  /\ flushed (run hb0 cs) = firstn (Z.to_nat (bd * (k / bd))) (records hb0 cs)
  /\ (exists chunks,
        heartbeat_finish (run hb0 cs) = Some chunks
        /\ concat chunks = records hb0 cs).
Proof.
  intros Hbd Hclk hb0 k. destruct cs as [| c0 cs].
  - subst k. cbn. rewrite Z.mul_0_r. cbn.
    repeat split. exists [[]]. split; reflexivity.
  - destruct (log_content_run m ws bd ln b1 b2 b3 b4 b5 b6 (c0 :: cs))
      as (chunks & Htf & Hrs & Hn & Hall); [assumption .. | discriminate |].
    fold hb0 in Htf, Hrs. fold k in Hn.
    destruct (log_cursor_run m ws bd (Some ln) b1 b2 b3 b4 b5 b6 (c0 :: cs))
      as (_ & _ & _ & Hbi & _); [assumption .. | discriminate |].
    fold hb0 in Hbi. fold k in Hbi.
    unfold flush_count, flushed, heartbeat_finish, hb_flush_buffer.
    rewrite Htf. cbn [text_file].
    assert (Hlen : length (concat chunks) = Z.to_nat (bd * (k / bd))).
    { rewrite <- Hn. clear - Hall. induction Hall as [| ch chunks Hch _ IH].
      - cbn. lia.
      - cbn [concat length]. rewrite length_app, IH. lia. }
    split; [assumption | split].
    + rewrite <- Hrs, <- Hlen, firstn_app, Nat.sub_diag, firstn_all.
      cbn. now rewrite app_nil_r.
    + eexists. split; [reflexivity |].
      rewrite concat_app. cbn. now rewrite app_nil_r.
Qed.


(** C4.  The first call of [heartbeat_acc] sets [first_timestamp] and
    [last_timestamp] to the time it captured and [last_energy] to the reading,
    seeds slot [0] of the windows with a zero time, the accuracy and a zero
    energy, logs the three rates and the three powers as zero and the three
    accuracies as the accuracy given, adds the accuracy to the global
    accuracy sum that [heartbeat_acc_pow_init] set to zero (in exact
    arithmetic the sum is then the accuracy itself), resets [total_energy]
    and counts one heartbeat. *)
Theorem first_heartbeat (m : heartbeat_t) (ws bd : Z)
    (ln : option String.string) (b1 b2 b3 b4 b5 b6 : double)
    (tag : Z) (accuracy : double) (time_info : timespec)
    (reading : double)
    (m' : @heartbeat_t exact) (e1 e2 e3 e4 e5 e6 accuracy' reading' : R) :
  let hb0 := heartbeat_acc_pow_init m ws bd ln b1 b2 b3 b4 b5 b6 in
  let now := timestamp_ns time_info in
  let hb1 := fst (heartbeat_acc hb0 tag accuracy time_info reading) in
  let hb1' :=
    fst (@heartbeat_acc exact
           (heartbeat_acc_pow_init m' ws bd ln e1 e2 e3 e4 e5 e6)
           tag accuracy' time_info reading') in
  first_timestamp hb1 = now
  /\ last_timestamp hb1 = now
  /\ last_energy hb1 = (reading / of_int 1000000)%dbl
  /\ window hb1 0 = 0
  /\ accuracy_window hb1 0 = accuracy
  /\ power_window hb1 0 = of_int 0
  /\ log hb1 0
     = {| beat := 0; tag := tag; timestamp := now;
          global_rate := of_int 0; window_rate := of_int 0;
          instant_rate := of_int 0;
          global_accuracy := accuracy; window_accuracy := accuracy;
          instant_accuracy := accuracy;
          global_power := of_int 0; window_power := of_int 0;
          instant_power := of_int 0 |}
  /\ hb_global_accuracy hb1 = (of_int 0 + accuracy)%dbl
  /\ @hb_global_accuracy exact hb1' = accuracy'
  /\ total_energy hb1 = of_int 0
  /\ counter (state hb1) = 1
  /\ current_index hb1 = 0
  /\ steady_state hb1 = false.
Proof. cbn. repeat split. apply Rplus_0_l. Qed.

(** C8.  [heartbeat_acc] returns the timestamp it captured whatever the
    backend returned, and stores that value divided by [1000000] as
    [last_energy].  This holds for the [-1] that [hb_energy_read_total_osp]
    returns when the device is not initialized: it becomes the energy
    [-1 / 1000000], and on a call that is not the first it is added to
    [total_energy] like any other reading. *)
Theorem backend_errors_not_propagated (hb : heartbeat_t) (tag : Z)
    (accuracy : double) (time_info : timespec) (reading : double)
    (st : osp_state) (last_hb_time curr_hb_time : Z) :
  let r := heartbeat_acc hb tag accuracy time_info reading in
  let failed := snd (hb_energy_read_total_osp st last_hb_time curr_hb_time) in
  let r' := heartbeat_acc hb tag accuracy time_info failed in
  snd r = timestamp_ns time_info
  /\ last_energy (fst r) = (reading / of_int 1000000)%dbl
  /\ (device st = false ->
      failed = of_int (-1)
      /\ snd r' = timestamp_ns time_info
      /\ last_energy (fst r') = (of_int (-1) / of_int 1000000)%dbl
      /\ (first_timestamp hb <> -1 ->
          total_energy (fst r')
          = (total_energy hb
             + (of_int (-1) / of_int 1000000 - last_energy hb))%dbl)).
Proof.
  cbn zeta.
  assert (Hret : forall x,
             snd (heartbeat_acc hb tag accuracy time_info x)
             = timestamp_ns time_info
             /\ last_energy (fst (heartbeat_acc hb tag accuracy time_info x))
                = (x / of_int 1000000)%dbl).
  { intros x. unfold heartbeat_acc.
    destruct (first_timestamp hb =? -1); [split; reflexivity |].
    destruct (hb_window_average_accuracy _ _ _ _) as [[[? ?] ?] ?]. cbn.
    destruct (Z.rem _ _ =? 0); cbn;
      [unfold hb_flush_buffer; destruct (text_file hb); cbn |];
      split; reflexivity. }
  split; [apply Hret | split; [apply Hret |]].
  intros Hdev. unfold hb_energy_read_total_osp. rewrite Hdev. cbn.
  split; [reflexivity | split; [apply Hret | split; [apply Hret |]]].
  intros Hnext.
  exact (next_total_energy hb
           {| c_tag := tag; c_accuracy := accuracy;
              c_time_info := time_info; c_reading := of_int (-1) |} Hnext).
Qed.


(** C9, at the failing input.  With [buffer_depth = 1], the call after the
    first one stores its record in slot [1], past the one slot of the
    log. *)
Theorem depth_one_log_overrun (m : heartbeat_t) (ws : Z)
    (ln : option String.string) (b1 b2 b3 b4 b5 b6 : double) (c : call) :
  timestamp_ns (c_time_info c) <> -1 ->
  let hb1 := beat_once (heartbeat_acc_pow_init m ws 1 ln b1 b2 b3 b4 b5 b6) c in
  buffer_depth (state hb1) = 1
  /\ log_write_index hb1 = 1
  /\ hb_log_index_ok hb1 = false.
Proof.
  intros Hclk. cbn zeta. unfold hb_log_index_ok, log_write_index.
  rewrite first_first_timestamp, first_state by reflexivity.
  apply Z.eqb_neq in Hclk. rewrite Hclk. cbn. repeat split.
Qed.

(** C2, at the failing input.  With [buffer_depth = 1] and a text log, the
    first call flushes nothing and leaves [buffer_index] at [1]; the second
    call flushes both records in one chunk, the second of them read from
    slot [1]. *)
Theorem depth_one_flush_skipped (m : heartbeat_t) (ws : Z)
    (ln : String.string) (b1 b2 b3 b4 b5 b6 : double) (c1 c2 : call) :
  timestamp_ns (c_time_info c1) <> -1 ->
  let hb0 := heartbeat_acc_pow_init m ws 1 (Some ln) b1 b2 b3 b4 b5 b6 in
  let hb1 := beat_once hb0 c1 in
  let hb2 := beat_once hb1 c2 in
  flush_count hb1 = 0%nat
  /\ buffer_index (state hb1) = 1
  /\ text_file hb2 = Some [[logged hb0 c1; logged hb1 c2]]
  /\ buffer_index (state hb2) = 0.
Proof.
  intros Hclk. cbn zeta.
  set (hb0 := heartbeat_acc_pow_init _ _ _ _ _ _ _ _ _ _).
  assert (H1 : first_timestamp (beat_once hb0 c1) <> -1)
    by now rewrite first_first_timestamp.
  rewrite (next_text_file _ c2 H1), (next_buffer_index _ c2 H1).
  unfold flush_count.
  rewrite !first_text_file, !first_state, beat_once_log by reflexivity.
  cbn. repeat split.
Qed.


(** *** The accuracy of the first heartbeat and the window *)

Lemma same_window_accuracy_step (hb hb' : heartbeat_t) (x x' : sample) :
  s_accuracy x = s_accuracy x' ->
  same_window_accuracy hb hb' ->
  same_window_accuracy (window_step hb x) (window_step hb' x').
Proof.
  intros Hx (Hws & Hft & Hst & Hci & Hla & Haw). unfold same_window_accuracy.
  rewrite !window_step_state, !window_step_steady_state,
    !window_step_current_index, !window_step_last_average_accuracy,
    !window_step_accuracy_window.
  rewrite <- Hws, <- Hst, <- Hci, <- Hx, <- Hla.
  unfold window_step, hb_window_average_accuracy. rewrite <- Hst.
  assert (Hall : forall i,
             store (accuracy_window hb) (current_index hb) (s_accuracy x) i
             = store (accuracy_window hb') (current_index hb) (s_accuracy x) i).
  { intros i. unfold store.
    destruct (Z.eqb_spec i (current_index hb)) as [E | E];
      [reflexivity |].
    destruct (Haw i) as [H | (H0 & H1 & _)]; [exact H | congruence]. }
  repeat split; try (destruct (negb (steady_state hb)); cbn; congruence).
  - destruct (steady_state hb) eqn:Est; cbn.
    + destruct (Haw (current_index hb)) as [H | (_ & _ & H)];
        [now rewrite H | discriminate].
    + f_equal. apply loop_sum_ext. intros i _. apply Hall.
  - intros i. left. destruct (negb (steady_state hb)); cbn; apply Hall.
Qed.

Lemma same_window_accuracy_beat (hb hb' : heartbeat_t) (c c' : call) :
  c_time_info c = c_time_info c' -> c_accuracy c = c_accuracy c' ->
  same_window_accuracy hb hb' ->
  same_window_accuracy (beat_once hb c) (beat_once hb' c')
  /\ window_accuracy (logged hb c) = window_accuracy (logged hb' c').
Proof.
  intros Ht Ha Hs. pose proof Hs as (Hws & Hft & Hst & Hci & Hla & Haw).
  destruct (Z.eq_dec (first_timestamp hb) (-1)) as [E | E].
  - assert (E' : first_timestamp hb' = -1) by congruence.
    rewrite !first_logged_window_accuracy by assumption.
    split; [| assumption]. unfold same_window_accuracy.
    rewrite !first_first_timestamp, !first_state, !first_steady_state,
      !first_current_index, !first_last_average_accuracy,
      !first_accuracy_window by assumption.
    cbn. rewrite Ht, Ha. repeat split; try assumption.
    intros i. unfold store. destruct (i =? 0) eqn:Ei; [now left |].
    destruct (Haw i) as [H | (H & _)]; [now left |].
    subst i. discriminate.
  - assert (E' : first_timestamp hb' <> -1) by congruence.
    rewrite !next_logged_window_accuracy by assumption.
    assert (Hstep : same_window_accuracy
                      (window_step hb (call_sample hb c))
                      (window_step hb' (call_sample hb' c')))
      by (apply same_window_accuracy_step; [exact Ha | exact Hs]).
    destruct Hstep as (Hws1 & _ & Hst1 & Hci1 & Hla1 & Haw1).
    split; [| assumption]. unfold same_window_accuracy.
    rewrite !next_window_size, !next_first_timestamp, !next_steady_state,
      !next_current_index, !next_last_average_accuracy,
      !next_accuracy_window by assumption.
    rewrite !window_step_state in Hws1.
    repeat split; assumption.
Qed.

Lemma same_window_accuracy_records (cs : list call) :
  forall hb hb' : heartbeat_t,
    same_window_accuracy hb hb' ->
    map window_accuracy (records hb cs)
    = map window_accuracy (records hb' cs).
Proof.
  induction cs as [| c cs IH]; intros hb hb' Hs; cbn; [reflexivity |].
  destruct (same_window_accuracy_beat hb hb' c c eq_refl eq_refl Hs)
    as (Hs' & Hr).
  now rewrite Hr, (IH _ _ Hs').
Qed.

(** C10.  The first heartbeat leaves [current_index] at [0] and seeds slot
    [0] of the three windows; the second heartbeat overwrites that slot with
    its own sample; and the window accuracies logged by the calls after the
    first are the same whatever accuracy the first call was given. *)
Theorem first_accuracy_leaves_window (m : heartbeat_t) (ws bd : Z)
    (ln : option String.string) (b1 b2 b3 b4 b5 b6 : double)
    (c1 c2 : call) (other : double) (cs : list call) :
  timestamp_ns (c_time_info c1) <> -1 ->
  let hb0 := heartbeat_acc_pow_init m ws bd ln b1 b2 b3 b4 b5 b6 in
  let hb1 := beat_once hb0 c1 in
  let hb2 := beat_once hb1 c2 in
  let c1' :=
    {| c_tag := c_tag c1; c_accuracy := other;
       c_time_info := c_time_info c1; c_reading := c_reading c1 |} in
  (current_index hb1 = 0
   /\ window hb1 0 = 0
   /\ accuracy_window hb1 0 = c_accuracy c1
   /\ power_window hb1 0 = of_int 0)
  /\ (window hb2 0
      = timestamp_ns (c_time_info c2) - timestamp_ns (c_time_info c1)
      /\ accuracy_window hb2 0 = c_accuracy c2
      /\ power_window hb2 0
         = (c_reading c2 / of_int 1000000
            - c_reading c1 / of_int 1000000)%dbl)
  /\ map window_accuracy (records hb1 cs)
     = map window_accuracy (records (beat_once hb0 c1') cs).
Proof.
  intros Hclk. cbn zeta.
  set (hb0 := heartbeat_acc_pow_init _ _ _ _ _ _ _ _ _ _).
  assert (H0 : first_timestamp hb0 = -1) by reflexivity.
  assert (H1 : first_timestamp (beat_once hb0 c1) <> -1)
    by now rewrite first_first_timestamp.
  split; [| split].
  - rewrite first_current_index, first_window, first_accuracy_window,
      first_power_window by assumption.
    repeat split.
  - rewrite (next_window _ c2 H1), (next_accuracy_window _ c2 H1),
      (next_power_window _ c2 H1).
    rewrite window_step_window, window_step_accuracy_window,
      window_step_power_window.
    rewrite first_current_index by assumption.
    change (current_index hb0) with 0. rewrite !store_same.
    unfold call_sample. cbn [s_time s_accuracy s_energy].
    rewrite first_last_timestamp, first_last_energy by assumption.
    repeat split.
  - apply same_window_accuracy_records. unfold same_window_accuracy.
    rewrite !first_first_timestamp, !first_state, !first_steady_state,
      !first_current_index, !first_last_average_accuracy,
      !first_accuracy_window by assumption.
    cbn. repeat split.
    intros i. unfold store. destruct (Z.eqb_spec i 0) as [E | E];
      [right; repeat split; assumption | now left].
Qed.


(** *** The global rate *)

Lemma started_run (cs : list call) :
  forall hb : heartbeat_t,
    first_timestamp hb <> -1 ->
    first_timestamp (run hb cs) = first_timestamp hb
    /\ counter (state (run hb cs))
       = counter (state hb) + Z.of_nat (length cs).
Proof.
  induction cs as [| c cs IH]; intros hb Hft.
  - cbn. split; [reflexivity | lia].
  - change (run hb (c :: cs)) with (run (beat_once hb c) cs).
    destruct (IH (beat_once hb c)) as (H1 & H2);
      [now rewrite next_first_timestamp |].
    rewrite H1, H2, next_first_timestamp, next_counter by assumption.
    cbn [length]. split; [reflexivity | lia].
Qed.

(** What a run leaves in [first_timestamp] and [counter], and the global
    rate the next call computes from them. *)
Lemma global_rate_formula (m : heartbeat_t) (ws bd : Z)
    (ln : option String.string) (b1 b2 b3 b4 b5 b6 : double)
    (c0 : call) (cs : list call) (c : call) :
  timestamp_ns (c_time_info c0) <> -1 ->
  let hb := run (heartbeat_acc_pow_init m ws bd ln b1 b2 b3 b4 b5 b6)
              (c0 :: cs) in
  first_timestamp hb = timestamp_ns (c_time_info c0)
  /\ counter (state hb) = Z.of_nat (length cs) + 1
  /\ global_rate (logged hb c)
     = ((of_int (counter (state hb)) + of_int 1)
        / of_int (timestamp_ns (c_time_info c) - first_timestamp hb)
        * of_int 1000000000)%dbl.
Proof.
  intros Hclk hb. subst hb.
  set (hb0 := heartbeat_acc_pow_init _ _ _ _ _ _ _ _ _ _).
  change (run hb0 (c0 :: cs)) with (run (beat_once hb0 c0) cs).
  assert (H1 : first_timestamp (beat_once hb0 c0) <> -1)
    by now rewrite first_first_timestamp.
  destruct (started_run cs _ H1) as (Hft & Hc).
  rewrite first_first_timestamp in Hft by reflexivity.
  rewrite first_state in Hc by reflexivity.
  cbn [with_counters counter state hb0 heartbeat_acc_pow_init] in Hc.
  split; [assumption | split; [lia |]].
  apply next_logged_global_rate. rewrite Hft. assumption.
Qed.

(** In every arithmetic, binary64 included, the global rate logged by a
    call that is not the first is [(counter + 1) / (now - first_timestamp)
    * 1e9], where [counter] is the number of earlier calls and
    [first_timestamp] the time of the first. *)
Theorem global_rate_after (m : heartbeat_t) (ws bd : Z)
    (ln : option String.string) (b1 b2 b3 b4 b5 b6 : double)
    (c0 : call) (cs : list call) (c : call) :
  timestamp_ns (c_time_info c0) <> -1 ->
  let hb := run (heartbeat_acc_pow_init m ws bd ln b1 b2 b3 b4 b5 b6)
              (c0 :: cs) in
  first_timestamp hb = timestamp_ns (c_time_info c0)
  /\ counter (state hb) = Z.of_nat (length cs) + 1
  /\ global_rate (logged hb c)
     = ((of_int (counter (state hb)) + of_int 1)
        / of_int (timestamp_ns (c_time_info c) - first_timestamp hb)
        * of_int 1000000000)%dbl.
Proof.
  exact (global_rate_formula m ws bd ln b1 b2 b3 b4 b5 b6 c0 cs c).
Qed.

End EngineFacts.

Section ExactFacts.

Local Open Scope R_scope.

(** C6.  In exact arithmetic, with heartbeats at [t0, t0 + g, t0 + 2 g, ...]
    nanoseconds, the global rate logged by heartbeat [N >= 2] is
    [(counter + 1) / (now - first_timestamp) * 1e9], which is
    [N / ((N - 1) * (g / 1e9))]. *)
Theorem global_rate_constant_gap (m : @heartbeat_t exact) (ws bd : Z)
    (ln : option String.string) (b1 b2 b3 b4 b5 b6 : R)
    (c0 : @call exact) (cs : list (@call exact)) (c : @call exact)
    (t0 g : Z) :
  (t0 <> -1)%Z -> (0 < g)%Z ->
  (forall i ci, nth_error (c0 :: cs ++ [c]) i = Some ci ->
                timestamp_ns (c_time_info ci) = (t0 + Z.of_nat i * g)%Z) ->
  let N := (Z.of_nat (length cs) + 2)%Z in
  let hb := run (heartbeat_acc_pow_init m ws bd ln b1 b2 b3 b4 b5 b6)
              (c0 :: cs) in
  global_rate (logged hb c)
  = (IZR (counter (state hb)) + 1)
    / IZR (timestamp_ns (c_time_info c) - first_timestamp hb) * 1000000000
  /\ global_rate (logged hb c) = IZR N / (IZR (N - 1) * (IZR g / 1000000000)).
Proof.
  intros Ht0 Hg Hgap N hb.
  assert (H0 : timestamp_ns (c_time_info c0) = t0).
  { rewrite (Hgap 0%nat c0 eq_refl). cbn. lia. }
  assert (Hc : timestamp_ns (c_time_info c) = (t0 + (N - 1) * g)%Z).
  { rewrite (Hgap (S (length cs)) c).
    - subst N. f_equal. f_equal. lia.
    - cbn. rewrite nth_error_app2, Nat.sub_diag by lia. reflexivity. }
  destruct (global_rate_formula m ws bd ln b1 b2 b3 b4 b5 b6 c0 cs c)
    as (Hft & Hcnt & Hrate); [rewrite H0; exact Ht0 |].
  fold hb in Hft, Hcnt, Hrate.
  split; [exact Hrate |]. rewrite Hrate, Hft, Hcnt, H0, Hc.
  cbn [double dadd ddiv dmul of_int exact].
  replace (t0 + (N - 1) * g - t0)%Z with ((N - 1) * g)%Z by lia.
  replace (Z.of_nat (length cs) + 1)%Z with (N - 1)%Z by (subst N; lia).
  rewrite mult_IZR, minus_IZR.
  assert (IZR N - 1 <> 0).
  { assert (2 <= IZR N) by (apply IZR_le; subst N; lia). lra. }
  assert (IZR g <> 0).
  { assert (0 < IZR g) by (apply IZR_lt; lia). lra. }
  field. split; assumption.
Qed.

End ExactFacts.

Section PollingFacts.

Context {A : Arith}.

Lemma osp_step_device (st : osp_state) (e : osp_event) :
  device (osp_step st e) = device st.
Proof.
  destruct e as [w | l c]; cbn; [reflexivity |].
  unfold hb_energy_read_total_osp.
  destruct (device st) eqn:E; cbn; congruence.
Qed.

Lemma osp_run_device (es : list osp_event) :
  forall st : osp_state, device (osp_run st es) = device st.
Proof.
  induction es as [| e es IH]; intros st; [reflexivity |].
  change (osp_run st (e :: es)) with (osp_run (osp_step st e) es).
  now rewrite IH, osp_step_device.
Qed.

Lemma osp_power_used_positive (st : osp_state) :
  dpositive (osp_hb_pwr_avg_last st) = true ->
  dpositive (osp_power_used st) = true.
Proof.
  intros H. unfold osp_power_used.
  now destruct (dpositive (osp_hb_pwr_avg st)) eqn:E.
Qed.

Lemma osp_step_last_positive (st : osp_state) (e : osp_event) :
  dpositive (osp_hb_pwr_avg_last st) = true ->
  dpositive (osp_hb_pwr_avg_last (osp_step st e)) = true.
Proof.
  intros H. destruct e as [w | l c]; cbn; [assumption |].
  unfold hb_energy_read_total_osp. destruct (device st); cbn;
    [now apply osp_power_used_positive | assumption].
Qed.

Lemma osp_run_last_positive (es : list osp_event) :
  forall st : osp_state,
    dpositive (osp_hb_pwr_avg_last st) = true ->
    dpositive (osp_hb_pwr_avg_last (osp_run st es)) = true.
Proof.
  induction es as [| e es IH]; intros st H; [assumption |].
  change (osp_run st (e :: es)) with (osp_run (osp_step st e) es).
  apply IH. now apply osp_step_last_positive.
Qed.

(** C7, as amended.  A call of [hb_energy_read_total_osp] records the
    running average it finds as [osp_hb_pwr_avg_last] when that average is
    positive and keeps the one it had otherwise, adds the recorded power
    times the interval to the total it returns, and resets the sample count
    and the running average to [0].  A second call with no sample in
    between therefore keeps [osp_hb_pwr_avg_last] and adds that power times
    its interval.  Once a call has found a positive average, or
    [osp_hb_pwr_avg_last] is positive, the power every later call converts
    to energy is positive, whatever samples and calls follow. *)
Theorem polling_carry_forward (st : osp_state) (es : list osp_event)
    (l1 c1 l2 c2 : Z) :
  device st = true ->
  let st0 := osp_run st es in
  let r1 := hb_energy_read_total_osp st0 l1 c1 in
  let st1 := fst r1 in
  let r2 := hb_energy_read_total_osp st1 l2 c2 in
  osp_hb_pwr_avg_last st1
  = (if dpositive (osp_hb_pwr_avg st0) then osp_hb_pwr_avg st0
     else osp_hb_pwr_avg_last st0)
  /\ snd r1
     = (osp_total_energy st0
        + osp_hb_pwr_avg_last st1
          * diff_sec (if l1 <? 0 then osp_start_time st0 else l1) c1)%dbl
  /\ osp_total_energy st1 = snd r1
  /\ (osp_hb_pwr_avg_count st1 = 0 /\ osp_hb_pwr_avg st1 = of_int 0)
  /\ osp_power_used st1 = osp_hb_pwr_avg_last st1
  /\ osp_hb_pwr_avg_last (fst r2) = osp_hb_pwr_avg_last st1
  /\ snd r2
     = (osp_total_energy st1
        + osp_hb_pwr_avg_last st1
          * diff_sec (if l2 <? 0 then osp_start_time st1 else l2) c2)%dbl
  /\ (dpositive (osp_hb_pwr_avg_last st1) = true ->
      forall es',
        dpositive (osp_power_used (osp_run st1 es')) = true)
  /\ (dpositive (osp_hb_pwr_avg st0) = true ->
      osp_hb_pwr_avg_last st1 = osp_hb_pwr_avg st0
      /\ forall es',
           dpositive (osp_power_used (osp_run st1 es')) = true).
Proof.
  intros Hdev st0 r1 st1 r2.
  assert (Hdev0 : device st0 = true)
    by (subst st0; now rewrite osp_run_device).
  assert (Hr1 : r1
                = ({| device := device st0;
                      osp_start_time := osp_start_time st0;
                      osp_total_energy :=
                        (osp_total_energy st0
                         + osp_power_used st0
                           * diff_sec
                               (if l1 <? 0 then osp_start_time st0 else l1)
                               c1)%dbl;
                      osp_hb_pwr_avg := of_int 0;
                      osp_hb_pwr_avg_last := osp_power_used st0;
                      osp_hb_pwr_avg_count := 0 |},
                   (osp_total_energy st0
                    + osp_power_used st0
                      * diff_sec
                          (if l1 <? 0 then osp_start_time st0 else l1)
                          c1)%dbl)).
  { subst r1. unfold hb_energy_read_total_osp. now rewrite Hdev0. }
  assert (Hlast : osp_hb_pwr_avg_last st1 = osp_power_used st0)
    by (subst st1; now rewrite Hr1).
  assert (Hd : device st1 = true) by (subst st1; now rewrite Hr1).
  assert (Hcnt : osp_hb_pwr_avg_count st1 = 0)
    by (subst st1; now rewrite Hr1).
  assert (Havg : osp_hb_pwr_avg st1 = of_int 0)
    by (subst st1; now rewrite Hr1).
  assert (Hused : osp_power_used st1 = osp_hb_pwr_avg_last st1).
  { unfold osp_power_used. now rewrite Havg, zero_not_positive. }
  assert (Hkeep : dpositive (osp_hb_pwr_avg_last st1) = true ->
                  forall es',
                    dpositive (osp_power_used (osp_run st1 es')) = true).
  { intros Hpos es'. apply osp_power_used_positive.
    now apply osp_run_last_positive. }
  split; [rewrite Hlast; reflexivity |].
  split; [rewrite Hlast, Hr1; reflexivity |].
  split; [subst st1; rewrite Hr1; reflexivity |].
  split; [now split |].
  split; [exact Hused |].
  subst r2. unfold hb_energy_read_total_osp at 1 2. rewrite Hd.
  cbn [negb fst snd osp_hb_pwr_avg_last osp_total_energy]. rewrite Hused.
  split; [reflexivity | split; [reflexivity |]].
  split; [exact Hkeep |].
  intros Hpos.
  assert (E : osp_hb_pwr_avg_last st1 = osp_hb_pwr_avg st0).
  { rewrite Hlast. unfold osp_power_used. now rewrite Hpos. }
  split; [exact E |]. apply Hkeep. now rewrite E.
Qed.

End PollingFacts.

(** ** Ring buffers *)

Lemma sub_mod_self (n d : Z) : 0 < d -> (n - n mod d) mod d = 0.
Proof.
  intros Hd. pose proof (Z.div_mod n d ltac:(lia)) as He.
  replace (n - n mod d) with (n / d * d) by lia. apply Z.mod_mul. lia.
Qed.

Lemma mod_sub_zero (n j d : Z) :
  0 <= j < d -> (n - j) mod d = 0 -> n mod d = j.
Proof.
  intros Hj H. pose proof (Z.div_mod (n - j) d ltac:(lia)) as He.
  symmetry. apply (Z.mod_unique _ _ ((n - j) / d)); lia.
Qed.

Section Ring.

Context {V : Type}.

Lemma ring_holds_nil (ws : Z) (a : array V) : ring_holds ws [] a.
Proof. intros j Hj. cbn in Hj. lia. Qed.

Lemma ring_holds_store (ws : Z) (vs : list V) (a : array V) (x : V) :
  1 <= ws -> ring_holds ws vs a ->
  ring_holds ws (vs ++ [x]) (store a (Z.of_nat (length vs) mod ws) x).
Proof.
  intros Hws H j. rewrite length_app. cbn [length].
  replace (Z.of_nat (length vs + 1)) with (Z.of_nat (length vs) + 1) by lia.
  set (n := Z.of_nat (length vs)) in *. intros Hj.
  replace (n + 1 - 1) with n by lia.
  pose proof (Z.mod_pos_bound n ws ltac:(lia)) as Hb.
  pose proof (Z.mod_pos_bound (n - 1 - j) ws ltac:(lia)) as Hb'.
  unfold store. destruct (Z.eqb_spec j (n mod ws)) as [E | E].
  - rewrite E, sub_mod_self, Z.sub_0_r by lia.
    rewrite nth_error_app2 by lia.
    replace (Z.to_nat n - length vs)%nat with 0%nat by lia. reflexivity.
  - assert (Hstep : (n - j) mod ws = (n - 1 - j) mod ws + 1).
    { replace (n - j) with (n - 1 - j + 1) by lia.
      rewrite succ_mod by lia.
      destruct (Z.eqb_spec ((n - 1 - j) mod ws + 1) ws) as [E' | E'];
        [| reflexivity].
      exfalso. apply E. symmetry. apply mod_sub_zero; [lia |].
      replace (n - j) with (n - 1 - j + 1) by lia.
      rewrite succ_mod by lia. apply Z.eqb_eq in E'. now rewrite E'. }
    assert (Hjn : j < Z.min n ws).
    { destruct (Z.lt_ge_cases n ws) as [L | L]; [| lia].
      rewrite Z.mod_small in E by lia. lia. }
    rewrite Hstep.
    replace (n - ((n - 1 - j) mod ws + 1)) with (n - 1 - (n - 1 - j) mod ws)
      by lia.
    rewrite nth_error_app1.
    + apply H. fold n. lia.
    + assert ((n - 1 - j) mod ws <= n - 1 - j)
        by (apply Z.mod_le; lia).
      lia.
Qed.

Lemma ring_holds_warm (ws : Z) (vs : list V) (a : array V) (j : nat) :
  Z.of_nat (length vs) <= ws -> ring_holds ws vs a ->
  (j < length vs)%nat -> nth_error vs j = Some (a (Z.of_nat j)).
Proof.
  intros Hn H Hj. rewrite <- (H (Z.of_nat j)) by lia.
  rewrite Z.mod_small by lia. f_equal. lia.
Qed.

Lemma ring_holds_oldest (ws : Z) (vs : list V) (a : array V) :
  1 <= ws -> ws <= Z.of_nat (length vs) -> ring_holds ws vs a ->
  nth_error vs (length vs - Z.to_nat ws)
  = Some (a (Z.of_nat (length vs) mod ws)).
Proof.
  intros Hws Hn H. set (n := Z.of_nat (length vs)) in *.
  pose proof (Z.mod_pos_bound n ws ltac:(lia)) as Hb.
  rewrite <- (H (n mod ws)) by (fold n; lia). fold n.
  assert (E : (n - 1 - n mod ws) mod ws = ws - 1).
  { pose proof (Z.div_mod n ws ltac:(lia)) as He.
    symmetry. apply (Z.mod_unique _ _ (n / ws - 1)); lia. }
  rewrite E. f_equal. lia.
Qed.

End Ring.

Lemma ring_map_oldest {U V : Type} (f : U -> V) (ws : Z) (xs : list U)
    (a : array V) :
  1 <= ws -> ws <= Z.of_nat (length xs) -> ring_holds ws (map f xs) a ->
  nth_error (map f xs) (length xs - Z.to_nat ws)
  = Some (a (Z.of_nat (length xs) mod ws)).
Proof.
  intros Hws Hn H. rewrite <- (length_map f xs).
  apply ring_holds_oldest; rewrite ?length_map; assumption.
Qed.

Lemma ring_map_warm {U V : Type} (f : U -> V) (ws : Z) (xs : list U)
    (a : array V) (j : nat) :
  Z.of_nat (length xs) <= ws -> ring_holds ws (map f xs) a ->
  (j < length xs)%nat -> nth_error (map f xs) j = Some (a (Z.of_nat j)).
Proof.
  intros Hn H Hj.
  apply (ring_holds_warm ws); rewrite ?length_map; assumption.
Qed.

Section TrailingFacts.

Context {V : Type}.

Lemma trailing_all (n : Z) (l : list V) :
  Z.of_nat (length l) <= n -> trailing n l = l.
Proof.
  intros H. unfold trailing.
  replace (length l - Z.to_nat n)%nat with 0%nat by lia. reflexivity.
Qed.

Lemma trailing_length (n : Z) (l : list V) :
  0 <= n <= Z.of_nat (length l) -> length (trailing n l) = Z.to_nat n.
Proof. intros H. unfold trailing. rewrite length_skipn. lia. Qed.

Lemma skipn_nth_error (l : list V) :
  forall (k : nat) (v : V),
    nth_error l k = Some v -> skipn k l = v :: skipn (S k) l.
Proof.
  induction l as [| a l IH]; intros [| k] v H; cbn in *; try discriminate.
  - now inversion H.
  - now apply IH.
Qed.

(** A full window moves on by dropping its oldest value and taking the
    new one. *)
Lemma trailing_slide (ws : Z) (l : list V) (old x : V) :
  1 <= ws <= Z.of_nat (length l) ->
  nth_error l (length l - Z.to_nat ws) = Some old ->
  exists rest,
    trailing ws l = old :: rest /\ trailing ws (l ++ [x]) = rest ++ [x].
Proof.
  intros Hws Hold. exists (skipn (S (length l - Z.to_nat ws)) l).
  unfold trailing. split; [now apply skipn_nth_error |].
  rewrite length_app. cbn [length].
  replace (length l + 1 - Z.to_nat ws)%nat
    with (S (length l - Z.to_nat ws)) by lia.
  rewrite skipn_app.
  replace (S (length l - Z.to_nat ws) - length l)%nat with 0%nat by lia.
  reflexivity.
Qed.

End TrailingFacts.

Section WindowFacts.

Context {A : Arith}.

Lemma loop_sum_list (f : array double) (l : list double) :
  (forall j, (j < length l)%nat -> nth_error l j = Some (f (Z.of_nat j))) ->
  loop_sum f (length l) = fold_left dadd l (of_int 0).
Proof.
  induction l as [| y l IH] using rev_ind; intros H; [reflexivity |].
  rewrite length_app, Nat.add_comm, fold_left_app. cbn [length Nat.add].
  cbn [loop_sum fold_left]. rewrite IH.
  - f_equal. specialize (H (length l)). rewrite length_app in H.
    cbn [length] in H. rewrite nth_error_app2, Nat.sub_diag in H by lia.
    cbn in H. assert (E : Some y = Some (f (Z.of_nat (length l))))
      by (apply H; lia).
    now inversion E.
  - intros j Hj. rewrite <- H by (rewrite length_app; cbn; lia).
    now rewrite nth_error_app1.
Qed.

Lemma window_holds_step (ws : Z) (xs : list sample) (hb : heartbeat_t)
    (x : sample) :
  1 <= ws -> window_holds ws xs hb ->
  window_holds ws (xs ++ [x]) (window_step hb x).
Proof.
  intros Hws (Hsz & Hst & Hci & Hw & Ha & Hp). unfold window_holds.
  rewrite window_step_state, window_step_steady_state,
    window_step_current_index, window_step_window,
    window_step_accuracy_window, window_step_power_window.
  rewrite Hsz, Hst, Hci, length_app. cbn [length].
  replace (Z.of_nat (length xs + 1)) with (Z.of_nat (length xs) + 1) by lia.
  set (n := Z.of_nat (length xs)) in *.
  pose proof (Z.mod_pos_bound n ws ltac:(lia)) as Hb.
  split; [reflexivity | split; [| split; [| split; [| split]]]].
  - destruct (Z.leb_spec ws n) as [L | L]; cbn.
    + symmetry. apply Z.leb_le. lia.
    + rewrite Z.mod_small by lia.
      destruct (Z.eqb_spec (n + 1) ws) as [E | E]; symmetry;
        [apply Z.leb_le | apply Z.leb_gt]; lia.
  - symmetry. apply succ_mod; lia.
  - unfold n. rewrite <- (length_map s_time xs), map_app.
    now apply ring_holds_store.
  - unfold n, accuracies. rewrite <- (length_map s_accuracy xs), map_app.
    now apply ring_holds_store.
  - unfold n, energies. rewrite <- (length_map s_energy xs), map_app.
    now apply ring_holds_store.
Qed.

Lemma window_holds_run (ws : Z) (xs : list sample) (hb : heartbeat_t) :
  1 <= ws ->
  window_size (state hb) = ws -> current_index hb = 0 ->
  steady_state hb = false ->
  window_holds ws xs (window_run hb xs).
Proof.
  intros Hws Hsz Hci Hst. induction xs as [| x xs IH] using rev_ind.
  - cbn. unfold window_holds. cbn [length Z.of_nat].
    rewrite Z.mod_0_l by lia.
    repeat split; try assumption; try apply ring_holds_nil.
    rewrite Hst. symmetry. apply Z.leb_gt. lia.
  - unfold window_run. rewrite fold_left_app. cbn [fold_left].
    now apply window_holds_step.
Qed.

End WindowFacts.

Section WindowAggregates.

Context {A : Arith}.

Variables (hb : heartbeat_t) (x : sample).


Lemma window_step_steady_aggregates :
  steady_state hb = true ->
  last_average_time (window_step hb x)
  = (last_average_time hb
     - of_int (window hb (current_index hb)) / of_int (window_size (state hb))
     + of_int (s_time x) / of_int (window_size (state hb)))%dbl
  /\ last_average_accuracy (window_step hb x)
     = (last_average_accuracy hb
        - accuracy_window hb (current_index hb)
          / of_int (window_size (state hb))
        + s_accuracy x / of_int (window_size (state hb)))%dbl
  /\ last_window_time (window_step hb x)
     = (last_window_time hb - of_int (window hb (current_index hb))
        + of_int (s_time x))%dbl
  /\ last_window_energy (window_step hb x)
     = (last_window_energy hb - power_window hb (current_index hb)
        + s_energy x)%dbl.
Proof.
  intros H. unfold window_step, hb_window_average_accuracy. rewrite H.
  cbn. repeat split.
Qed.

Lemma window_step_warm_aggregates :
  steady_state hb = false ->
  last_average_time (window_step hb x)
  = (loop_sum (fun i => of_int (window (window_step hb x) i))
       (Z.to_nat (current_index hb + 1))
     / (of_int (current_index hb) + of_int 1))%dbl
  /\ last_average_accuracy (window_step hb x)
     = (loop_sum (accuracy_window (window_step hb x))
          (Z.to_nat (current_index hb + 1))
        / (of_int (current_index hb) + of_int 1))%dbl
  /\ last_window_time (window_step hb x)
     = loop_sum (fun i => of_int (window (window_step hb x) i))
         (Z.to_nat (current_index hb + 1))
  /\ last_window_energy (window_step hb x)
     = loop_sum (power_window (window_step hb x))
         (Z.to_nat (current_index hb + 1)).
Proof.
  intros H. unfold window_step, hb_window_average_accuracy. rewrite H.
  cbn. repeat split.
Qed.

End WindowAggregates.

Section ExactWindow.

Local Open Scope R_scope.

Ltac exact_arith :=
  cbn [double of_int dadd dsub dmul ddiv to_float exact] in *.

Lemma fold_Rplus_shift (l : list R) :
  forall a : R, fold_left Rplus l a = a + fold_left Rplus l 0.
Proof.
  induction l as [| y l IH]; intros a; cbn; [lra |].
  rewrite (IH (a + y)), (IH (0 + y)). lra.
Qed.

Lemma slide_sum (ws : Z) (l : list R) (old x : R) :
  (1 <= ws <= Z.of_nat (length l))%Z ->
  nth_error l (length l - Z.to_nat ws) = Some old ->
  fold_left Rplus (trailing ws (l ++ [x])) 0
  = fold_left Rplus (trailing ws l) 0 - old + x
  /\ @brute_force_average exact (trailing ws (l ++ [x]))
     = @brute_force_average exact (trailing ws l) - old / IZR ws + x / IZR ws.
Proof.
  intros Hws Hold.
  destruct (trailing_slide ws l old x Hws Hold) as (rest & E1 & E2).
  assert (Hsum : fold_left Rplus (trailing ws (l ++ [x])) 0
                 = fold_left Rplus (trailing ws l) 0 - old + x).
  { rewrite E1, E2, fold_left_app. cbn [fold_left].
    rewrite (fold_Rplus_shift rest (0 + old)). lra. }
  split; [exact Hsum |].
  unfold brute_force_average. exact_arith. rewrite Hsum.
  rewrite !trailing_length by (rewrite ?length_app; cbn [length]; lia).
  rewrite Z2Nat.id by lia.
  assert (IZR ws <> 0) by (apply not_0_IZR; lia).
  field. assumption.
Qed.

Lemma warm_sum (ws : Z) (l : list R) (f : array R) :
  (Z.of_nat (length l) <= ws)%Z -> l <> [] ->
  (forall j, (j < length l)%nat -> nth_error l j = Some (f (Z.of_nat j))) ->
  @loop_sum exact f (length l) = fold_left Rplus (trailing ws l) 0
  /\ @loop_sum exact f (length l) / (IZR (Z.of_nat (length l) - 1) + 1)
     = @brute_force_average exact (trailing ws l).
Proof.
  intros Hn Hne Hf. rewrite trailing_all by assumption.
  pose proof (@loop_sum_list exact f l Hf) as E. exact_arith. rewrite E.
  split; [reflexivity |].
  unfold brute_force_average. exact_arith. rewrite minus_IZR.
  f_equal. lra.
Qed.


Lemma times_nth (xs : list (@sample exact)) (k : nat) (t : Z) :
  nth_error (map s_time xs) k = Some t ->
  nth_error (@times exact xs) k = Some (IZR t).
Proof.
  intros H. unfold times. rewrite <- (map_map s_time IZR).
  now apply map_nth_error.
Qed.

Lemma window_statistics_step (ws : Z) (xs : list (@sample exact))
    (hb : @heartbeat_t exact) (x : @sample exact) :
  (1 <= ws)%Z -> window_holds ws xs hb ->
  (xs <> [] -> window_statistics ws xs hb) ->
  window_statistics ws (xs ++ [x]) (window_step hb x).
Proof.
  intros Hws Hwin Hstat.
  pose proof (window_holds_step ws xs hb x Hws Hwin) as Hwin'.
  destruct Hwin as (Hsz & Hst & Hci & Hw & Ha & Hp).
  destruct Hwin' as (_ & _ & _ & Hw' & Ha' & Hp').
  set (n := Z.of_nat (length xs)) in *.
  unfold window_statistics, times, accuracies, energies.
  rewrite !map_app. cbn [map].
  fold (times xs) (accuracies xs) (energies xs).
  destruct (Z.leb_spec ws n) as [L | L].
  - (* a full window: the incremental update *)
    assert (Hne : xs <> []) by (intros ->; cbn in n; lia).
    destruct (Hstat Hne) as (S1 & S2 & S3 & S4).
    destruct (window_step_steady_aggregates hb x Hst) as (E1 & E2 & E3 & E4).
    rewrite E1, E2, E3, E4, S1, S2, S3, S4, Hsz, Hci. exact_arith.
    assert (Ot : nth_error (times xs) (length (times xs) - Z.to_nat ws)
                 = Some (IZR (window hb (n mod ws)))).
    { unfold times at 2. rewrite length_map. apply times_nth.
      now apply ring_map_oldest. }
    assert (Oa : nth_error (accuracies xs)
                   (length (accuracies xs) - Z.to_nat ws)
                 = Some (accuracy_window hb (n mod ws))).
    { unfold accuracies at 2. rewrite length_map.
      now apply ring_map_oldest. }
    assert (Op : nth_error (energies xs)
                   (length (energies xs) - Z.to_nat ws)
                 = Some (power_window hb (n mod ws))).
    { unfold energies at 2. rewrite length_map.
      now apply ring_map_oldest. }
    assert (Lt : (1 <= ws <= Z.of_nat (length (times xs)))%Z)
      by (unfold times; rewrite length_map; fold n; lia).
    assert (La : (1 <= ws <= Z.of_nat (length (accuracies xs)))%Z)
      by (unfold accuracies; rewrite length_map; fold n; lia).
    assert (Lp : (1 <= ws <= Z.of_nat (length (energies xs)))%Z)
      by (unfold energies; rewrite length_map; fold n; lia).
    destruct (slide_sum ws (times xs) _ (IZR (s_time x)) Lt Ot) as (T1 & T2).
    destruct (slide_sum ws (accuracies xs) _ (s_accuracy x) La Oa)
      as (_ & A2).
    destruct (slide_sum ws (energies xs) _ (s_energy x) Lp Op) as (P1 & _).
    exact_arith. rewrite T1, T2, A2, P1. repeat split.
  - (* warm-up: the sums are recomputed *)
    destruct (window_step_warm_aggregates hb x Hst) as (E1 & E2 & E3 & E4).
    rewrite E1, E2, E3, E4, Hci. rewrite Z.mod_small by lia.
    replace (Z.to_nat (n + 1)) with (length (xs ++ [x]))
      by (rewrite length_app; cbn [length]; lia).
    assert (Hlen : (Z.of_nat (length (xs ++ [x])) <= ws)%Z)
      by (rewrite length_app; cbn [length]; lia).
    assert (Hn1 : (Z.of_nat (length (xs ++ [x])) - 1 = n)%Z)
      by (rewrite length_app; cbn [length]; lia).
    assert (Wt : forall j, (j < length (times (xs ++ [x])))%nat ->
                 nth_error (times (xs ++ [x])) j
                 = Some (IZR (window (window_step hb x) (Z.of_nat j)))).
    { intros j Hj. unfold times in Hj. rewrite length_map in Hj.
      apply times_nth. now apply (ring_map_warm _ ws). }
    assert (Wa : forall j, (j < length (accuracies (xs ++ [x])))%nat ->
                 nth_error (accuracies (xs ++ [x])) j
                 = Some (accuracy_window (window_step hb x) (Z.of_nat j))).
    { intros j Hj. unfold accuracies in Hj. rewrite length_map in Hj.
      now apply (ring_map_warm _ ws). }
    assert (Wp : forall j, (j < length (energies (xs ++ [x])))%nat ->
                 nth_error (energies (xs ++ [x])) j
                 = Some (power_window (window_step hb x) (Z.of_nat j))).
    { intros j Hj. unfold energies in Hj. rewrite length_map in Hj.
      now apply (ring_map_warm _ ws). }
    assert (Nt : times (xs ++ [x]) <> []) by (unfold times; now destruct xs).
    assert (Na : accuracies (xs ++ [x]) <> [])
      by (unfold accuracies; now destruct xs).
    assert (Np : energies (xs ++ [x]) <> [])
      by (unfold energies; now destruct xs).
    destruct (warm_sum ws (times (xs ++ [x]))
                (fun i => IZR (window (window_step hb x) i))
                ltac:(unfold times; rewrite length_map; exact Hlen) Nt Wt)
      as (T1 & T2).
    destruct (warm_sum ws (accuracies (xs ++ [x]))
                (accuracy_window (window_step hb x))
                ltac:(unfold accuracies; rewrite length_map; exact Hlen)
                Na Wa) as (_ & A2).
    destruct (warm_sum ws (energies (xs ++ [x]))
                (power_window (window_step hb x))
                ltac:(unfold energies; rewrite length_map; exact Hlen)
                Np Wp) as (P1 & _).
    unfold times, accuracies, energies in T1, T2, A2, P1.
    rewrite !length_map, ?Hn1 in T1, T2, A2, P1.
    rewrite !map_app in T1, T2, A2, P1. cbn [map] in T1, T2, A2, P1.
    fold (times xs) (accuracies xs) (energies xs) in T1, T2, A2, P1.
    exact_arith. rewrite <- T1, <- T2, <- A2, <- P1.
    repeat split; now rewrite Hn1.
Qed.

Lemma window_statistics_run (ws : Z) (hb : @heartbeat_t exact)
    (xs : list (@sample exact)) :
  (1 <= ws)%Z ->
  window_size (state hb) = ws -> current_index hb = 0%Z ->
  steady_state hb = false -> xs <> [] ->
  window_statistics ws xs (window_run hb xs).
Proof.
  intros Hws Hsz Hci Hst. induction xs as [| x xs IH] using rev_ind;
    intros Hne; [congruence |].
  unfold window_run. rewrite fold_left_app. cbn [fold_left].
  apply window_statistics_step; [assumption | | exact IH].
  now apply window_holds_run.
Qed.

(** C1, as amended.  In exact arithmetic, after the window helper took the
    samples [xs] (at least one) into an empty window, its time and accuracy
    averages are the brute-force averages of the trailing window: of all the
    samples while there are at most [window_size] of them, of exactly the
    last [window_size] afterwards. *)
Theorem window_average_is_brute_force (ws : Z) (hb : @heartbeat_t exact)
    (xs : list (@sample exact)) :
  (1 <= ws)%Z ->
  window_size (state hb) = ws -> current_index hb = 0%Z ->
  steady_state hb = false -> xs <> [] ->
  let n := Z.of_nat (length xs) in
  let hb' := window_run hb xs in
  last_average_time hb' = brute_force_average (trailing ws (times xs))
  /\ last_average_accuracy hb'
     = brute_force_average (trailing ws (accuracies xs))
  /\ ((n <= ws)%Z ->
      trailing ws (times xs) = times xs
      /\ trailing ws (accuracies xs) = accuracies xs)
  /\ ((ws < n)%Z ->
      Z.of_nat (length (trailing ws (times xs))) = ws
      /\ Z.of_nat (length (trailing ws (accuracies xs))) = ws).
Proof.
  intros Hws Hsz Hci Hst Hne n hb'.
  destruct (window_statistics_run ws hb xs Hws Hsz Hci Hst Hne)
    as (S1 & S2 & _ & _).
  split; [exact S1 | split; [exact S2 | split]].
  - intros Hn. split; apply trailing_all;
      unfold times, accuracies; rewrite length_map; exact Hn.
  - intros Hn. split; rewrite trailing_length;
      unfold times, accuracies; rewrite ?length_map; fold n; lia.
Qed.

End ExactWindow.

Section EngineWindow.

Context {A : Arith}.

Lemma window_step_part (hb hb' : heartbeat_t) (x : sample) :
  window_part hb = window_part hb' ->
  window_part (window_step hb x) = window_part (window_step hb' x).
Proof.
  unfold window_part. intros H.
  injection H as H1 H2 H3 H4 H5 H6 H7 H8 H9 H10.
  unfold window_step, hb_window_average_accuracy. rewrite H3.
  destruct (negb (steady_state hb')); cbn;
    rewrite ?H1, ?H2, ?H4, ?H5, ?H6, ?H7, ?H8, ?H9, ?H10; reflexivity.
Qed.

Lemma window_run_part (xs : list sample) :
  forall hb hb' : heartbeat_t,
    window_part hb = window_part hb' ->
    window_part (window_run hb xs) = window_part (window_run hb' xs).
Proof.
  induction xs as [| x xs IH]; intros hb hb' H; [exact H |].
  apply (IH (window_step hb x) (window_step hb' x)).
  now apply window_step_part.
Qed.

Lemma next_window_aggregates (hb : heartbeat_t) (c : call) :
  first_timestamp hb <> -1 ->
  (last_average_time (beat_once hb c), last_window_time (beat_once hb c),
   last_window_energy (beat_once hb c))
  = (last_average_time (window_step hb (call_sample hb c)),
     last_window_time (window_step hb (call_sample hb c)),
     last_window_energy (window_step hb (call_sample hb c))).
Proof.
  intros Hnext. unfold call_sample, beat_once, heartbeat_acc.
  rewrite <- !window_step_eq.
  apply Z.eqb_neq in Hnext. rewrite Hnext.
  destruct (hb_window_average_accuracy _ _ _ _) as [[[hbw ?] ?] ?]. cbn.
  destruct (Z.rem _ _ =? 0); cbn;
    [unfold hb_flush_buffer; destruct (text_file hb); cbn |]; reflexivity.
Qed.

Lemma beat_once_part (hb : heartbeat_t) (c : call) :
  first_timestamp hb <> -1 ->
  window_part (beat_once hb c)
  = window_part (window_step hb (call_sample hb c)).
Proof.
  intros Hnext. unfold window_part.
  pose proof (next_window_aggregates hb c Hnext) as H.
  injection H as H1 H2 H3.
  rewrite next_window_size, next_current_index, next_steady_state,
    next_window, next_accuracy_window, next_power_window,
    next_last_average_accuracy, window_step_state, H1, H2, H3 by assumption.
  reflexivity.
Qed.

(** The window of the engine is the window of the helper run on the
    samples of the calls. *)
Lemma run_part (cs : list call) :
  forall hb : heartbeat_t,
    first_timestamp hb <> -1 ->
    window_part (run hb cs) = window_part (window_run hb (run_samples hb cs)).
Proof.
  induction cs as [| c cs IH]; intros hb Hnext; [reflexivity |].
  change (run hb (c :: cs)) with (run (beat_once hb c) cs).
  cbn [run_samples].
  change (window_run hb (call_sample hb c :: ?xs))
    with (window_run (window_step hb (call_sample hb c)) xs).
  rewrite IH by now rewrite next_first_timestamp.
  apply window_run_part. now apply beat_once_part.
Qed.

Lemma run_samples_accuracies (cs : list call) :
  forall hb : heartbeat_t,
    accuracies (run_samples hb cs) = map c_accuracy cs.
Proof.
  induction cs as [| c cs IH]; intros hb; [reflexivity |].
  cbn [run_samples]. unfold accuracies in *. cbn [map]. now rewrite IH.
Qed.

Lemma run_samples_app (cs : list call) :
  forall (hb : heartbeat_t) (c : call),
    run_samples hb (cs ++ [c])
    = run_samples hb cs ++ [call_sample (run hb cs) c].
Proof.
  induction cs as [| c0 cs IH]; intros hb c; [reflexivity |].
  cbn [app run_samples]. now rewrite IH.
Qed.

End EngineWindow.

Section ExactEngine.

Local Open Scope R_scope.

(** The window accuracy on the engine.  In exact arithmetic, the window
    accuracy logged by a heartbeat that is not the first is the brute-force average of
    the accuracies of the heartbeats after the first: of all of them while they
    are at most [window_size], of the last [window_size] of them
    afterwards.  The accuracy of the first heartbeat is not among them. *)
Theorem logged_window_accuracy_is_brute_force (m : @heartbeat_t exact)
    (ws bd : Z) (ln : option String.string) (b1 b2 b3 b4 b5 b6 : R)
    (c0 : @call exact) (cs : list (@call exact)) (c : @call exact) :
  (1 <= ws)%Z -> timestamp_ns (c_time_info c0) <> (-1)%Z ->
  let hb0 := heartbeat_acc_pow_init m ws bd ln b1 b2 b3 b4 b5 b6 in
  window_accuracy (logged (run hb0 (c0 :: cs)) c)
  = brute_force_average (trailing ws (map c_accuracy (cs ++ [c]))).
Proof.
  intros Hws Hclk hb0.
  change (run hb0 (c0 :: cs)) with (run (beat_once hb0 c0) cs).
  set (hb1 := beat_once hb0 c0).
  assert (H1 : first_timestamp hb1 <> (-1)%Z)
    by (subst hb1; now rewrite first_first_timestamp).
  assert (Hn : first_timestamp (run hb1 cs) <> (-1)%Z)
    by (destruct (started_run cs hb1 H1) as (E & _); now rewrite E).
  rewrite next_logged_window_accuracy by assumption.
  pose proof (window_step_part _ _ (call_sample (run hb1 cs) c)
                (run_part cs hb1 H1)) as Hp.
  unfold window_part in Hp. injection Hp as _ _ _ _ _ _ _ Ha _ _.
  rewrite Ha.
  change (window_step (window_run hb1 ?xs) ?x)
    with (fold_left window_step [x] (window_run hb1 xs)).
  unfold window_run. rewrite <- fold_left_app. fold (window_run hb1).
  rewrite <- run_samples_app, <- (run_samples_accuracies (cs ++ [c]) hb1).
  refine (proj1 (proj2 (window_statistics_run ws hb1 _ Hws _ _ _ _))).
  - subst hb1. now rewrite first_state.
  - subst hb1. now rewrite first_current_index.
  - subst hb1. now rewrite first_steady_state.
  - rewrite run_samples_app. now destruct (run_samples hb1 cs).
Qed.

End ExactEngine.

Section ExactPolling.

Local Open Scope R_scope.

Lemma exact_positive (x : R) : @dpositive exact x = true <-> 0 < x.
Proof.
  cbn. unfold Exact.positive. destruct (Rlt_dec 0 x); split;
    intros; try assumption; try reflexivity; try discriminate; contradiction.
Qed.

Lemma osp_average_nonnegative (es : list (@osp_event exact)) :
  forall st : @osp_state exact,
    samples_nonnegative es ->
    0 <= osp_hb_pwr_avg st -> (0 <= osp_hb_pwr_avg_count st)%Z ->
    0 <= osp_hb_pwr_avg (osp_run st es)
    /\ (0 <= osp_hb_pwr_avg_count (osp_run st es))%Z.
Proof.
  induction es as [| e es IH]; intros st Hes Ha Hc; [now split |].
  change (osp_run st (e :: es)) with (osp_run (osp_step st e) es).
  apply IH.
  - intros w Hw. apply Hes. now right.
  - destruct e as [w | l c]; cbn.
    + assert (0 <= w) by (apply Hes; now left).
      assert (0 <= IZR (osp_hb_pwr_avg_count st)) by now apply IZR_le.
      rewrite plus_IZR.
      apply Rmult_le_pos; [| left; apply Rinv_0_lt_compat; lra].
      apply Rplus_le_le_0_compat; [assumption |].
      now apply Rmult_le_pos.
    + unfold hb_energy_read_total_osp. destruct (device st); cbn;
        [lra | assumption].
  - destruct e as [w | l c]; cbn; [lia |].
    unfold hb_energy_read_total_osp. destruct (device st); cbn; lia.
Qed.

(** The carry-forward for a meter that reports no negative power, in exact
    arithmetic: when a read finds a running average other than zero it
    records it, and the power of no later read is zero. *)
Theorem polling_nonzero_average_kept (now : Z)
    (es : list (@osp_event exact)) (l c : Z) (es' : list (@osp_event exact)) :
  samples_nonnegative es ->
  let st := osp_run (hb_energy_init_osp now) es in
  let st1 := fst (hb_energy_read_total_osp st l c) in
  osp_hb_pwr_avg st <> 0 ->
  osp_hb_pwr_avg_last st1 = osp_hb_pwr_avg st
  /\ osp_power_used (osp_run st1 es') <> 0.
Proof.
  intros Hes st st1 Hnz.
  destruct (osp_average_nonnegative es (hb_energy_init_osp now) Hes)
    as (Ha & _); [cbn; lra | cbn; lia |]. fold st in Ha.
  assert (Hpos : @dpositive exact (osp_hb_pwr_avg st) = true)
    by (apply exact_positive; lra).
  assert (Hdev : device st = true)
    by (subst st; now rewrite osp_run_device).
  assert (Hlast : osp_hb_pwr_avg_last st1 = osp_hb_pwr_avg st).
  { subst st1. unfold hb_energy_read_total_osp, osp_power_used.
    rewrite Hdev. cbn [negb fst osp_hb_pwr_avg_last]. now rewrite Hpos. }
  split; [exact Hlast |].
  assert (Hused : @dpositive exact (osp_power_used (osp_run st1 es')) = true).
  { apply osp_power_used_positive, osp_run_last_positive.
    now rewrite Hlast. }
  apply exact_positive in Hused. lra.
Qed.

End ExactPolling.

(** ** The columns of a record *)

Section RecordFacts.

Context {A : Arith}.

Lemma beat_once_counter (hb : heartbeat_t) (c : call) :
  counter (state (beat_once hb c)) = counter (state hb) + 1.
Proof.
  unfold beat_once, heartbeat_acc.
  destruct (first_timestamp hb =? -1); [reflexivity |].
  destruct (hb_window_average_accuracy _ _ _ _) as [[[? ?] ?] ?]. cbn.
  destruct (Z.rem _ _ =? 0); cbn;
    [unfold hb_flush_buffer; destruct (text_file hb); cbn |]; reflexivity.
Qed.

Lemma logged_identity_columns (hb : heartbeat_t) (c : call) :
  identity_columns (logged hb c)
  = (counter (state hb), c_tag c, timestamp_ns (c_time_info c), c_accuracy c).
Proof.
  unfold identity_columns, logged, log_write_index, beat_once, heartbeat_acc.
  destruct (first_timestamp hb =? -1); [reflexivity |].
  destruct (hb_window_average_accuracy _ _ _ _) as [[[? ?] ?] ?]. cbn.
  destruct (Z.rem _ _ =? 0); cbn;
    [unfold hb_flush_buffer; destruct (text_file hb); cbn |];
    now rewrite store_same.
Qed.

Lemma records_identity_columns (cs : list call) :
  forall hb : heartbeat_t,
    map beat (records hb cs)
    = map (fun i => counter (state hb) + Z.of_nat i) (seq 0 (length cs))
    /\ map tag (records hb cs) = map c_tag cs
    /\ map timestamp (records hb cs)
       = map (fun c => timestamp_ns (c_time_info c)) cs
    /\ map instant_accuracy (records hb cs) = map c_accuracy cs.
Proof.
  induction cs as [| c cs IH]; intros hb; [now repeat split |].
  cbn [records map length seq].
  pose proof (logged_identity_columns hb c) as E.
  unfold identity_columns in E. injection E as E1 E2 E3 E4.
  destruct (IH (beat_once hb c)) as (H1 & H2 & H3 & H4).
  rewrite E1, E2, E3, E4, H1, H2, H3, H4, beat_once_counter, Z.add_0_r.
  repeat split. f_equal. rewrite <- seq_shift, map_map.
  apply map_ext. intros i. lia.
Qed.

End RecordFacts.

(** A ring buffer holds its most recent values: the value number [i]
    (from [0]) is in slot [i mod ws] as long as fewer than [ws] values
    were stored after it. *)
Lemma ring_holds_recent {V : Type} (ws : Z) (vs : list V) (a : array V)
    (i : nat) (v : V) :
  1 <= ws -> ring_holds ws vs a ->
  nth_error vs i = Some v -> Z.of_nat (length vs) - ws <= Z.of_nat i ->
  a (Z.of_nat i mod ws) = v.
Proof.
  intros Hws H Hi Hrecent.
  assert (Hlt : (i < length vs)%nat) by (apply nth_error_Some; congruence).
  set (n := Z.of_nat (length vs)) in *.
  pose proof (Z.mod_pos_bound (Z.of_nat i) ws ltac:(lia)) as Hb.
  assert (Hle : Z.of_nat i mod ws <= Z.of_nat i) by (apply Z.mod_le; lia).
  specialize (H (Z.of_nat i mod ws) ltac:(fold n; lia)). fold n in H.
  assert (E : (n - 1 - Z.of_nat i mod ws) mod ws = n - 1 - Z.of_nat i).
  { pose proof (Z.div_mod (Z.of_nat i) ws ltac:(lia)) as He.
    symmetry. apply (Z.mod_unique _ _ (Z.of_nat i / ws)); lia. }
  rewrite E in H.
  replace (Z.to_nat (n - 1 - (n - 1 - Z.of_nat i))) with i in H by lia.
  congruence.
Qed.

(** ** The log buffer and the text log *)

Section LogFacts.

Context {A : Arith}.

Lemma log_ring_run (m : heartbeat_t) (ws bd : Z)
    (ln : option String.string) (b1 b2 b3 b4 b5 b6 : double)
    (cs : list call) :
  2 <= bd -> clock_starts_ok cs ->
  let hb0 := heartbeat_acc_pow_init m ws bd ln b1 b2 b3 b4 b5 b6 in
  ring_holds bd (records hb0 cs) (log (run hb0 cs)).
Proof.
  intros Hbd Hclk hb0. revert Hclk.
  induction cs as [| c cs IH] using rev_ind; intros Hclk;
    [apply ring_holds_nil |].
  assert (Hclk' : clock_starts_ok cs).
  { intros c' H. apply Hclk. destruct cs; [discriminate | exact H]. }
  rewrite run_app, records_app, beat_once_log.
  subst hb0. rewrite log_write_index_run by assumption.
  rewrite <- (records_length cs
                (heartbeat_acc_pow_init m ws bd ln b1 b2 b3 b4 b5 b6)).
  apply ring_holds_store; [lia |]. now apply IH.
Qed.

(** With [buffer_depth >= 2], the log buffer holds the records of the last
    [buffer_depth] heartbeats, the record of heartbeat number [i] (from
    [0]) in slot [i mod buffer_depth]. *)
Theorem log_holds_recent_records (m : heartbeat_t) (ws bd : Z)
    (ln : option String.string) (b1 b2 b3 b4 b5 b6 : double)
    (cs : list call) (i : nat) (r : heartbeat_record_t) :
  2 <= bd -> clock_starts_ok cs ->
  let hb0 := heartbeat_acc_pow_init m ws bd ln b1 b2 b3 b4 b5 b6 in
  nth_error (records hb0 cs) i = Some r ->
  Z.of_nat (length cs) - bd <= Z.of_nat i ->
  log (run hb0 cs) (Z.of_nat i mod bd) = r.
Proof.
  intros Hbd Hclk hb0 Hi Hrecent.
  apply (ring_holds_recent bd (records hb0 cs)); [lia | | exact Hi |].
  - now apply log_ring_run.
  - now rewrite records_length.
Qed.

(** *** The text log does not influence the engine *)

Lemma hb_window_average_accuracy_text (hb : heartbeat_t)
    (tf : option (list (list heartbeat_record_t)))
    (t : Z) (a e : double) :
  hb_window_average_accuracy (with_text_file hb tf) t a e
  = let '(hbw, r, a', p) := hb_window_average_accuracy hb t a e in
    (with_text_file hbw tf, r, a', p).
Proof.
  unfold hb_window_average_accuracy, with_text_file. cbn.
  destruct (negb (steady_state hb)); reflexivity.
Qed.

Lemma beat_once_without_text (hb : heartbeat_t) (c : call) :
  beat_once (with_text_file hb None) c
  = with_text_file (beat_once hb c) None
  /\ logged (with_text_file hb None) c = logged hb c.
Proof.
  unfold logged, log_write_index, beat_once, heartbeat_acc.
  rewrite hb_window_average_accuracy_text.
  cbn [first_timestamp with_text_file].
  destruct (first_timestamp hb =? -1); [split; reflexivity |].
  destruct (hb_window_average_accuracy _ _ _ _) as [[[? ?] ?] ?]. cbn.
  destruct (Z.rem (buffer_index _ + 1) _ =? 0); cbn;
    [unfold hb_flush_buffer; destruct (text_file hb); cbn |];
    split; reflexivity.
Qed.

Lemma run_without_text (cs : list call) :
  forall hb : heartbeat_t,
    run (with_text_file hb None) cs = with_text_file (run hb cs) None
    /\ records (with_text_file hb None) cs = records hb cs.
Proof.
  induction cs as [| c cs IH]; intros hb; [split; reflexivity |].
  change (run ?h (c :: cs)) with (run (beat_once h c) cs).
  cbn [records].
  destruct (beat_once_without_text hb c) as (E1 & E2).
  rewrite E1, E2. destruct (IH (beat_once hb c)) as (H1 & H2).
  now rewrite H1, H2.
Qed.

(** An engine set up without a text log computes what the engine with a
    text log computes: the same records, the same engine but for the text
    log, and it never opens a text log. *)
Theorem text_log_does_not_interfere (m : heartbeat_t) (ws bd : Z)
    (ln : String.string) (b1 b2 b3 b4 b5 b6 : double) (cs : list call) :
  let logging := heartbeat_acc_pow_init m ws bd (Some ln) b1 b2 b3 b4 b5 b6 in
  let silent := heartbeat_acc_pow_init m ws bd None b1 b2 b3 b4 b5 b6 in
  records silent cs = records logging cs
  /\ run silent cs = with_text_file (run logging cs) None
  /\ heartbeat_finish (run silent cs) = None.
Proof.
  intros logging silent.
  change silent with (with_text_file logging None).
  destruct (run_without_text cs logging) as (H1 & H2).
  rewrite H1, H2. repeat split.
Qed.

End LogFacts.

(** ** The window while it fills up *)

Section WarmUp.

Context {A : Arith}.

Lemma times_nth_error (xs : list sample) (k : nat) (t : Z) :
  nth_error (map s_time xs) k = Some t ->
  nth_error (times xs) k = Some (of_int t).
Proof.
  intros H. unfold times. rewrite <- (map_map s_time of_int).
  now apply map_nth_error.
Qed.

(** In every arithmetic, binary64 included: while the window fills up, the
    helper recomputes its sums from the stored samples, oldest first, so the
    window sums and averages after [n <= window_size] samples are those of
    a plain left-to-right summation of all [n] samples, divided by
    [(double) (n - 1) + 1]. *)
Theorem warm_up_recomputes (ws : Z) (hb : heartbeat_t) (xs : list sample) :
  1 <= ws ->
  window_size (state hb) = ws -> current_index hb = 0 ->
  steady_state hb = false ->
  xs <> [] -> Z.of_nat (length xs) <= ws ->
  let hb' := window_run hb xs in
  let n := (of_int (Z.of_nat (length xs) - 1) + of_int 1)%dbl in
  last_window_time hb' = fold_left dadd (times xs) (of_int 0)
  /\ last_window_energy hb' = fold_left dadd (energies xs) (of_int 0)
  /\ last_average_time hb'
     = (fold_left dadd (times xs) (of_int 0) / n)%dbl
  /\ last_average_accuracy hb'
     = (fold_left dadd (accuracies xs) (of_int 0) / n)%dbl.
Proof.
  intros Hws Hsz Hci Hst Hne Hlen.
  destruct (exists_last Hne) as (xs' & x & ->).
  rewrite length_app in Hlen. cbn [length] in Hlen.
  pose proof (window_holds_run ws xs' hb Hws Hsz Hci Hst)
    as (Hsz' & Hst' & Hci' & _).
  pose proof (window_holds_run ws (xs' ++ [x]) hb Hws Hsz Hci Hst)
    as (_ & _ & _ & Hw & Ha & Hp).
  cbn zeta. unfold window_run in *. rewrite fold_left_app in *.
  cbn [fold_left] in *. fold (window_run hb xs') in *.
  set (hb1 := window_run hb xs') in *.
  assert (Hwarm : steady_state hb1 = false)
    by (rewrite Hst'; apply Z.leb_gt; lia).
  rewrite Z.mod_small in Hci' by lia.
  destruct (window_step_warm_aggregates hb1 x Hwarm) as (E1 & E2 & E3 & E4).
  rewrite E1, E2, E3, E4, Hci'.
  replace (Z.to_nat (Z.of_nat (length xs') + 1)) with (length (xs' ++ [x]))
    by (rewrite length_app; cbn [length]; lia).
  replace (Z.of_nat (length (xs' ++ [x])) - 1) with (Z.of_nat (length xs'))
    by (rewrite length_app; cbn [length]; lia).
  assert (Hl : Z.of_nat (length (xs' ++ [x])) <= ws)
    by (rewrite length_app; cbn [length]; lia).
  assert (St : loop_sum (fun i => of_int (window (window_step hb1 x) i))
                 (length (xs' ++ [x]))
               = fold_left dadd (times (xs' ++ [x])) (of_int 0)).
  { rewrite <- (length_map (fun y => of_int (s_time y)) (xs' ++ [x])).
    apply loop_sum_list. intros j Hj.
    unfold times, accuracies, energies in Hj. rewrite length_map in Hj.
    apply times_nth_error. now apply (ring_map_warm _ ws). }
  assert (Sa : loop_sum (accuracy_window (window_step hb1 x))
                 (length (xs' ++ [x]))
               = fold_left dadd (accuracies (xs' ++ [x])) (of_int 0)).
  { rewrite <- (length_map s_accuracy (xs' ++ [x])).
    apply loop_sum_list. intros j Hj.
    unfold times, accuracies, energies in Hj. rewrite length_map in Hj.
    now apply (ring_map_warm _ ws). }
  assert (Sp : loop_sum (power_window (window_step hb1 x))
                 (length (xs' ++ [x]))
               = fold_left dadd (energies (xs' ++ [x])) (of_int 0)).
  { rewrite <- (length_map s_energy (xs' ++ [x])).
    apply loop_sum_list. intros j Hj.
    unfold times, accuracies, energies in Hj. rewrite length_map in Hj.
    now apply (ring_map_warm _ ws). }
  rewrite St, Sa, Sp. repeat split.
Qed.

End WarmUp.

Lemma last_cons {V : Type} (l : list V) :
  forall a d : V, last (a :: l) d = last l a.
Proof.
  induction l as [| b l IH]; intros a d; [reflexivity |].
  change (last (a :: b :: l) d) with (last (b :: l) d).
  now rewrite !IH.
Qed.


(** ** The global, window and instantaneous columns *)

Section GlobalFacts.

Context {A : Arith}.

Ltac step_call :=
  unfold logged, log_write_index, beat_once, heartbeat_acc;
  match goal with
  | H : first_timestamp ?hb <> -1 |- _ =>
      let E := fresh in
      pose proof H as E; apply Z.eqb_neq in E; rewrite E; clear E
  | H : first_timestamp ?hb = -1 |- _ => rewrite H
  end;
  cbn;
  try match goal with
  | |- context [hb_window_average_accuracy ?h ?t ?a ?e] =>
      destruct (hb_window_average_accuracy h t a e) as [[[? ?] ?] ?]
  end;
  unfold hb_flush_buffer; cbn;
  repeat match goal with
         | |- context [if ?b then _ else _] => destruct b; cbn
         | |- context [match text_file ?h with _ => _ end] =>
             destruct (text_file h); cbn
         end;
  rewrite ?store_same.

Lemma first_hb_global_accuracy (hb : heartbeat_t) (c : call) :
  first_timestamp hb = -1 ->
  hb_global_accuracy (beat_once hb c)
  = (hb_global_accuracy hb + c_accuracy c)%dbl.
Proof. intros H. step_call. reflexivity. Qed.

Lemma first_total_energy (hb : heartbeat_t) (c : call) :
  first_timestamp hb = -1 -> total_energy (beat_once hb c) = of_int 0.
Proof. intros H. step_call. reflexivity. Qed.

Lemma next_hb_global_accuracy (hb : heartbeat_t) (c : call) :
  first_timestamp hb <> -1 ->
  hb_global_accuracy (beat_once hb c)
  = (hb_global_accuracy hb + c_accuracy c)%dbl.
Proof. intros H. step_call; reflexivity. Qed.

Lemma next_logged_global (hb : heartbeat_t) (c : call) :
  first_timestamp hb <> -1 ->
  global_accuracy (logged hb c)
  = ((hb_global_accuracy hb + c_accuracy c)
     / of_int (counter (state hb) + 1))%dbl
  /\ global_power (logged hb c)
     = ((total_energy hb + (energy_of c - last_energy hb))
        / of_int (time_of c - first_timestamp hb)
        * of_int 1000000000)%dbl
  /\ instant_rate (logged hb c)
     = (of_int 1 / of_int (time_of c - last_timestamp hb)
        * of_int 1000000000)%dbl
  /\ instant_power (logged hb c)
     = ((energy_of c - last_energy hb)
        / of_int (time_of c - last_timestamp hb)
        * of_int 1000000000)%dbl.
Proof. intros H. unfold time_of, energy_of. step_call; repeat split. Qed.

Lemma next_logged_window (hb : heartbeat_t) (c : call) :
  first_timestamp hb <> -1 ->
  let hw := window_step hb (call_sample hb c) in
  window_rate (logged hb c)
  = to_float ((of_int 1 / to_float (last_average_time hw))
              * of_int 1000000000)%dbl
  /\ window_power (logged hb c)
     = (last_window_energy hw
        / (last_window_time hw / of_int 1000000000))%dbl.
Proof.
  intros Hnext. cbn zeta.
  unfold call_sample, logged, log_write_index, beat_once, heartbeat_acc,
    window_step.
  apply Z.eqb_neq in Hnext. rewrite Hnext. cbn.
  unfold hb_window_average_accuracy.
  destruct (negb (steady_state hb)); cbn;
  unfold hb_flush_buffer; cbn;
  repeat match goal with
       | |- context [if ?b then _ else _] => destruct b; cbn
       | |- context [match text_file ?h with _ => _ end] =>
           destruct (text_file h); cbn
       end; now rewrite store_same.
Qed.

Lemma global_accuracy_sum_run (cs : list call) :
  forall hb : heartbeat_t,
    first_timestamp hb <> -1 ->
    hb_global_accuracy (run hb cs)
    = fold_left dadd (map c_accuracy cs) (hb_global_accuracy hb).
Proof.
  induction cs as [| c cs IH]; intros hb Hft; [reflexivity |].
  change (run hb (c :: cs)) with (run (beat_once hb c) cs).
  rewrite IH by now rewrite next_first_timestamp.
  now rewrite next_hb_global_accuracy.
Qed.

(** In every arithmetic, binary64 included: the global accuracy logged by
    a heartbeat that is not the first is the accuracies of all the
    heartbeats so far, the first included, added up in call order and
    divided by their number. *)
Theorem global_accuracy_is_brute_force (m : heartbeat_t) (ws bd : Z)
    (ln : option String.string) (b1 b2 b3 b4 b5 b6 : double)
    (c0 : call) (cs : list call) (c : call) :
  time_of c0 <> -1 ->
  let hb := run (heartbeat_acc_pow_init m ws bd ln b1 b2 b3 b4 b5 b6)
              (c0 :: cs) in
  hb_global_accuracy hb
  = fold_left dadd (map c_accuracy (c0 :: cs)) (of_int 0)
  /\ global_accuracy (logged hb c)
     = brute_force_average (map c_accuracy (c0 :: cs ++ [c])).
Proof.
  intros Hclk hb. subst hb.
  set (hb0 := heartbeat_acc_pow_init _ _ _ _ _ _ _ _ _ _).
  change (run hb0 (c0 :: cs)) with (run (beat_once hb0 c0) cs).
  assert (H1 : first_timestamp (beat_once hb0 c0) <> -1)
    by now rewrite first_first_timestamp.
  destruct (started_run cs _ H1) as (Hft & Hc).
  rewrite first_state in Hc by reflexivity.
  cbn [with_counters counter state hb0 heartbeat_acc_pow_init] in Hc.
  assert (Hsum : hb_global_accuracy (run (beat_once hb0 c0) cs)
                 = fold_left dadd (map c_accuracy (c0 :: cs)) (of_int 0)).
  { rewrite global_accuracy_sum_run by assumption.
    now rewrite first_hb_global_accuracy. }
  split; [exact Hsum |].
  destruct (next_logged_global (run (beat_once hb0 c0) cs) c) as (E & _).
  { now rewrite Hft. }
  rewrite E, Hsum, Hc. unfold brute_force_average.
  change (c0 :: cs ++ [c]) with ((c0 :: cs) ++ [c]).
  rewrite length_map, length_app, map_app, fold_left_app.
  cbn [map fold_left length].
  do 2 f_equal. lia.
Qed.

(** *** The samples of a run *)

Lemma last_of_run (cs : list call) :
  forall (hb : heartbeat_t) (prev : call),
    first_timestamp hb <> -1 ->
    last_timestamp hb = time_of prev -> last_energy hb = energy_of prev ->
    last_timestamp (run hb cs) = time_of (last cs prev)
    /\ last_energy (run hb cs) = energy_of (last cs prev)
    /\ run_samples hb cs = steps prev cs.
Proof.
  induction cs as [| c cs IH]; intros hb prev Hft Ht He;
    [now repeat split |].
  change (run hb (c :: cs)) with (run (beat_once hb c) cs).
  destruct (IH (beat_once hb c) c) as (H1 & H2 & H3).
  - now rewrite next_first_timestamp.
  - now apply next_last_timestamp.
  - now apply next_last_energy.
  - cbn [run_samples steps]. rewrite H3. unfold call_sample.
    rewrite Ht, He. fold (time_of c) (energy_of c).
    rewrite last_cons.
    repeat split; assumption.
Qed.

End GlobalFacts.

Section ExactGlobal.

Local Open Scope R_scope.

Ltac exact_arith :=
  cbn [double of_int dadd dsub dmul ddiv to_float exact] in *.

Lemma total_energy_run (cs : list (@call exact)) :
  forall hb : @heartbeat_t exact,
    first_timestamp hb <> (-1)%Z ->
    total_energy (run hb cs) - last_energy (run hb cs)
    = total_energy hb - last_energy hb.
Proof.
  induction cs as [| c cs IH]; intros hb Hft; [reflexivity |].
  change (run hb (c :: cs)) with (run (beat_once hb c) cs).
  rewrite IH by now rewrite next_first_timestamp.
  rewrite next_total_energy, next_last_energy by assumption.
  exact_arith. lra.
Qed.


(** In exact arithmetic, [total_energy] is the energy between the first
    heartbeat and the last, and the global power logged by a heartbeat that
    is not the first is the energy since the first heartbeat over the time
    since the first heartbeat. *)
Theorem global_power_is_energy_over_time (m : @heartbeat_t exact) (ws bd : Z)
    (ln : option String.string) (b1 b2 b3 b4 b5 b6 : R)
    (c0 : @call exact) (cs : list (@call exact)) (c : @call exact) :
  time_of c0 <> (-1)%Z ->
  let hb := run (heartbeat_acc_pow_init m ws bd ln b1 b2 b3 b4 b5 b6)
              (c0 :: cs) in
  total_energy hb = energy_of (last cs c0) - energy_of c0
  /\ global_power (logged hb c)
     = (energy_of c - energy_of c0) / IZR (time_of c - time_of c0)
       * 1000000000.
Proof.
  intros Hclk hb. subst hb.
  set (hb0 := heartbeat_acc_pow_init _ _ _ _ _ _ _ _ _ _).
  change (run hb0 (c0 :: cs)) with (run (beat_once hb0 c0) cs).
  set (hb1 := beat_once hb0 c0).
  assert (H1 : first_timestamp hb1 <> (-1)%Z)
    by (subst hb1; now rewrite first_first_timestamp).
  destruct (started_run cs hb1 H1) as (Hft & _).
  destruct (last_of_run cs hb1 c0 H1) as (_ & He & _).
  { subst hb1. now rewrite first_last_timestamp. }
  { subst hb1. now rewrite first_last_energy. }
  pose proof (total_energy_run cs hb1 H1) as Ht.
  unfold hb1 in Ht at 3 4.
  rewrite first_total_energy, first_last_energy in Ht by reflexivity.
  fold (energy_of c0) in Ht. rewrite He in Ht. exact_arith.
  split; [lra |].
  destruct (next_logged_global (run hb1 cs) c) as (_ & E & _).
  { now rewrite Hft. }
  rewrite E, Hft, He. unfold hb1 at 2.
  rewrite first_first_timestamp by reflexivity. fold (time_of c0).
  exact_arith. f_equal. f_equal. lra.
Qed.

End ExactGlobal.

(** ** The window columns with the narrowing to [float] *)

Lemma trailing_last {V : Type} (l : list V) (x : V) :
  trailing 1 (l ++ [x]) = [x].
Proof.
  unfold trailing. rewrite length_app. cbn [length].
  replace (length l + 1 - Z.to_nat 1)%nat with (length l) by lia.
  rewrite skipn_app, Nat.sub_diag, skipn_all. reflexivity.
Qed.

Section Narrowing.

Variable rnd : R -> R.

Local Open Scope R_scope.

Lemma window_step_narrowing (hb : @heartbeat_t (narrowing rnd))
    (hb' : @heartbeat_t exact) (x : @sample (narrowing rnd)) :
  @window_part (narrowing rnd) hb = @window_part exact hb' ->
  @window_part (narrowing rnd) (window_step hb x)
  = @window_part exact (window_step hb' (exact_sample_of rnd x)).
Proof.
  destruct hb as [s w aw pw lg tf ft lt le ci st ga gp te lwt lwe lat laa].
  destruct hb' as [s' w' aw' pw' lg' tf' ft' lt' le' ci' st' ga' gp' te'
                     lwt' lwe' lat' laa'].
  destruct x as [t a e].
  unfold window_part. cbn. intros H.
  injection H as H1 H2 H3 H4 H5 H6 H7 H8 H9 H10.
  subst. unfold window_step, hb_window_average_accuracy.
  destruct st'; cbn; rewrite H1; reflexivity.
Qed.


Lemma window_run_narrowing (xs : list (@sample (narrowing rnd))) :
  forall (hb : @heartbeat_t (narrowing rnd)) (hb' : @heartbeat_t exact),
    @window_part (narrowing rnd) hb = @window_part exact hb' ->
    @window_part (narrowing rnd) (window_run hb xs)
    = @window_part exact (window_run hb' (map (exact_sample_of rnd) xs)).
Proof.
  induction xs as [| x xs IH]; intros hb hb' H; [exact H |].
  cbn [map].
  change (window_run hb (x :: xs)) with (window_run (window_step hb x) xs).
  change (window_run hb' (exact_sample_of rnd x :: ?ys))
    with (window_run (window_step hb' (exact_sample_of rnd x)) ys).
  apply IH. now apply window_step_narrowing.
Qed.

Lemma exact_sample_columns (xs : list (@sample (narrowing rnd))) :
  @times exact (map (exact_sample_of rnd) xs) = @times (narrowing rnd) xs
  /\ @accuracies exact (map (exact_sample_of rnd) xs)
     = @accuracies (narrowing rnd) xs
  /\ @energies exact (map (exact_sample_of rnd) xs)
     = @energies (narrowing rnd) xs.
Proof.
  unfold times, accuracies, energies. rewrite !map_map. repeat split.
Qed.

(** The statistics of the window after the samples [xs], in the arithmetic
    that narrows: those of [exact]. *)
Lemma narrowing_window_statistics (ws : Z)
    (hb : @heartbeat_t (narrowing rnd)) (xs : list (@sample (narrowing rnd))) :
  (1 <= ws)%Z ->
  window_size (state hb) = ws -> current_index hb = 0%Z ->
  steady_state hb = false -> xs <> [] ->
  last_average_time (window_run hb xs)
  = @brute_force_average exact (trailing ws (times xs))
  /\ last_average_accuracy (window_run hb xs)
     = @brute_force_average exact (trailing ws (accuracies xs))
  /\ last_window_time (window_run hb xs)
     = fold_left Rplus (trailing ws (times xs)) 0
  /\ last_window_energy (window_run hb xs)
     = fold_left Rplus (trailing ws (energies xs)) 0.
Proof.
  intros Hws Hsz Hci Hst Hne.
  pose proof (window_run_narrowing xs hb (exact_window rnd hb) eq_refl) as Hp.
  unfold window_part in Hp. injection Hp as _ _ _ _ _ _ Ht Ha Hwt Hwe.
  destruct (window_statistics_run ws (exact_window rnd hb)
              (map (exact_sample_of rnd) xs) Hws Hsz Hci Hst)
    as (S1 & S2 & S3 & S4); [now destruct xs |].
  destruct (exact_sample_columns xs) as (C1 & C2 & C3).
  rewrite C1 in S1, S3. rewrite C2 in S2. rewrite C3 in S4.
  rewrite Ht, Ha, Hwt, Hwe. repeat split; assumption.
Qed.


Lemma differences_length {C : Type} (f : C -> R) (cs : list C) :
  forall prev, length (differences f prev cs) = length cs.
Proof. induction cs as [| c cs IH]; intros prev; cbn; now rewrite ?IH. Qed.

Lemma differences_telescope {C : Type} (f : C -> R) (cs : list C) :
  forall (prev : C) (k : nat),
    (k <= length cs)%nat ->
    fold_left Rplus (skipn k (differences f prev cs)) 0
    = f (last cs prev) - f (nth k (prev :: cs) prev).
Proof.
  induction cs as [| c cs IH]; intros prev k Hk.
  - cbn in Hk. replace k with 0%nat by lia. cbn. lra.
  - destruct k as [| k].
    + cbn [skipn differences fold_left nth].
      rewrite fold_Rplus_shift.
      pose proof (IH c 0%nat ltac:(lia)) as E. cbn [skipn nth] in E.
      rewrite E, last_cons. lra.
    + cbn [skipn differences]. cbn [length] in Hk.
      rewrite (IH c k) by lia. rewrite last_cons.
      change (nth (S k) (prev :: c :: cs) prev) with (nth k (c :: cs) prev).
      f_equal. f_equal. apply nth_indep. cbn [length]. lia.
Qed.

Lemma steps_times (cs : list (@call (narrowing rnd))) :
  forall prev,
    times (steps prev cs) = differences (fun c => IZR (time_of c)) prev cs.
Proof.
  induction cs as [| c cs IH]; intros prev; [reflexivity |].
  cbn [steps differences]. unfold times in *. cbn [map s_time].
  rewrite IH. cbn [of_int narrowing]. now rewrite minus_IZR.
Qed.

Lemma steps_energies (cs : list (@call (narrowing rnd))) :
  forall prev,
    energies (steps prev cs)
    = differences (@energy_of (narrowing rnd)) prev cs.
Proof.
  induction cs as [| c cs IH]; intros prev; [reflexivity |].
  cbn [steps differences]. unfold energies in *. cbn [map s_energy].
  now rewrite IH.
Qed.

Lemma steps_app (cs : list (@call (narrowing rnd))) :
  forall (prev c : @call (narrowing rnd)),
    steps prev (cs ++ [c])
    = steps prev cs
      ++ [@Build_sample (narrowing rnd)
            (time_of c - time_of (last cs prev))%Z (c_accuracy c)
            (energy_of c - energy_of (last cs prev))].
Proof.
  induction cs as [| d cs IH]; intros prev c; [reflexivity |].
  cbn [app steps]. now rewrite IH, last_cons.
Qed.

(** *** The window columns of a record *)

Lemma logged_window_statistics (m : @heartbeat_t (narrowing rnd))
    (ws bd : Z) (ln : option String.string) (b1 b2 b3 b4 b5 b6 : R)
    (c0 : @call (narrowing rnd)) (cs : list (@call (narrowing rnd)))
    (c : @call (narrowing rnd)) :
  (1 <= ws)%Z -> time_of c0 <> (-1)%Z ->
  let hb := run (heartbeat_acc_pow_init m ws bd ln b1 b2 b3 b4 b5 b6)
              (c0 :: cs) in
  let xs := steps c0 (cs ++ [c]) in
  window_rate (logged hb c)
  = rnd (1 / rnd (@brute_force_average exact (trailing ws (times xs)))
         * 1000000000)
  /\ window_accuracy (logged hb c)
     = @brute_force_average exact (trailing ws (accuracies xs))
  /\ window_power (logged hb c)
     = fold_left Rplus (trailing ws (energies xs)) 0
       / (fold_left Rplus (trailing ws (times xs)) 0 / 1000000000).
Proof.
  intros Hws Hclk hb xs. subst hb.
  set (hb0 := heartbeat_acc_pow_init _ _ _ _ _ _ _ _ _ _).
  change (run hb0 (c0 :: cs)) with (run (beat_once hb0 c0) cs).
  set (hb1 := beat_once hb0 c0).
  assert (H1 : first_timestamp hb1 <> (-1)%Z)
    by (subst hb1; now rewrite first_first_timestamp).
  assert (Hn : first_timestamp (run hb1 cs) <> (-1)%Z)
    by (destruct (started_run cs hb1 H1) as (E & _); now rewrite E).
  assert (Hxs : run_samples hb1 (cs ++ [c]) = xs).
  { apply (last_of_run (cs ++ [c]) hb1 c0 H1).
    - subst hb1. now rewrite first_last_timestamp.
    - subst hb1. now rewrite first_last_energy. }
  destruct (next_logged_window (run hb1 cs) c Hn) as (Er & Ep).
  rewrite Er, Ep, next_logged_window_accuracy by assumption.
  pose proof (window_step_part _ _ (call_sample (run hb1 cs) c)
                (run_part cs hb1 H1)) as Hp.
  unfold window_part in Hp. injection Hp as _ _ _ _ _ _ Ht Ha Hwt Hwe.
  rewrite Ht, Ha, Hwt, Hwe.
  change (window_step (window_run hb1 ?ys) ?y)
    with (fold_left window_step [y] (window_run hb1 ys)).
  unfold window_run. rewrite <- !fold_left_app. fold (window_run hb1).
  rewrite <- run_samples_app, Hxs.
  destruct (narrowing_window_statistics ws hb1 xs Hws)
    as (S1 & S2 & S3 & S4).
  - subst hb1. now rewrite first_state.
  - subst hb1. now rewrite first_current_index.
  - subst hb1. now rewrite first_steady_state.
  - subst xs. now destruct cs.
  - unfold window_run in S1, S2, S3, S4.
    rewrite S1, S2, S3, S4. repeat split.
Qed.

(** With [window_size = 1], in exact arithmetic on [double] and whatever
    the narrowing to [float] does, every heartbeat after the first logs its
    instantaneous accuracy and power as the window accuracy and power.  Its
    window rate is its instantaneous rate computed through [float]: the
    time since the heartbeat before is narrowed before it divides, and the
    result is narrowed again. *)
Theorem window_of_one_is_instant (m : @heartbeat_t (narrowing rnd)) (bd : Z)
    (ln : option String.string) (b1 b2 b3 b4 b5 b6 : R)
    (c0 : @call (narrowing rnd)) (cs : list (@call (narrowing rnd)))
    (c : @call (narrowing rnd)) :
  time_of c0 <> (-1)%Z ->
  let r := logged (run (heartbeat_acc_pow_init m 1 bd ln b1 b2 b3 b4 b5 b6)
                     (c0 :: cs)) c in
  let dt := IZR (time_of c - time_of (last cs c0)) in
  window_accuracy r = instant_accuracy r
  /\ window_power r = instant_power r
  /\ instant_rate r = 1 / dt * 1000000000
  /\ window_rate r = rnd (1 / rnd dt * 1000000000).
Proof.
  intros Hclk r dt. subst r.
  destruct (logged_window_statistics m 1 bd ln b1 b2 b3 b4 b5 b6 c0 cs c)
    as (Er & Ea & Ep); [lia | assumption |].
  rewrite Er, Ea, Ep. clear Er Ea Ep.
  set (hb0 := heartbeat_acc_pow_init _ _ _ _ _ _ _ _ _ _).
  change (run hb0 (c0 :: cs)) with (run (beat_once hb0 c0) cs).
  set (hb1 := beat_once hb0 c0).
  assert (H1 : first_timestamp hb1 <> (-1)%Z)
    by (subst hb1; now rewrite first_first_timestamp).
  assert (Hn : first_timestamp (run hb1 cs) <> (-1)%Z)
    by (destruct (started_run cs hb1 H1) as (E & _); now rewrite E).
  destruct (last_of_run cs hb1 c0 H1) as (Ht & He & _).
  { subst hb1. now rewrite first_last_timestamp. }
  { subst hb1. now rewrite first_last_energy. }
  destruct (next_logged_global (run hb1 cs) c Hn) as (_ & _ & Ir & Ip).
  pose proof (logged_identity_columns (run hb1 cs) c) as Ia.
  unfold identity_columns in Ia. injection Ia as _ _ _ Ia.
  rewrite Ir, Ip, Ia, Ht, He.
  rewrite steps_app. unfold times, accuracies, energies.
  rewrite !map_app. cbn [map s_time s_accuracy s_energy].
  rewrite !trailing_last. unfold brute_force_average.
  cbn [fold_left length Z.of_nat Pos.of_succ_nat].
  cbn [double of_int dadd dsub dmul ddiv to_float exact narrowing].
  fold dt.
  set (de := energy_of c - energy_of (last cs c0)).
  assert (Hdt : (0 + dt) / 1 = dt) by field.
  split; [field | split; [| split; [reflexivity |]]].
  - unfold Rdiv. rewrite Rplus_0_l, Rplus_0_l, Rinv_mult, Rinv_inv. ring.
  - now rewrite Hdt.
Qed.

(** In exact arithmetic on [double] and whatever the narrowing to [float]
    does, the window rate and the window power of a heartbeat after the
    first are those of the interval the window spans: with [from] the
    heartbeat [window_size] heartbeats back (the first heartbeat while
    there are fewer) and [w] the number of heartbeats since then, the power
    is the energy since [from] over the time since [from], and the rate is
    computed from the average time [(now - from) / w], which is narrowed to
    [float] before it divides, the result being narrowed again. *)
Theorem window_rate_and_power_span (m : @heartbeat_t (narrowing rnd))
    (ws bd : Z) (ln : option String.string) (b1 b2 b3 b4 b5 b6 : R)
    (c0 : @call (narrowing rnd)) (cs : list (@call (narrowing rnd)))
    (c : @call (narrowing rnd)) :
  (1 <= ws)%Z -> time_of c0 <> (-1)%Z ->
  let hb := run (heartbeat_acc_pow_init m ws bd ln b1 b2 b3 b4 b5 b6)
              (c0 :: cs) in
  let k := (length cs + 1 - Z.to_nat ws)%nat in
  let from := nth k (c0 :: cs ++ [c]) c0 in
  let w := Z.of_nat (length cs + 1 - k) in
  window_rate (logged hb c)
  = rnd (1 / rnd (IZR (time_of c - time_of from) / IZR w) * 1000000000)
  /\ window_power (logged hb c)
     = (energy_of c - energy_of from)
       / (IZR (time_of c - time_of from) / 1000000000).
Proof.
  intros Hws Hclk hb k from w.
  destruct (logged_window_statistics m ws bd ln b1 b2 b3 b4 b5 b6 c0 cs c
              Hws Hclk) as (Er & _ & Ep).
  fold hb in Er, Ep. rewrite Er, Ep. clear Er Ep.
  rewrite steps_times, steps_energies.
  unfold trailing, brute_force_average.
  rewrite length_skipn, !differences_length, length_app. cbn [length].
  fold k. fold w.
  rewrite !differences_telescope by (rewrite length_app; cbn [length]; lia).
  rewrite last_last. fold from.
  cbn [double of_int dadd dsub dmul ddiv to_float exact narrowing].
  rewrite minus_IZR. split; reflexivity.
Qed.

End Narrowing.

(** ** The energy the polling backend reports *)

Section ExactMeter.

Local Open Scope R_scope.

Ltac exact_arith :=
  cbn [double of_int dadd dsub dmul ddiv to_float exact] in *.

Lemma osp_samples_mean (ws : list R) :
  forall st : @osp_state exact,
    osp_hb_pwr_avg_count st = 0%Z ->
    let st' := osp_run st (map (@Sample exact) ws) in
    osp_hb_pwr_avg_count st' = Z.of_nat (length ws)
    /\ (ws <> [] ->
        osp_hb_pwr_avg st' * IZR (Z.of_nat (length ws))
        = fold_left Rplus ws 0)
    /\ device st' = device st
    /\ osp_start_time st' = osp_start_time st
    /\ osp_total_energy st' = osp_total_energy st
    /\ osp_hb_pwr_avg_last st' = osp_hb_pwr_avg_last st.
Proof.
  induction ws as [| w ws IH] using rev_ind; intros st Hc st'.
  - subst st'. cbn. repeat split; try assumption. congruence.
  - subst st'. rewrite map_app. unfold osp_run. rewrite fold_left_app.
    fold (osp_run st (map (@Sample exact) ws)).
    destruct (IH st Hc) as (H1 & H2 & H3 & H4 & H5 & H6).
    set (st1 := osp_run st (map (@Sample exact) ws)) in *.
    cbn [map fold_left osp_step osp_poll_sample osp_hb_pwr_avg_count
         osp_hb_pwr_avg device osp_start_time osp_total_energy
         osp_hb_pwr_avg_last].
    rewrite length_app. cbn [length].
    change (fold_left osp_step (map (@Sample exact) ws) st) with st1.
    repeat split; try assumption.
    + rewrite H1. lia.
    + intros _. rewrite fold_left_app. cbn [fold_left]. exact_arith.
      rewrite H1.
      replace (Z.of_nat (length ws + 1)) with (Z.of_nat (length ws) + 1)%Z
        by lia.
      assert (Hpos : 0 < IZR (Z.of_nat (length ws) + 1))
        by (apply IZR_lt; lia).
      destruct ws as [| w0 ws0].
      * cbn. field.
      * rewrite <- H2 by discriminate. field. lra.
Qed.

(** In exact arithmetic, the running average the polling thread keeps is
    the mean of the samples it took since the last read, and the read that
    follows charges that mean power, when it is positive, for the whole
    interval between the two heartbeats. *)
Theorem polling_charges_mean_power (st : @osp_state exact) (ws : list R)
    (l c : Z) :
  device st = true -> osp_hb_pwr_avg_count st = 0%Z -> ws <> [] ->
  let st' := osp_run st (map (@Sample exact) ws) in
  let from := if (l <? 0)%Z then osp_start_time st else l in
  osp_hb_pwr_avg st' = brute_force_average ws
  /\ osp_hb_pwr_avg_count st' = Z.of_nat (length ws)
  /\ (0 < brute_force_average ws ->
      snd (hb_energy_read_total_osp st' l c)
      = osp_total_energy st
        + brute_force_average ws * (IZR (c - from) / 1000000000)).
Proof.
  intros Hdev Hc Hne st' from.
  destruct (osp_samples_mean ws st Hc) as (H1 & H2 & H3 & H4 & H5 & H6).
  fold st' in H1, H2, H3, H4, H5, H6. specialize (H2 Hne).
  assert (Hlen : 0 < IZR (Z.of_nat (length ws))).
  { apply IZR_lt. destruct ws; [congruence | cbn [length]; lia]. }
  assert (Hmean : osp_hb_pwr_avg st' = brute_force_average ws).
  { unfold brute_force_average.
    change (@eq R (osp_hb_pwr_avg st')
              (fold_left Rplus ws 0 / IZR (Z.of_nat (length ws)))).
    rewrite <- H2.
    change (@eq R (osp_hb_pwr_avg st')
              (osp_hb_pwr_avg st' * IZR (Z.of_nat (length ws))
               / IZR (Z.of_nat (length ws)))).
    symmetry. unfold Rdiv. rewrite Rmult_assoc, Rinv_r by lra.
    apply Rmult_1_r. }
  split; [exact Hmean | split; [exact H1 |]].
  intros Hpos. unfold hb_energy_read_total_osp, osp_power_used, diff_sec.
  rewrite H3, Hdev, H4, H5, Hmean.
  apply exact_positive in Hpos. rewrite Hpos. reflexivity.
Qed.

Lemma osp_step_start_time (st : @osp_state exact) (e : osp_event) :
  osp_start_time (osp_step st e) = osp_start_time st.
Proof.
  destruct e as [w | l c]; cbn; [reflexivity |].
  unfold hb_energy_read_total_osp. now destruct (device st).
Qed.

Lemma osp_step_total_monotone (st : @osp_state exact) (e : osp_event) :
  samples_nonnegative [e] -> reads_forward (osp_start_time st) [e] ->
  0 <= osp_hb_pwr_avg st -> 0 <= osp_hb_pwr_avg_last st ->
  (0 <= osp_hb_pwr_avg_count st)%Z ->
  osp_total_energy st <= osp_total_energy (osp_step st e)
  /\ 0 <= osp_hb_pwr_avg (osp_step st e)
  /\ 0 <= osp_hb_pwr_avg_last (osp_step st e)
  /\ (0 <= osp_hb_pwr_avg_count (osp_step st e))%Z.
Proof.
  intros Hs Hr Ha Hl Hc. destruct e as [w | l c].
  - cbn. assert (0 <= w) by (apply Hs; now left).
    assert (0 <= IZR (osp_hb_pwr_avg_count st)) by now apply IZR_le.
    rewrite plus_IZR. repeat split; try lra; try lia.
    apply Rmult_le_pos; [| left; apply Rinv_0_lt_compat; lra].
    apply Rplus_le_le_0_compat; [assumption |]. now apply Rmult_le_pos.
  - cbn [osp_step]. unfold hb_energy_read_total_osp.
    destruct (device st); cbn [negb fst osp_total_energy osp_hb_pwr_avg
      osp_hb_pwr_avg_last osp_hb_pwr_avg_count];
      [| repeat split; try assumption; lra].
    assert (Hused : 0 <= osp_power_used st).
    { unfold osp_power_used. now destruct (dpositive _). }
    assert (Hd : 0 <= diff_sec (if (l <? 0)%Z then osp_start_time st else l) c).
    { unfold diff_sec. exact_arith.
      apply Rmult_le_pos; [| left; apply Rinv_0_lt_compat; lra].
      apply IZR_le. specialize (Hr l c (or_introl eq_refl)). lia. }
    exact_arith. repeat split; try lra; try lia.
    pose proof (Rmult_le_pos _ _ Hused Hd). lra.
Qed.

Lemma osp_run_total_monotone (es : list (@osp_event exact)) :
  forall st : @osp_state exact,
    samples_nonnegative es -> reads_forward (osp_start_time st) es ->
    0 <= osp_hb_pwr_avg st -> 0 <= osp_hb_pwr_avg_last st ->
    (0 <= osp_hb_pwr_avg_count st)%Z ->
    osp_total_energy st <= osp_total_energy (osp_run st es)
    /\ 0 <= osp_hb_pwr_avg (osp_run st es)
    /\ 0 <= osp_hb_pwr_avg_last (osp_run st es)
    /\ (0 <= osp_hb_pwr_avg_count (osp_run st es))%Z.
Proof.
  induction es as [| e es IH]; intros st Hs Hr Ha Hl Hc.
  - cbn. repeat split; try assumption. lra.
  - change (osp_run st (e :: es)) with (osp_run (osp_step st e) es).
    destruct (osp_step_total_monotone st e) as (M1 & M2 & M3 & M4);
      try assumption.
    + intros w [Hw | []]. apply Hs. left. exact Hw.
    + intros l c [Hw | []]. apply Hr. left. exact Hw.
    + destruct (IH (osp_step st e)) as (N1 & N2 & N3 & N4);
        try assumption.
      * intros w Hw. apply Hs. now right.
      * rewrite osp_step_start_time. intros l c Hw. apply Hr. now right.
      * repeat split; try assumption. lra.
Qed.

(** In exact arithmetic, for a meter that reports no negative power and
    reads whose current time is not before their last time, the total
    energy never decreases: what a read returns is at least what every
    earlier read returned, and at least zero. *)
Theorem polling_total_never_decreases (now : Z)
    (es1 es2 : list (@osp_event exact)) (l c : Z) :
  samples_nonnegative (es1 ++ es2 ++ [Read l c]) ->
  reads_forward now (es1 ++ es2 ++ [Read l c]) ->
  let st1 := osp_run (hb_energy_init_osp now) es1 in
  let st2 := osp_run st1 es2 in
  0 <= osp_total_energy st1
  /\ osp_total_energy st1 <= snd (hb_energy_read_total_osp st2 l c).
Proof.
  intros Hs Hr st1 st2.
  assert (Hs1 : samples_nonnegative es1)
    by (intros w Hw; apply Hs; apply in_or_app; now left).
  assert (Hr1 : reads_forward now es1)
    by (intros l' c' Hw; apply Hr; apply in_or_app; now left).
  destruct (osp_run_total_monotone es1 (hb_energy_init_osp now))
    as (M1 & M2 & M3 & M4); try assumption; try (cbn; lra); try (cbn; lia).
  fold st1 in M1, M2, M3, M4. cbn in M1.
  split; [exact M1 |].
  assert (Hstart : forall es,
             osp_start_time (osp_run (hb_energy_init_osp now) es) = now).
  { intros es. induction es as [| e es IH] using rev_ind; [reflexivity |].
    unfold osp_run in *. rewrite fold_left_app. cbn [fold_left].
    now rewrite osp_step_start_time. }
  destruct (osp_run_total_monotone (es2 ++ [Read l c]) st1)
    as (N1 & _); try assumption.
  - intros w Hw. apply Hs. apply in_or_app. now right.
  - unfold st1. rewrite Hstart. intros l' c' Hw. apply Hr.
    apply in_or_app. now right.
  - unfold osp_run in N1. rewrite fold_left_app in N1.
    cbn [fold_left osp_step] in N1. fold (osp_run st1 es2) in N1.
    fold st2 in N1.
    replace (snd (hb_energy_read_total_osp st2 l c))
      with (osp_total_energy (fst (hb_energy_read_total_osp st2 l c)));
      [exact N1 |].
    unfold hb_energy_read_total_osp.
    assert (Hdev : device st2 = true).
    { unfold st2, st1. now rewrite !osp_run_device. }
    now rewrite Hdev.
Qed.

End ExactMeter.

Section ExactMeterRuns.

Local Open Scope R_scope.

Lemma osp_run_app (st : @osp_state exact) (es es' : list osp_event) :
  osp_run st (es ++ es') = osp_run (osp_run st es) es'.
Proof. unfold osp_run. apply fold_left_app. Qed.

Lemma interval_step (st : @osp_state exact) (i : osp_interval) :
  device st = true -> osp_hb_pwr_avg_count st = 0%Z ->
  i_samples i <> [] -> 0 < @brute_force_average exact (i_samples i) ->
  let st' := osp_run st (interval_events i) in
  device st' = true
  /\ osp_hb_pwr_avg_count st' = 0%Z
  /\ osp_start_time st' = osp_start_time st
  /\ osp_total_energy st'
     = osp_total_energy st + interval_energy (osp_start_time st) i.
Proof.
  intros Hdev Hc Hne Hpos st'. subst st'.
  unfold interval_events. rewrite osp_run_app.
  destruct (osp_samples_mean (i_samples i) st Hc)
    as (H1 & H2 & H3 & H4 & H5 & H6).
  specialize (H2 Hne).
  set (st1 := osp_run st (map (@Sample exact) (i_samples i))) in *.
  assert (Hlen : 0 < IZR (Z.of_nat (length (i_samples i)))).
  { apply IZR_lt. destruct (i_samples i); [congruence | cbn [length]; lia]. }
  assert (Hmean : osp_hb_pwr_avg st1 = brute_force_average (i_samples i)).
  { unfold brute_force_average.
    change (@eq R (osp_hb_pwr_avg st1)
              (fold_left Rplus (i_samples i) 0
               / IZR (Z.of_nat (length (i_samples i))))).
    rewrite <- H2. symmetry. unfold Rdiv.
    rewrite Rmult_assoc, Rinv_r by lra. apply Rmult_1_r. }
  cbn [osp_run fold_left osp_step]. unfold hb_energy_read_total_osp.
  rewrite H3, Hdev. cbn [negb fst device osp_hb_pwr_avg_count osp_start_time
                         osp_total_energy].
  unfold osp_power_used, diff_sec, interval_energy.
  rewrite H4, H5, Hmean. apply exact_positive in Hpos. rewrite Hpos.
  repeat split.
Qed.

(** In exact arithmetic, when the polling thread takes at least one sample
    between any two reads and the mean of the samples of every interval is
    positive, the total energy after a run of intervals is the sum over the
    intervals of the mean sampled power times the length of the interval,
    and this is what the last read returned. *)
Theorem polling_total_is_sum_of_intervals (now : Z)
    (ivs : list osp_interval) :
  Forall (fun i => i_samples i <> []
                   /\ 0 < @brute_force_average exact (i_samples i)) ivs ->
  osp_total_energy
    (osp_run (hb_energy_init_osp now) (concat (map interval_events ivs)))
  = fold_left Rplus (map (interval_energy now) ivs) 0.
Proof.
  intros Hall.
  assert (H : forall st : @osp_state exact,
             device st = true -> osp_hb_pwr_avg_count st = 0%Z ->
             osp_total_energy
               (osp_run st (concat (map interval_events ivs)))
             = fold_left Rplus (map (interval_energy (osp_start_time st)) ivs)
                 (osp_total_energy st)).
  { induction Hall as [| i ivs (Hne & Hpos) _ IH]; intros st Hdev Hc;
      [reflexivity |].
    cbn [map concat fold_left]. rewrite osp_run_app.
    destruct (interval_step st i Hdev Hc Hne Hpos) as (D & C & S & T).
    rewrite IH, S, T by assumption. reflexivity. }
  rewrite H by reflexivity. reflexivity.
Qed.

End ExactMeterRuns.

(** ** Set-up and teardown of the engine *)

Section SetUpFacts.

Context {A : Arith}.

Lemma beat_once_text_open (hb : heartbeat_t) (c : call) :
  text_file (beat_once hb c) = None <-> text_file hb = None.
Proof.
  destruct (Z.eq_dec (first_timestamp hb) (-1)) as [E | E].
  - now rewrite first_text_file.
  - rewrite next_text_file by assumption.
    destruct (Z.rem _ _ =? 0); [| reflexivity].
    destruct (text_file hb); split; intros H; congruence.
Qed.

Lemma run_text_open (cs : list call) :
  forall hb : heartbeat_t,
    text_file (run hb cs) = None <-> text_file hb = None.
Proof.
  induction cs as [| c cs IH]; intros hb; [reflexivity |].
  change (run hb (c :: cs)) with (run (beat_once hb c) cs).
  now rewrite IH, beat_once_text_open.
Qed.

Ltac set_up_step b := destruct b; [| cbn].

Ltac set_up_paths o ln :=
  destruct o as [o1 o2 o3 o4 o5 o6 o7 o8 o9 o10 o11 o12];
  unfold heartbeat_acc_pow_init_calls, heartbeat_finish_calls;
  cbn [malloc_hb get_default finit alloc_state fopen_text enabled_dir
       alloc_log malloc_window malloc_accuracy_window malloc_power_window
       mutex_init fopen_binary];
  set_up_step o1; [set_up_step o2; [set_up_step o3; [set_up_step o4;
    [destruct ln; [set_up_step o5 |];
     (set_up_step o6; [set_up_step o7; [set_up_step o8; [set_up_step o9;
        [set_up_step o10; [destruct o11; (destruct o12; cbn) | ]
        | ] | ] | ] | ])
    | ] | ] | ] | ].

(** [heartbeat_acc_pow_init] returns an engine unless a call it checks
    fails, and gives up at the first such failure, so that exactly one
    call has failed when it returns [NULL]; the engine is the one of the
    path on which everything succeeds.  The result of [pthread_mutex_init]
    is not checked: its failure does not make set-up fail. *)
Theorem set_up_fails_closed (o : hb_outcomes) (m : heartbeat_t)
    (ws bd : Z) (ln : option String.string) (b1 b2 b3 b4 b5 b6 : double) :
  let r := heartbeat_acc_pow_init_calls o m ws bd ln b1 b2 b3 b4 b5 b6 in
  match fst r with
  | Some hb =>
      hb = heartbeat_acc_pow_init m ws bd ln b1 b2 b3 b4 b5 b6
      /\ filter checked_failure (snd r) = []
  | None =>
      length (filter checked_failure (snd r)) = 1%nat
  end.
Proof.
  set_up_paths o ln; repeat split.
Qed.


(** Over the whole life of an engine, whatever fails during set-up and
    whatever heartbeats are recorded: the engine block is freed exactly when
    it was allocated, the energy monitor is finished exactly when it was
    initialised, each of the two files is closed exactly when it was
    opened, each window that was allocated is freed, and nothing is freed
    twice. *)
Theorem engine_life_releases (o : hb_outcomes) (m : heartbeat_t)
    (ws bd : Z) (ln : option String.string) (b1 b2 b3 b4 b5 b6 : double)
    (cs : list call) :
  let t := engine_life_calls o m ws bd ln b1 b2 b3 b4 b5 b6 cs in
  calls_of (Free Hb) t = calls_of (Malloc Hb true) t
  /\ calls_of Em_ffinish t = calls_of (Em_finit true) t
  /\ calls_of (Fclose Text_file) t = calls_of (Fopen Text_file true) t
  /\ calls_of (Fclose Binary_file) t = calls_of (Fopen Binary_file true) t
  /\ forall w,
       (calls_of (Malloc w true) t <= calls_of (Free w) t <= 1)%nat.
Proof.
  unfold engine_life_calls, calls_of.
  assert (Hsome : forall s,
             text_file
               (run (heartbeat_acc_pow_init m ws bd (Some s)
                       b1 b2 b3 b4 b5 b6) cs) <> None).
  { intros s H. apply run_text_open in H. discriminate. }
  assert (Hnone : text_file
                    (run (heartbeat_acc_pow_init m ws bd None
                            b1 b2 b3 b4 b5 b6) cs) = None).
  { now apply run_text_open. }
  set_up_paths o ln; cbn [fst snd];
    rewrite ?Hnone;
    try match goal with
        | |- context [text_file (run (heartbeat_acc_pow_init _ _ _ (Some ?s)
                                        _ _ _ _ _ _) _)] =>
            specialize (Hsome s);
            destruct (text_file (run (heartbeat_acc_pow_init m ws bd (Some s)
                                        b1 b2 b3 b4 b5 b6) cs));
            [| congruence]
        end;
    (split; [reflexivity | split; [reflexivity | split;
      [reflexivity | split; [reflexivity |]]]]);
    intros [| | |]; cbn; lia.
Qed.

(** A set-up that gives up after the energy monitor was initialised goes
    through [heartbeat_finish], which destroys the mutex and removes
    [hb->filename]: [pthread_mutex_init] has run before that only when the
    failing call is the [fopen] of the binary file, and [sprintf] has
    written the file name only when [getenv] had succeeded.  When the text
    log is open, [hb_flush_buffer] prints as many records as
    [hb->state->buffer_index] holds, which set-up has set to [0] only when
    the failing call is the [fopen] of the binary file. *)
Theorem abandoned_set_up_runs_finish (o : hb_outcomes) (m : heartbeat_t)
    (ws bd : Z) (ln : option String.string) (b1 b2 b3 b4 b5 b6 : double) :
  let r := heartbeat_acc_pow_init_calls o m ws bd ln b1 b2 b3 b4 b5 b6 in
  let t := snd r in
  fst r = None -> In (Em_finit true) t ->
  calls_of (Pthread_mutex_destroy Hb_mutex) t = 1%nat
  /\ calls_of Remove t = 1%nat
  /\ (calls_of (Pthread_mutex_init Hb_mutex true) t
      + calls_of (Pthread_mutex_init Hb_mutex false) t
      = calls_of (Fopen Binary_file false) t)%nat
  /\ calls_of Sprintf_filename t = calls_of (Getenv true) t
  /\ (In (Fopen Text_file true) t ->
      In (Fprintf_records
            (if in_dec lib_call_eq_dec (Fopen Binary_file false) t then 0
             else buffer_index (state m))) t).
Proof.
  unfold calls_of.
  set_up_paths o ln; cbn [fst snd]; intros Hr Hin;
    try discriminate;
    try (cbn in Hin; intuition discriminate);
    (split; [reflexivity | split; [reflexivity | split;
      [reflexivity | split; [reflexivity |]]]]);
    intros Ht; cbn in Ht |- *; intuition (try discriminate).
Qed.

End SetUpFacts.

(** ** Set-up and teardown of the polling backend *)

Section MeterSetUpFacts.

Context {A : Arith}.

Ltac meter_paths o :=
  destruct o as [o1 o2 io st now o3 o4];
  unfold hb_energy_init_osp_calls, hb_energy_osp_request_status,
    hb_energy_osp_request_data, hb_energy_osp_request_start_stop,
    hb_energy_osp_request, hb_energy_finish_osp;
  cbn [hid_init_ok hid_open_ok hid_io started clock_now osp_mutex_init
       thread_create];
  destruct o1; [| cbn]; [destruct o2; [| cbn] |];
  [repeat match goal with
          | |- context [negb (io ?n)] => destruct (io n); cbn
          | |- context [negb st] => destruct st; cbn
          | |- context [negb o3] => destruct o3; cbn
          | |- context [negb o4] => destruct o4; cbn
          end | |].

(** [hb_energy_init_osp] returns [0] when every call succeeds, with the
    static variables of the path on which everything succeeds and polling
    switched on; otherwise it gives up at the first failure and returns
    [-1], and, unless [hid_init] is what failed, leaves [device == NULL],
    so that [hb_energy_read_total_osp] returns [-1] from then on. *)
Theorem meter_set_up_fails_closed (o : osp_outcomes) (p : osp_process) :
  let r := hb_energy_init_osp_calls o p in
  let p' := fst (fst r) in
  (snd (fst r) = 0
   /\ filter failed (snd r) = []
   /\ osp_vars p' = hb_energy_init_osp (clock_now o)
   /\ osp_do_polling p' = 1)
  \/ (snd (fst r) = -1
      /\ length (filter failed (snd r)) = 1%nat
      /\ (hid_init_ok o = true ->
          device (osp_vars p') = false
          /\ forall l c,
               hb_energy_read_total_osp (osp_vars p') l c
               = (osp_vars p', of_int (-1)))).
Proof.
  meter_paths o;
    first [ left; repeat split; reflexivity
          | right; repeat split; try reflexivity; try discriminate ].
Qed.


(** When [hb_energy_init_osp] gives up after it opened the device, it
    runs [hb_energy_finish_osp]: the device is closed and the HID library
    is shut down, [pthread_join] is called on a thread that was not
    created, and the mutex is destroyed, having been initialised only when
    the call that failed is [pthread_create].  When [hid_open] is what
    fails, the HID library is not shut down. *)
Theorem abandoned_meter_runs_finish (o : osp_outcomes)
    (p : osp_process) :
  let r := hb_energy_init_osp_calls o p in
  let t := snd r in
  snd (fst r) <> 0 ->
  (In (Hid_open true) t ->
   calls_of Hid_close t = 1%nat
   /\ calls_of Hid_exit t = 1%nat
   /\ calls_of Pthread_join t = 1%nat
   /\ calls_of (Pthread_create true) t = 0%nat
   /\ calls_of (Pthread_mutex_destroy Osp_polling_mutex) t = 1%nat
   /\ calls_of (Pthread_mutex_init Osp_polling_mutex true) t
      = calls_of (Pthread_create false) t)
  /\ (In (Hid_open false) t ->
      calls_of (Hid_init true) t = 1%nat /\ calls_of Hid_exit t = 0%nat).
Proof.
  unfold calls_of.
  meter_paths o; intros Hr; try (now contradiction Hr);
    (split; intros Hin;
     [try (cbn in Hin; intuition discriminate); repeat split
     | try (cbn in Hin; intuition discriminate); repeat split]).
Qed.

(** [hb_energy_finish_osp] after a set-up that succeeded and any samples
    and reads: it returns [0], joins the polling thread, destroys the
    mutex, closes the device and shuts the HID library down, each once;
    it switches polling off and leaves [device == NULL], so that a second
    [hb_energy_finish_osp] makes no call and changes nothing, and
    [hb_energy_read_total_osp] returns [-1] and changes nothing. *)
Theorem meter_finish_is_final (o : osp_outcomes) (p : osp_process)
    (es : list osp_event) (l c : Z) :
  let r := hb_energy_init_osp_calls o p in
  snd (fst r) = 0 ->
  let running :=
    {| osp_vars := osp_run (osp_vars (fst (fst r))) es;
       osp_do_polling := osp_do_polling (fst (fst r)) |} in
  let f := hb_energy_finish_osp running in
  let p' := fst (fst f) in
  snd (fst f) = 0
  /\ snd f = [Pthread_join; Pthread_mutex_destroy Osp_polling_mutex;
              Hid_close; Hid_exit]
  /\ calls_of (Pthread_create true) (snd r) = 1%nat
  /\ calls_of (Pthread_mutex_init Osp_polling_mutex true) (snd r) = 1%nat
  /\ calls_of (Hid_open true) (snd r) = 1%nat
  /\ calls_of (Hid_init true) (snd r) = 1%nat
  /\ device (osp_vars p') = false
  /\ osp_do_polling p' = 0
  /\ hb_energy_finish_osp p' = (p', 0, [])
  /\ hb_energy_read_total_osp (osp_vars p') l c = (osp_vars p', of_int (-1)).
Proof.
  intros r Hr running f p'.
  assert (Hdev : device (osp_vars running) = true).
  { subst running. cbn [osp_vars]. rewrite osp_run_device.
    clear - Hr. subst r. revert Hr.
    meter_paths o; intros Hr; try discriminate; reflexivity. }
  assert (Hcalls : calls_of (Pthread_create true) (snd r) = 1%nat
                   /\ calls_of (Pthread_mutex_init Osp_polling_mutex true)
                        (snd r) = 1%nat
                   /\ calls_of (Hid_open true) (snd r) = 1%nat
                   /\ calls_of (Hid_init true) (snd r) = 1%nat).
  { clear - Hr. subst r. revert Hr. unfold calls_of.
    meter_paths o; intros Hr; try discriminate; repeat split. }
  destruct Hcalls as (C1 & C2 & C3 & C4).
  assert (Hf : f = ({| osp_vars := with_device (osp_vars running) false;
                       osp_do_polling := 0 |}, 0,
                    [Pthread_join; Pthread_mutex_destroy Osp_polling_mutex;
                     Hid_close; Hid_exit])).
  { subst f. unfold hb_energy_finish_osp. now rewrite Hdev. }
  subst p'. rewrite Hf. cbn [fst snd].
  unfold hb_energy_finish_osp, hb_energy_read_total_osp. cbn.
  repeat split; assumption.
Qed.

End MeterSetUpFacts.

(** ** Runs from set-up *)

Section RunFacts.

Context {A : Arith}.

Lemma beat_once_valid (hb : heartbeat_t) (c : call) :
  valid (state (beat_once hb c))
  = if first_timestamp hb =? -1 then true else valid (state hb).
Proof.
  unfold beat_once, heartbeat_acc.
  destruct (first_timestamp hb =? -1); [reflexivity |].
  destruct (hb_window_average_accuracy _ _ _ _) as [[[? ?] ?] ?]. cbn.
  destruct (Z.rem _ _ =? 0); cbn;
    [unfold hb_flush_buffer; destruct (text_file hb); cbn |]; reflexivity.
Qed.

Lemma run_counter (cs : list call) :
  forall hb : heartbeat_t,
    counter (state (run hb cs)) = counter (state hb) + Z.of_nat (length cs).
Proof.
  induction cs as [| c cs IH]; intros hb; [cbn; lia |].
  change (run hb (c :: cs)) with (run (beat_once hb c) cs).
  rewrite IH, beat_once_counter. cbn [length]. lia.
Qed.

Lemma run_valid (cs : list call) :
  forall hb : heartbeat_t,
    (first_timestamp hb = -1 \/ valid (state hb) = true) ->
    cs <> [] -> valid (state (run hb cs)) = true.
Proof.
  induction cs as [| c cs IH]; intros hb H Hne; [congruence |].
  change (run hb (c :: cs)) with (run (beat_once hb c) cs).
  assert (Hv : valid (state (beat_once hb c)) = true).
  { rewrite beat_once_valid.
    destruct (Z.eqb_spec (first_timestamp hb) (-1)) as [E | E];
      [reflexivity | now destruct H]. }
  destruct cs as [| c' cs]; [exact Hv |].
  apply IH; [now right | discriminate].
Qed.

(** Whatever the clock and the backend return: the records of a run
    carry the beat numbers [0], [1], [2], ... in call order, each with the
    tag and the accuracy its call was given and the time its call read;
    [counter] is the number of heartbeats, and [valid] is set from the
    first heartbeat on. *)
Theorem records_follow_calls (m : heartbeat_t) (ws bd : Z)
    (ln : option String.string) (b1 b2 b3 b4 b5 b6 : double)
    (cs : list call) :
  let hb0 := heartbeat_acc_pow_init m ws bd ln b1 b2 b3 b4 b5 b6 in
  map beat (records hb0 cs) = map Z.of_nat (seq 0 (length cs))
  /\ map tag (records hb0 cs) = map c_tag cs
  /\ map timestamp (records hb0 cs) = map time_of cs
  /\ map instant_accuracy (records hb0 cs) = map c_accuracy cs
  /\ counter (state (run hb0 cs)) = Z.of_nat (length cs)
  /\ valid (state (run hb0 cs)) = negb (Nat.eqb (length cs) 0).
Proof.
  intros hb0.
  destruct (records_identity_columns cs hb0) as (H1 & H2 & H3 & H4).
  rewrite H1, H2, H3, H4, run_counter.
  repeat split.
  destruct cs as [| c cs]; [reflexivity |].
  now apply run_valid; [left | discriminate].
Qed.

(** In every arithmetic: the instantaneous rate and power of a heartbeat
    after the first are those of the interval since the heartbeat before
    it. *)
Theorem instant_rate_and_power (m : heartbeat_t) (ws bd : Z)
    (ln : option String.string) (b1 b2 b3 b4 b5 b6 : double)
    (c0 : call) (cs : list call) (c : call) :
  time_of c0 <> -1 ->
  let hb := run (heartbeat_acc_pow_init m ws bd ln b1 b2 b3 b4 b5 b6)
              (c0 :: cs) in
  let prev := last cs c0 in
  instant_rate (logged hb c)
  = (of_int 1 / of_int (time_of c - time_of prev) * of_int 1000000000)%dbl
  /\ instant_power (logged hb c)
     = ((energy_of c - energy_of prev) / of_int (time_of c - time_of prev)
        * of_int 1000000000)%dbl.
Proof.
  intros Hclk hb prev. subst hb.
  set (hb0 := heartbeat_acc_pow_init _ _ _ _ _ _ _ _ _ _).
  change (run hb0 (c0 :: cs)) with (run (beat_once hb0 c0) cs).
  set (hb1 := beat_once hb0 c0).
  assert (H1 : first_timestamp hb1 <> -1)
    by (subst hb1; now rewrite first_first_timestamp).
  assert (Hn : first_timestamp (run hb1 cs) <> -1)
    by (destruct (started_run cs hb1 H1) as (E & _); now rewrite E).
  destruct (last_of_run cs hb1 c0 H1) as (Ht & He & _).
  { subst hb1. now rewrite first_last_timestamp. }
  { subst hb1. now rewrite first_last_energy. }
  destruct (next_logged_global (run hb1 cs) c Hn) as (_ & _ & Ir & Ip).
  rewrite Ir, Ip, Ht, He. split; reflexivity.
Qed.

(** *** A window of no slot *)

Lemma empty_window_next (ws k : Z) (hb : heartbeat_t) (c : call) :
  ws <= 0 -> 1 <= k ->
  window_size (state hb) = ws /\ first_timestamp hb <> -1
  /\ steady_state hb = false /\ current_index hb = k - 1 ->
  window_size (state (beat_once hb c)) = ws
  /\ first_timestamp (beat_once hb c) <> -1
  /\ steady_state (beat_once hb c) = false
  /\ current_index (beat_once hb c) = k.
Proof.
  intros Hws Hk (Hsz & Hft & Hst & Hci).
  rewrite next_window_size, next_first_timestamp, next_steady_state,
    next_current_index by assumption.
  rewrite window_step_steady_state, window_step_current_index, Hsz, Hst, Hci.
  assert (E : (k - 1 + 1 =? ws) = false) by (apply Z.eqb_neq; lia).
  rewrite E. repeat split; try assumption. lia.
Qed.

(** [heartbeat_acc_pow_init] accepts a [window_size] that is zero or
    negative.  The engine then never reaches the steady state: the cursor
    of the window moves up by one with every heartbeat after the first and
    never wraps, so from the second heartbeat on every access to the
    windows is outside of them. *)
Theorem empty_window_overruns (m : heartbeat_t) (ws bd : Z)
    (ln : option String.string) (b1 b2 b3 b4 b5 b6 : double)
    (cs : list call) :
  ws <= 0 -> clock_starts_ok cs -> cs <> [] ->
  let hb := run (heartbeat_acc_pow_init m ws bd ln b1 b2 b3 b4 b5 b6) cs in
  steady_state hb = false
  /\ current_index hb = Z.of_nat (length cs) - 1
  /\ hb_window_index_ok hb = false.
Proof.
  intros Hws Hclk Hne hb.
  assert (H : window_size (state hb) = ws /\ first_timestamp hb <> -1
              /\ steady_state hb = false
              /\ current_index hb = Z.of_nat (length cs) - 1).
  { subst hb. set (hb0 := heartbeat_acc_pow_init _ _ _ _ _ _ _ _ _ _).
    revert Hclk Hne.
    induction cs as [| c cs IH] using rev_ind; intros Hclk Hne;
      [congruence |].
    rewrite run_app, length_app. cbn [length].
    destruct cs as [| c0 cs].
    - change (run hb0 []) with hb0.
      rewrite first_first_timestamp, first_state, first_steady_state,
        first_current_index by reflexivity.
      cbn. repeat split. now apply Hclk.
    - replace (Z.of_nat (length (c0 :: cs) + 1) - 1)
        with (Z.of_nat (length (c0 :: cs))) by lia.
      apply empty_window_next; [assumption | cbn [length]; lia |].
      apply IH; [| discriminate].
      intros c' Hc. apply Hclk. exact Hc. }
  destruct H as (Hsz & _ & Hst & Hci).
  split; [exact Hst | split; [exact Hci |]].
  unfold hb_window_index_ok. rewrite Hsz, Hci.
  apply andb_false_intro2. apply Z.ltb_ge.
  destruct cs; [congruence | cbn [length]; lia].
Qed.

End RunFacts.

(** * The statements on concrete runs *)

Local Open Scope string_scope.

(** C1, as stated, fails in binary64.  With [window_size = 2] and the
    accuracies [2^60, 1, 1], the helper reports [0.5] where the brute-force
    average of the last two samples is [1]: the sum [2^60 + 1] of the warm-up
    rounds to [2^60], and the steady-state update subtracts [2^60 / 2] from
    its half.  With the accuracies [1e8, 0.1, 0.1] the two differ by more
    than the tolerance as well. *)
Lemma window_average_drifts :
  last_average_accuracy (window_run (Demo.engine 2 2) Demo.drifting)
  = 0.5%float
  /\ @brute_force_average binary64 (trailing 2 (accuracies Demo.drifting))
     = 1%float
  /\ Binary64.within_tolerance
       (last_average_accuracy (window_run (Demo.engine 2 2) Demo.drifting))
       (@brute_force_average binary64 (trailing 2 (accuracies Demo.drifting)))
     = false
  /\ Binary64.within_tolerance
       (last_average_accuracy
          (window_run (Demo.engine 2 2) Demo.drifting_small))
       (@brute_force_average binary64
          (trailing 2 (accuracies Demo.drifting_small)))
     = false.
Proof. vm_compute. repeat split. Qed.

(** C1, as amended, on the accuracies [1, 3, 5] with [window_size = 2]: the
    average is that of [3] and [5]. *)
Lemma window_average_is_brute_force_witness :
  (1 <= 2)%Z
  /\ Demo.exact_samples <> []
  /\ last_average_accuracy
       (window_run (Demo.exact_engine 2 2) Demo.exact_samples)
     = @brute_force_average exact [3%R; 5%R].
Proof.
  split; [lia | split; [discriminate |]].
  exact (proj1 (proj2 (window_average_is_brute_force 2
                         (Demo.exact_engine 2 2) Demo.exact_samples
                         ltac:(lia) eq_refl eq_refl eq_refl
                         ltac:(discriminate)))).
Defined.

(** C3 on three heartbeats with [window_size = 2]. *)
Lemma steady_state_transition_witness :
  1 <= 2
  /\ clock_starts_ok (Demo.calls 3)
  /\ steady_state (run (Demo.engine 2 4) (Demo.calls 2)) = false
  /\ steady_state (run (Demo.engine 2 4) (Demo.calls 3)) = true.
Proof.
  assert (H : forall n, clock_starts_ok (Demo.calls n)).
  { intros [| n] c Hc; [discriminate |]. inversion Hc. discriminate. }
  split; [lia | split; [apply H | split]].
  - exact (steady_state_transition zero_memory 2 4 _ _ _ _ _ _ _
             (Demo.calls 2) ltac:(lia) (H 2%nat)).
  - exact (steady_state_transition zero_memory 2 4 _ _ _ _ _ _ _
             (Demo.calls 3) ltac:(lia) (H 3%nat)).
Defined.

(** C5, as stated, fails on the first heartbeat: [buffer_index] moves from
    [0] to [1] and [read_index] stays at [0], so the two cursors have not
    advanced the same number of times. *)
Lemma read_index_skips_first_call :
  buffer_index (state (Demo.engine 4 4)) = 0
  /\ read_index (state (Demo.engine 4 4)) = 0
  /\ buffer_index (state (run (Demo.engine 4 4) (Demo.calls 1))) = 1
  /\ read_index (state (run (Demo.engine 4 4) (Demo.calls 1))) = 0.
Proof. vm_compute. repeat split. Qed.

Lemma demo_clock_starts_ok (n : nat) : clock_starts_ok (Demo.calls n).
Proof.
  destruct n as [| n]; intros c Hc; [discriminate |].
  inversion Hc. discriminate.
Qed.

(** C5, as amended, on three heartbeats with [buffer_depth = 2]. *)
Lemma cursors_after_calls_witness :
  2 <= 2
  /\ clock_starts_ok (Demo.calls 2 ++ [call_at 2])
  /\ buffer_index (state (run (Demo.engine 4 2) (Demo.calls 2 ++ [call_at 2])))
     = 1
  /\ read_index (state (run (Demo.engine 4 2) (Demo.calls 2 ++ [call_at 2])))
     = 0.
Proof.
  pose proof (cursors_after_calls zero_memory 4 2 (Some "heartbeat.log")
                (of_int 0) (of_int 0) (of_int 0) (of_int 0) (of_int 0)
                (of_int 0) (Demo.calls 2) (call_at 2) ltac:(lia)
                (demo_clock_starts_ok 3)) as (H1 & H2 & _).
  split; [lia | split; [exact (demo_clock_starts_ok 3) | split]].
  - exact H1.
  - exact H2.
Defined.

(** C6 on three heartbeats one second apart: the global rate of the third
    is [3 / (2 * 1)] beats per second. *)
Lemma global_rate_constant_gap_witness :
  (0 <> -1)%Z /\ (0 < 1000000000)%Z
  /\ global_rate
       (logged (run (Demo.exact_engine 2 4)
                  [Demo.exact_call 0; Demo.exact_call 1])
          (Demo.exact_call 2))
     = (IZR (1 + 2) / (IZR (1 + 2 - 1) * (IZR 1000000000 / 1000000000)))%R.
Proof.
  split; [lia | split; [lia |]].
  refine (proj2 (global_rate_constant_gap zero_memory 2 4 _ _ _ _ _ _ _
                   (Demo.exact_call 0) [Demo.exact_call 1]
                   (Demo.exact_call 2) 0 1000000000
                   ltac:(lia) ltac:(lia) _)).
  intros [| [| [| i]]] ci Hi; inversion Hi; subst; try reflexivity.
  destruct i; discriminate.
Defined.

(** C7, as amended, on a backend that took the samples [2 W] and [4 W]
    before the first of two reads: the first read records their mean
    [3 W], and the second read, with no sample in between, keeps it and
    converts it. *)
Lemma polling_carry_forward_witness :
  device (hb_energy_init_osp 0) = true
  /\ osp_hb_pwr_avg_last
       (fst (hb_energy_read_total_osp
               (osp_run (hb_energy_init_osp 0) Demo.polling_events)
               (-1) 1000000000))
     = 3%float
  /\ osp_hb_pwr_avg_last
       (fst (hb_energy_read_total_osp
               (fst (hb_energy_read_total_osp
                       (osp_run (hb_energy_init_osp 0) Demo.polling_events)
                       (-1) 1000000000))
               1000000000 2000000000))
     = 3%float
  /\ snd (hb_energy_read_total_osp
            (fst (hb_energy_read_total_osp
                    (osp_run (hb_energy_init_osp 0) Demo.polling_events)
                    (-1) 1000000000))
            1000000000 2000000000)
     = 6%float.
Proof.
  pose proof (polling_carry_forward (hb_energy_init_osp 0)
                Demo.polling_events (-1) 1000000000 1000000000 2000000000
                eq_refl) as (H0 & _ & _ & _ & _ & H1 & H2 & _).
  split; [reflexivity | split; [| split]].
  - rewrite H0. reflexivity.
  - rewrite H1, H0. reflexivity.
  - rewrite H2. reflexivity.
Defined.


(** C7, as stated, fails for an average that is not zero but negative: the
    code adopts an average only when it is positive.  After the one sample
    [-2 W] the running average is [-2]; the read that follows does not
    record it and charges the interval with [0 W], and so does the next
    read, which no sample precedes. *)
Lemma negative_average_not_adopted :
  osp_hb_pwr_avg (osp_run (hb_energy_init_osp 0) Scenario.negative_events)
  = PrimFloat.opp 2
  /\ osp_hb_pwr_avg_count
       (osp_run (hb_energy_init_osp 0) Scenario.negative_events)
     = 1
  /\ PrimFloat.eqb
       (osp_hb_pwr_avg
          (osp_run (hb_energy_init_osp 0) Scenario.negative_events)) 0
     = false
  /\ osp_hb_pwr_avg_last
       (fst (hb_energy_read_total_osp
               (osp_run (hb_energy_init_osp 0) Scenario.negative_events)
               (-1) 1000000000))
     = 0%float
  /\ snd (hb_energy_read_total_osp
            (osp_run (hb_energy_init_osp 0) Scenario.negative_events)
            (-1) 1000000000)
     = 0%float
  /\ osp_power_used
       (fst (hb_energy_read_total_osp
               (osp_run (hb_energy_init_osp 0) Scenario.negative_events)
               (-1) 1000000000))
     = 0%float
  /\ snd (hb_energy_read_total_osp
            (fst (hb_energy_read_total_osp
                    (osp_run (hb_energy_init_osp 0)
                       Scenario.negative_events)
                    (-1) 1000000000))
            1000000000 2000000000)
     = 0%float.
Proof. vm_compute. repeat split. Qed.

(** C10 on a run of four heartbeats: the accuracy [7] of the first does not
    reach the window accuracies of the other three. *)
Lemma first_accuracy_leaves_window_witness :
  timestamp_ns (c_time_info (Demo.beat_at 0 7%float 0 0%float)) <> -1
  /\ map window_accuracy
       (records (beat_once (Demo.engine 2 4) (Demo.beat_at 0 7%float 0 0%float))
          (Demo.calls 3))
     = map window_accuracy
         (records (beat_once (Demo.engine 2 4)
                     (Demo.beat_at 0 1000%float 0 0%float))
            (Demo.calls 3)).
Proof.
  assert (H : timestamp_ns (c_time_info (Demo.beat_at 0 7%float 0 0%float))
              <> -1) by discriminate.
  split; [exact H |].
  exact (proj2 (proj2 (first_accuracy_leaves_window zero_memory 2 4 _ _ _ _ _
                         _ _ (Demo.beat_at 0 7%float 0 0%float) (call_at 1)
                         1000%float (Demo.calls 3) H))).
Defined.

(** C9 at [buffer_depth = 1]: after one heartbeat the next record goes to
    slot [1]. *)
Lemma depth_one_log_overrun_witness :
  timestamp_ns (c_time_info (call_at 0)) <> -1
  /\ log_write_index (run (Demo.engine 1 1) (Demo.calls 1)) = 1
  /\ hb_log_index_ok (run (Demo.engine 1 1) (Demo.calls 1)) = false.
Proof.
  assert (H : @timestamp_ns (c_time_info (@call_at binary64 0)) <> -1)
    by discriminate.
  split; [exact H |].
  exact (proj2 (depth_one_log_overrun zero_memory 1 _ _ _ _ _ _ _
                  (call_at 0) H)).
Defined.

(** C2 at [buffer_depth = 1]: no flush after the first heartbeat, one flush
    of two records after the second. *)
Lemma depth_one_flush_skipped_witness :
  timestamp_ns (c_time_info (call_at 0)) <> -1
  /\ flush_count (beat_once (Demo.engine 1 1) (call_at 0)) = 0%nat
  /\ buffer_index (state (beat_once (Demo.engine 1 1) (call_at 0))) = 1
  /\ text_file
       (beat_once (beat_once (Demo.engine 1 1) (call_at 0)) (call_at 1))
     = Some [[logged (Demo.engine 1 1) (call_at 0);
              logged (beat_once (Demo.engine 1 1) (call_at 0)) (call_at 1)]]
  /\ buffer_index
       (state (beat_once (beat_once (Demo.engine 1 1) (call_at 0))
                 (call_at 1)))
     = 0.
Proof.
  assert (H : @timestamp_ns (c_time_info (@call_at binary64 0)) <> -1)
    by discriminate.
  split; [exact H |].
  exact (depth_one_flush_skipped zero_memory 1 "heartbeat.log"
           (of_int 0) (of_int 0) (of_int 0) (of_int 0) (of_int 0)
           (of_int 0) (call_at 0) (call_at 1) H).
Defined.

(** [log_index_in_bounds] on five heartbeats with [buffer_depth = 2]. *)
Lemma log_index_in_bounds_witness :
  2 <= 2 /\ clock_starts_ok (Demo.calls 5)
  /\ 0 <= log_write_index (run (Demo.engine 2 2) (Demo.calls 5)) < 2.
Proof.
  split; [lia | split; [exact (demo_clock_starts_ok 5) |]].
  exact (proj2 (log_index_in_bounds zero_memory 2 2 _ _ _ _ _ _ _
                  (Demo.calls 5) ltac:(lia) (demo_clock_starts_ok 5))).
Defined.

(** [flush_cadence] on five heartbeats with [buffer_depth = 2]: two flushes,
    of the first four records. *)
Lemma flush_cadence_witness :
  2 <= 2 /\ clock_starts_ok (Demo.calls 5)
  /\ Z.of_nat (flush_count (run (Demo.engine 2 2) (Demo.calls 5))) = 2
  /\ flushed (run (Demo.engine 2 2) (Demo.calls 5))
     = firstn 4 (records (Demo.engine 2 2) (Demo.calls 5)).
Proof.
  pose proof (flush_cadence zero_memory 2 2 "heartbeat.log"
                (of_int 0) (of_int 0) (of_int 0) (of_int 0) (of_int 0)
                (of_int 0) (Demo.calls 5) ltac:(lia)
                (demo_clock_starts_ok 5)) as (H1 & H2 & _).
  split; [lia | split; [exact (demo_clock_starts_ok 5) | split]].
  - exact H1.
  - exact H2.
Defined.

(** The end-to-end example of the spec, in binary64: the second heartbeat
    logs the rates [2], [1], [1], the accuracies [0.9], [0.8], [0.8] and the
    powers [10], [10], [10]; both records are flushed in one chunk and
    [buffer_index] is back at [0]. *)
Lemma end_to_end_example :
  map Demo.columns (records (Demo.engine 1 2) Demo.example_calls)
  = [ (0, 0, 0,
       [0; 0; 0; 1; 1; 1; 0; 0; 0]%float);
      (1, 1, 1000000000,
       [2; 1; 1; PrimFloat.div 9 10; PrimFloat.div 8 10; PrimFloat.div 8 10;
        10; 10; 10]%float) ]
  /\ option_map (map (map Demo.columns))
       (text_file (run (Demo.engine 1 2) Demo.example_calls))
     = Some [map Demo.columns
               (records (Demo.engine 1 2) Demo.example_calls)]
  /\ buffer_index (state (run (Demo.engine 1 2) Demo.example_calls)) = 0.
Proof. vm_compute. repeat split. Qed.

(** [global_rate_after] on three heartbeats one second apart, in binary64:
    the third logs [1.5] beats per second. *)
Lemma global_rate_after_witness :
  timestamp_ns (c_time_info (call_at 0)) <> -1
  /\ global_rate
       (logged (run (Demo.engine 2 4) [call_at 0; call_at 1]) (call_at 2))
     = 1.5%float.
Proof.
  assert (H : @timestamp_ns (c_time_info (@call_at binary64 0)) <> -1)
    by discriminate.
  split; [exact H |].
  pose proof (global_rate_after zero_memory 2 4 (Some "heartbeat.log")
                (of_int 0) (of_int 0) (of_int 0) (of_int 0) (of_int 0)
                (of_int 0) (call_at 0) [call_at 1] (call_at 2) H)
    as (_ & _ & E).
  etransitivity; [exact E |]. vm_compute. reflexivity.
Defined.

(** [logged_window_accuracy_is_brute_force] on four heartbeats with
    [window_size = 2] and the accuracy [1] each. *)
Lemma logged_window_accuracy_is_brute_force_witness :
  1 <= 2
  /\ timestamp_ns (c_time_info (Demo.exact_call 0)) <> -1
  /\ window_accuracy
       (logged (run (Demo.exact_engine 2 4)
                  [Demo.exact_call 0; Demo.exact_call 1; Demo.exact_call 2])
          (Demo.exact_call 3))
     = @brute_force_average exact [1%R; 1%R].
Proof.
  assert (H : @timestamp_ns (c_time_info (Demo.exact_call 0)) <> -1)
    by discriminate.
  split; [lia | split; [exact H |]].
  exact (logged_window_accuracy_is_brute_force zero_memory 2 4
           (Some "heartbeat.log") 0%R 0%R 0%R 0%R 0%R 0%R
           (Demo.exact_call 0) [Demo.exact_call 1; Demo.exact_call 2]
           (Demo.exact_call 3) ltac:(lia) H).
Defined.

(** [polling_nonzero_average_kept] on the samples [2 W] and [4 W]. *)
Lemma polling_nonzero_average_kept_witness :
  samples_nonnegative Demo.exact_events
  /\ osp_hb_pwr_avg (osp_run (hb_energy_init_osp 0) Demo.exact_events) <> 0%R
  /\ osp_hb_pwr_avg_last
       (fst (hb_energy_read_total_osp
               (osp_run (hb_energy_init_osp 0) Demo.exact_events)
               0 1000000000))
     = osp_hb_pwr_avg (osp_run (hb_energy_init_osp 0) Demo.exact_events).
Proof.
  assert (Hs : samples_nonnegative Demo.exact_events).
  { intros w [E | [E | []]]; inversion E; lra. }
  assert (Hz : osp_hb_pwr_avg (osp_run (hb_energy_init_osp 0)
                                 Demo.exact_events) <> 0%R).
  { cbn. lra. }
  split; [exact Hs | split; [exact Hz |]].
  exact (proj1 (polling_nonzero_average_kept 0 Demo.exact_events
                  0 1000000000 [] Hs Hz)).
Defined.

(** [window_index_in_bounds] on five heartbeats with [window_size = 2]. *)
Lemma window_index_in_bounds_witness :
  1 <= 2 /\ clock_starts_ok (Demo.calls 5)
  /\ hb_window_index_ok (run (Demo.engine 2 2) (Demo.calls 5)) = true.
Proof.
  split; [lia | split; [exact (demo_clock_starts_ok 5) |]].
  exact (window_index_in_bounds zero_memory 2 2 _ _ _ _ _ _ _
           (Demo.calls 5) ltac:(lia) (demo_clock_starts_ok 5)).
Defined.

(** [window_of_one_is_instant] on three heartbeats one second apart, with
    a narrowing that rounds up to the next integer. *)
Lemma window_of_one_is_instant_witness :
  time_of (Scenario.narrow_beat 0 1 0) <> -1
  /\ window_power
       (logged (run (Scenario.narrow_engine 1 4)
                  (firstn 2 Scenario.narrow_beats))
          (Scenario.narrow_beat 2 5 4000000))
     = instant_power
         (logged (run (Scenario.narrow_engine 1 4)
                    (firstn 2 Scenario.narrow_beats))
            (Scenario.narrow_beat 2 5 4000000))
  /\ window_rate
       (logged (run (Scenario.narrow_engine 1 4)
                  (firstn 2 Scenario.narrow_beats))
          (Scenario.narrow_beat 2 5 4000000))
     = Scenario.round_up
         (1 / Scenario.round_up (IZR (2000000000 - 1000000000))
          * 1000000000)%R.
Proof.
  assert (H : time_of (Scenario.narrow_beat 0 1 0) <> -1) by discriminate.
  split; [exact H |].
  pose proof (window_of_one_is_instant Scenario.round_up zero_memory 4
                (Some "heartbeat.log") 0%R 0%R 0%R 0%R 0%R 0%R
                (Scenario.narrow_beat 0 1 0)
                [Scenario.narrow_beat 1 3 2000000]
                (Scenario.narrow_beat 2 5 4000000) H)
    as (_ & Hp & _ & Hr).
  split; [exact Hp | exact Hr].
Defined.

(** [log_holds_recent_records] on three heartbeats with
    [buffer_depth = 2]: the record of the third is in slot [0]. *)
Lemma log_holds_recent_records_witness :
  2 <= 2 /\ clock_starts_ok (Demo.calls 3)
  /\ Z.of_nat (length (Demo.calls 3)) - 2 <= Z.of_nat 2
  /\ log (run (Demo.engine 4 2) (Demo.calls 3)) 0
     = logged (run (Demo.engine 4 2) (Demo.calls 2)) (call_at 2).
Proof.
  assert (Hnth : nth_error (records (Demo.engine 4 2) (Demo.calls 3)) 2
                 = Some (logged (run (Demo.engine 4 2) (Demo.calls 2))
                           (call_at 2))).
  { change (Demo.calls 3) with (Demo.calls 2 ++ [call_at 2]).
    rewrite records_app, nth_error_app2 by (rewrite records_length; cbn; lia).
    rewrite records_length. reflexivity. }
  assert (Hrecent : Z.of_nat (length (Demo.calls 3)) - 2 <= Z.of_nat 2)
    by (cbn; lia).
  split; [lia | split; [exact (demo_clock_starts_ok 3) | split;
    [exact Hrecent |]]].
  exact (log_holds_recent_records zero_memory 4 2 (Some "heartbeat.log")
           (of_int 0) (of_int 0) (of_int 0) (of_int 0) (of_int 0)
           (of_int 0) (Demo.calls 3) 2 _ ltac:(lia)
           (demo_clock_starts_ok 3) Hnth Hrecent).
Defined.

(** [warm_up_recomputes] in binary64, on the accuracies [2^60] and [1]
    with [window_size = 2]: the average is that of the rounded sum. *)
Lemma warm_up_recomputes_witness :
  1 <= 2
  /\ firstn 2 Demo.drifting <> []
  /\ Z.of_nat (length (firstn 2 Demo.drifting)) <= 2
  /\ last_average_accuracy
       (window_run (Demo.engine 2 2) (firstn 2 Demo.drifting))
     = Binary64.of_int (2 ^ 59).
Proof.
  assert (Hne : firstn 2 Demo.drifting <> []) by discriminate.
  assert (Hlen : Z.of_nat (length (firstn 2 Demo.drifting)) <= 2)
    by (cbn; lia).
  split; [lia | split; [exact Hne | split; [exact Hlen |]]].
  pose proof (warm_up_recomputes 2 (Demo.engine 2 2)
                (firstn 2 Demo.drifting) ltac:(lia) eq_refl eq_refl eq_refl
                Hne Hlen) as (_ & _ & _ & E).
  etransitivity; [exact E |]. vm_compute. reflexivity.
Defined.

(** [global_accuracy_is_brute_force] in binary64, on three heartbeats of
    accuracy [1]. *)
Lemma global_accuracy_is_brute_force_witness :
  time_of (call_at 0) <> -1
  /\ global_accuracy
       (logged (run (Demo.engine 2 4) [call_at 0; call_at 1]) (call_at 2))
     = 1%float.
Proof.
  assert (H : @time_of binary64 (call_at 0) <> -1) by discriminate.
  split; [exact H |].
  pose proof (global_accuracy_is_brute_force zero_memory 2 4
                (Some "heartbeat.log")
                (of_int 0) (of_int 0) (of_int 0) (of_int 0) (of_int 0)
                (of_int 0) (call_at 0) [call_at 1] (call_at 2) H)
    as (_ & E).
  etransitivity; [exact E |]. vm_compute. reflexivity.
Defined.

(** [global_power_is_energy_over_time] on three heartbeats one second
    apart that use two joules each. *)
Lemma global_power_is_energy_over_time_witness :
  time_of (Scenario.exact_beat 0 1 0) <> -1
  /\ global_power
       (logged (run (Demo.exact_engine 2 4)
                  [Scenario.exact_beat 0 1 0; Scenario.exact_beat 1 3 2000000])
          (Scenario.exact_beat 2 5 4000000))
     = ((4000000 / 1000000 - 0 / 1000000) / IZR 2000000000 * 1000000000)%R.
Proof.
  assert (H : time_of (Scenario.exact_beat 0 1 0) <> -1) by discriminate.
  split; [exact H |].
  exact (proj2 (global_power_is_energy_over_time zero_memory 2 4
                  (Some "heartbeat.log") 0%R 0%R 0%R 0%R 0%R 0%R
                  (Scenario.exact_beat 0 1 0)
                  [Scenario.exact_beat 1 3 2000000]
                  (Scenario.exact_beat 2 5 4000000) H)).
Defined.

(** [window_rate_and_power_span] on four heartbeats one second apart with
    [window_size = 2] and a narrowing that rounds up to the next integer:
    the window of the fourth starts at the second. *)
Lemma window_rate_and_power_span_witness :
  1 <= 2
  /\ time_of (Scenario.narrow_beat 0 1 0) <> -1
  /\ window_rate
       (logged (run (Scenario.narrow_engine 2 4)
                  (firstn 3 Scenario.narrow_beats))
          (Scenario.narrow_beat 3 7 6000000))
     = Scenario.round_up
         (1 / Scenario.round_up (IZR (3000000000 - 1000000000) / IZR 2)
          * 1000000000)%R.
Proof.
  assert (H : time_of (Scenario.narrow_beat 0 1 0) <> -1) by discriminate.
  split; [lia | split; [exact H |]].
  exact (proj1 (window_rate_and_power_span Scenario.round_up zero_memory 2 4
                  (Some "heartbeat.log") 0%R 0%R 0%R 0%R 0%R 0%R
                  (Scenario.narrow_beat 0 1 0)
                  [Scenario.narrow_beat 1 3 2000000;
                   Scenario.narrow_beat 2 5 4000000]
                  (Scenario.narrow_beat 3 7 6000000) ltac:(lia) H)).
Defined.

(** [instant_rate_and_power] in binary64, on three heartbeats one second
    apart: the third logs one heartbeat per second. *)
Lemma instant_rate_and_power_witness :
  time_of (call_at 0) <> -1
  /\ instant_rate
       (logged (run (Demo.engine 2 4) [call_at 0; call_at 1]) (call_at 2))
     = 1%float.
Proof.
  assert (H : @time_of binary64 (call_at 0) <> -1) by discriminate.
  split; [exact H |].
  pose proof (instant_rate_and_power zero_memory 2 4 (Some "heartbeat.log")
                (of_int 0) (of_int 0) (of_int 0) (of_int 0) (of_int 0)
                (of_int 0) (call_at 0) [call_at 1] (call_at 2) H)
    as (E & _).
  etransitivity; [exact E |]. vm_compute. reflexivity.
Defined.

(** [empty_window_overruns] on three heartbeats with [window_size = 0]. *)
Lemma empty_window_overruns_witness :
  0 <= 0 /\ clock_starts_ok (Demo.calls 3) /\ Demo.calls 3 <> []
  /\ current_index (run (Demo.engine 0 4) (Demo.calls 3)) = 2
  /\ hb_window_index_ok (run (Demo.engine 0 4) (Demo.calls 3)) = false.
Proof.
  assert (Hne : Demo.calls 3 <> []) by discriminate.
  split; [lia | split; [exact (demo_clock_starts_ok 3) | split;
    [exact Hne |]]].
  exact (proj2 (empty_window_overruns zero_memory 0 4 (Some "heartbeat.log")
                  (of_int 0) (of_int 0) (of_int 0) (of_int 0) (of_int 0)
                  (of_int 0) (Demo.calls 3) ltac:(lia)
                  (demo_clock_starts_ok 3) Hne)).
Defined.

(** [polling_charges_mean_power] on the samples [2 W] and [4 W]. *)
Lemma polling_charges_mean_power_witness :
  device (@hb_energy_init_osp exact 0) = true
  /\ osp_hb_pwr_avg_count (@hb_energy_init_osp exact 0) = 0
  /\ [2%R; 4%R] <> []
  /\ osp_hb_pwr_avg
       (osp_run (hb_energy_init_osp 0) (map (@Sample exact) [2%R; 4%R]))
     = @brute_force_average exact [2%R; 4%R].
Proof.
  assert (Hne : [2%R; 4%R] <> []) by discriminate.
  split; [reflexivity | split; [reflexivity | split; [exact Hne |]]].
  exact (proj1 (polling_charges_mean_power (hb_energy_init_osp 0)
                  [2%R; 4%R] 0 1000000000 eq_refl eq_refl Hne)).
Defined.

(** [polling_total_never_decreases] on the samples [2 W] and [4 W] and a
    read one second after the start. *)
Lemma polling_total_never_decreases_witness :
  samples_nonnegative (Demo.exact_events ++ [] ++ [Read (-1) 1000000000])
  /\ reads_forward 0 (Demo.exact_events ++ [] ++ [Read (-1) 1000000000])
  /\ (osp_total_energy (osp_run (hb_energy_init_osp 0) Demo.exact_events)
      <= snd (hb_energy_read_total_osp
                (osp_run (osp_run (hb_energy_init_osp 0) Demo.exact_events)
                   [])
                (-1) 1000000000))%R.
Proof.
  assert (Hs : samples_nonnegative
                 (Demo.exact_events ++ [] ++ [Read (-1) 1000000000])).
  { intros w [E | [E | [E | []]]]; inversion E; lra. }
  assert (Hr : reads_forward 0
                 (Demo.exact_events ++ [] ++ [Read (-1) 1000000000])).
  { intros l c [E | [E | [E | []]]]; inversion E. cbn. lia. }
  split; [exact Hs | split; [exact Hr |]].
  exact (proj2 (polling_total_never_decreases 0 Demo.exact_events []
                  (-1) 1000000000 Hs Hr)).
Defined.

(** [abandoned_set_up_runs_finish] when [HB_alloc_log] returns [NULL], in
    binary64. *)
Lemma abandoned_set_up_runs_finish_witness :
  fst (heartbeat_acc_pow_init_calls Scenario.no_log
         (@zero_memory binary64) 2 4 (Some "heartbeat.log")
         (of_int 0) (of_int 0) (of_int 0) (of_int 0) (of_int 0) (of_int 0))
  = None
  /\ In (Em_finit true)
       (snd (heartbeat_acc_pow_init_calls Scenario.no_log
               (@zero_memory binary64) 2 4 (Some "heartbeat.log")
               (of_int 0) (of_int 0) (of_int 0) (of_int 0) (of_int 0)
               (of_int 0)))
  /\ calls_of (Pthread_mutex_destroy Hb_mutex)
       (snd (heartbeat_acc_pow_init_calls Scenario.no_log
               (@zero_memory binary64) 2 4 (Some "heartbeat.log")
               (of_int 0) (of_int 0) (of_int 0) (of_int 0) (of_int 0)
               (of_int 0)))
     = 1%nat.
Proof.
  assert (Hin : In (Em_finit true)
                  (snd (heartbeat_acc_pow_init_calls Scenario.no_log
                          (@zero_memory binary64) 2 4 (Some "heartbeat.log")
                          (of_int 0) (of_int 0) (of_int 0) (of_int 0)
                          (of_int 0) (of_int 0)))).
  { cbn. tauto. }
  split; [reflexivity | split; [exact Hin |]].
  exact (proj1 (abandoned_set_up_runs_finish Scenario.no_log
                  (@zero_memory binary64) 2 4 (Some "heartbeat.log")
                  (of_int 0) (of_int 0) (of_int 0) (of_int 0) (of_int 0)
                  (of_int 0) eq_refl Hin)).
Defined.

(** [abandoned_meter_runs_finish] when [pthread_mutex_init] fails, in
    binary64. *)
Lemma abandoned_meter_runs_finish_witness :
  snd (fst (hb_energy_init_osp_calls Scenario.no_mutex
              (@osp_static binary64))) <> 0
  /\ In (Hid_open true)
       (snd (hb_energy_init_osp_calls Scenario.no_mutex
               (@osp_static binary64)))
  /\ calls_of Pthread_join
       (snd (hb_energy_init_osp_calls Scenario.no_mutex
               (@osp_static binary64)))
     = 1%nat
  /\ calls_of (Pthread_create true)
       (snd (hb_energy_init_osp_calls Scenario.no_mutex
               (@osp_static binary64)))
     = 0%nat.
Proof.
  assert (Hr : snd (fst (hb_energy_init_osp_calls Scenario.no_mutex
                           (@osp_static binary64))) <> 0) by discriminate.
  assert (Hin : In (Hid_open true)
                  (snd (hb_energy_init_osp_calls Scenario.no_mutex
                          (@osp_static binary64)))).
  { cbn. tauto. }
  split; [exact Hr | split; [exact Hin |]].
  pose proof (proj1 (abandoned_meter_runs_finish Scenario.no_mutex
                       (@osp_static binary64) Hr) Hin)
    as (_ & _ & H1 & H2 & _).
  split; [exact H1 | exact H2].
Defined.

(** [meter_finish_is_final] after a set-up that succeeded and two
    samples, in binary64. *)
Lemma meter_finish_is_final_witness :
  snd (fst (hb_energy_init_osp_calls Scenario.meter_well
              (@osp_static binary64))) = 0
  /\ snd (fst (hb_energy_finish_osp
                 {| osp_vars :=
                      osp_run
                        (osp_vars
                           (fst (fst (hb_energy_init_osp_calls
                                        Scenario.meter_well
                                        (@osp_static binary64)))))
                        Demo.polling_events;
                    osp_do_polling :=
                      osp_do_polling
                        (fst (fst (hb_energy_init_osp_calls
                                     Scenario.meter_well
                                     (@osp_static binary64)))) |}))
     = 0.
Proof.
  split; [reflexivity |].
  exact (proj1 (meter_finish_is_final Scenario.meter_well
                  (@osp_static binary64) Demo.polling_events 0 1000000000
                  eq_refl)).
Defined.

(** [polling_total_is_sum_of_intervals] on two intervals. *)
Lemma polling_total_is_sum_of_intervals_witness :
  Forall (fun i => i_samples i <> []
                   /\ (0 < @brute_force_average exact (i_samples i))%R)
    Scenario.intervals
  /\ osp_total_energy
       (osp_run (hb_energy_init_osp 0)
          (concat (map interval_events Scenario.intervals)))
     = fold_left Rplus (map (interval_energy 0) Scenario.intervals) 0%R.
Proof.
  assert (H : Forall (fun i => i_samples i <> []
                        /\ (0 < @brute_force_average exact (i_samples i))%R)
                Scenario.intervals).
  { repeat constructor; try discriminate; cbn; lra. }
  split; [exact H |].
  exact (polling_total_is_sum_of_intervals 0 Scenario.intervals H).
Defined.

(** The window rate goes through [float] and the instantaneous rate does
    not: in binary64, with [window_size = 1] and two heartbeats
    [1000000031] ns apart, the second logs the window rate [1] and an
    instantaneous rate below [1]. *)
Lemma window_rate_narrows_in_binary64 :
  window_rate
    (logged (run (Demo.engine 1 4) [Demo.beat_at 0 1%float 0 0%float])
       (Demo.beat_at 1 1%float 1000000031 0%float))
  = 1%float
  /\ PrimFloat.ltb
       (instant_rate
          (logged (run (Demo.engine 1 4) [Demo.beat_at 0 1%float 0 0%float])
             (Demo.beat_at 1 1%float 1000000031 0%float)))
       1%float
     = true.
Proof. vm_compute. repeat split. Qed.
